(** * SmartType configuration panel: configuration persistence and service control

    A shallow embedding of [python-gui/main.py]: the [SmartTypeConfig] class
    (load, save and default configuration) and the parts of [MainWindow] that
    move data between the configuration mapping, the widgets and the service
    manager.  Python values are an inductive type, dictionaries are
    insertion-ordered association lists with unique keys, the file system is
    a finite map from paths to nodes, and exceptions are an explicit result
    type. *)

From Stdlib Require Import ZArith String Ascii List Bool Lia DecimalString.
From stdpp Require Import base option list gmap strings fin_maps.

Local Open Scope Z_scope.
Local Open Scope string_scope.
Local Open Scope list_scope.

Set Warnings "-register-all".

(** * Python values and exceptions *)

(** The fragment of Python values that the configuration document uses:
    [None], booleans, integers, strings, and dictionaries keyed by strings
    (kept in insertion order, as Python dictionaries are). *)
Inductive PyVal : Type :=
| PNone
| PBool (b : bool)
| PInt (z : Z)
| PStr (s : string)
| PDict (d : list (string * PyVal)).

(** The exceptions the modelled code can meet. *)
Inductive exn : Type :=
| YAMLError (msg : string)
| FileNotFoundError
| IsADirectoryError
| NotADirectoryError
| FileExistsError
| PermissionError
| TypeError
| AttributeError
| OverflowError
| CalledProcessError (returncode : Z) (cmd : list string)
                     (output stderr : option string)
| OtherError (name : string).

Inductive result (A : Type) : Type :=
| Ok (a : A)
| Raise (e : exn).
Arguments Ok {A} a.
Arguments Raise {A} e.

Definition rbind {A B} (m : result A) (k : A -> result B) : result B :=
  match m with
  | Ok a => k a
  | Raise e => Raise e
  end.

Notation "x <- c1 ;; c2" := (rbind c1 (fun x => c2))
  (at level 100, c1 at next level, right associativity).

(** ** Dictionaries *)

Module Dict.

Definition t := list (string * PyVal).

(** [d.get(k)] without a default. *)
Fixpoint lookup (k : string) (d : t) : option PyVal :=
  match d with
  | [] => None
  | (k', v) :: d' => if String.eqb k k' then Some v else lookup k d'
  end.

(** [d.get(k, dflt)] *)
Definition get (k : string) (dflt : PyVal) (d : t) : PyVal :=
  match lookup k d with
  | Some v => v
  | None => dflt
  end.

(** [d[k] = v]: an existing key keeps its position, a new key goes last. *)
Fixpoint set (k : string) (v : PyVal) (d : t) : t :=
  match d with
  | [] => [(k, v)]
  | (k', v') :: d' =>
      if String.eqb k k' then (k', v) :: d' else (k', v') :: set k v d'
  end.

Definition keys (d : t) : list string := map fst d.

(** [len(d)] *)
Definition len (d : t) : nat := length d.

End Dict.


(** * The file system *)

(** A path is the list of its components below the root. *)
Abbreviation path := (list string) (only parsing).

Inductive node : Type :=
| File (content : string)
| Dir.

(** The root directory [[]] always exists; every other path is looked up. *)
Definition node_at (fs : gmap path node) (p : path) : option node :=
  match p with
  | [] => Some Dir
  | _ => fs !! p
  end.

(** [Path.exists()] *)
Definition path_exists (fs : gmap path node) (p : path) : bool :=
  match node_at fs p with
  | Some _ => true
  | None => false
  end.

Definition parent (p : path) : path := removelast p.

(** [Path.mkdir(parents=True, exist_ok=True)]: every missing ancestor is
    created; an existing directory is accepted; a regular file in the way
    is an error. [pre] is the part of the path already walked. *)
Fixpoint mkdir_from (pre rest : path) (fs : gmap path node)
  : result (gmap path node) :=
  match rest with
  | [] => Ok fs
  | c :: rest' =>
      let p := pre ++ [c] in
      match fs !! p with
      | None => mkdir_from p rest' (<[p := Dir]> fs)
      | Some Dir => mkdir_from p rest' fs
      | Some (File _) =>
          Raise (match rest' with
                 | [] => FileExistsError
                 | _ => NotADirectoryError
                 end)
      end
  end.

Definition mkdir_parents (p : path) (fs : gmap path node)
  : result (gmap path node) :=
  mkdir_from [] p fs.

(** [open(p, 'r')] followed by reading the whole file. *)
Definition open_read (fs : gmap path node) (p : path) : result string :=
  match node_at fs p with
  | Some (File c) => Ok c
  | Some Dir => Raise IsADirectoryError
  | None => Raise FileNotFoundError
  end.

(** [open(p, 'w')]: the file is created or truncated to length zero. *)
Definition open_write (p : path) (fs : gmap path node)
  : result (gmap path node) :=
  match node_at fs p with
  | Some Dir => Raise IsADirectoryError
  | _ =>
      match node_at fs (parent p) with
      | Some Dir => Ok (<[p := File EmptyString]> fs)
      | Some (File _) => Raise NotADirectoryError
      | None => Raise FileNotFoundError
      end
  end.

(** Writing to the open file appends to what has reached the disk so far. *)
Definition write_chunk (p : path) (chunk : string) (fs : gmap path node)
  : result (gmap path node) :=
  match fs !! p with
  | Some (File c) => Ok (<[p := File (c +:+ chunk)]> fs)
  | _ => Raise (OtherError "ValueError")
  end.

(** * The platform: home directory and the YAML library *)

(** [yaml.safe_load] and [yaml.dump(_, default_flow_style=False)] belong to
    the PyYAML library, [Path.home()] to the user's environment and the names
    of the signals to the operating system; the program is modelled over any
    such platform.  [signal_text n] is what Python prints after [died with]
    for a child killed by signal [n]. *)
Class Platform : Type := {
  home : path;
  safe_load : string -> result PyVal;
  dump : PyVal -> string;
  signal_text : Z -> string;
}.

(** * class SmartTypeConfig *)

Section SmartTypeConfig.

Context `{Platform}.

Definition config_dir : path := home ++ [".config"; "smarttype"].
Definition config_file : path := config_dir ++ ["config.yaml"].

Definition default_config : PyVal :=
  PDict
    [ ("enabled", PBool true);
      ("smart_punctuation", PBool true);
      ("autocorrect", PBool true);
      ("min_word_length", PInt 2);
      ("applications",
        PDict
          [ ("firefox",
              PDict [("enabled", PBool true); ("smart_quotes", PBool true);
                     ("autocorrect", PBool true)]);
            ("qterminal",
              PDict [("enabled", PBool true); ("smart_quotes", PBool false);
                     ("autocorrect", PBool true)]);
            ("kitty",
              PDict [("enabled", PBool true); ("smart_quotes", PBool false);
                     ("autocorrect", PBool true)]) ]);
      ("custom_typos",
        PDict [("hte", PStr "the"); ("becuase", PStr "because")]);
      ("hotkey", PStr "Super+Shift+A") ].

Definition load_config (fs : gmap path node) : result PyVal :=
  if path_exists fs config_file then
    content <- open_read fs config_file ;;
    safe_load content
  else Ok default_config.

(** The effects of [save_config] on the disk, one after the other: the
    directory is made, the file is opened for writing, and the text of the
    dump reaches the file character by character. *)
Inductive io_step : Type :=
| StepMkdir (p : path)
| StepOpenWrite (p : path)
| StepWrite (p : path) (chunk : string).

(** What is on the disk when a sequence of effects ends: after the last
    one, or at the first one that fails. *)
Inductive io_result : Type :=
| Written (fs : gmap path node)
| Failed (e : exn) (fs : gmap path node).

Definition exec_step (s : io_step) (fs : gmap path node)
  : result (gmap path node) :=
  match s with
  | StepMkdir p => mkdir_parents p fs
  | StepOpenWrite p => open_write p fs
  | StepWrite p chunk => write_chunk p chunk fs
  end.

Fixpoint exec_steps (l : list io_step) (fs : gmap path node) : io_result :=
  match l with
  | [] => Written fs
  | s :: l' =>
      match exec_step s fs with
      | Ok fs' => exec_steps l' fs'
      | Raise e => Failed e fs
      end
  end.

Definition write_steps (p : path) (text : string) : list io_step :=
  map (fun c => StepWrite p (String c EmptyString))
      (list_ascii_of_string text).

Definition save_config_steps (config : PyVal) : list io_step :=
  StepMkdir config_dir :: StepOpenWrite config_file
    :: write_steps config_file (dump config).

Definition save_config (config : PyVal) (fs : gmap path node) : io_result :=
  exec_steps (save_config_steps config) fs.

(** [save_config] cut short after its first [n] effects. *)
Definition save_config_interrupted (n : nat) (config : PyVal)
    (fs : gmap path node) : io_result :=
  exec_steps (take n (save_config_steps config)) fs.



End SmartTypeConfig.

(** * The service manager, seen through [subprocess.run] *)

(** The keyword arguments of one [subprocess.run] call. *)
Record RunCall : Type := {
  argv : list string;
  check : bool;
  capture_output : bool;
  text_mode : bool;
  timeout : option Z;
}.

(** What the operating system answers: the child ran and exited, writing
    [out] and [err] to its standard streams, or the call itself raised
    (the binary is missing, permission is denied, ...). *)
Inductive RunOutcome : Type :=
| Exited (returncode : Z) (out err : string)
| SpawnFailed (e : exn).

Record CompletedProcess : Type := {
  cp_args : list string;
  cp_returncode : Z;
  cp_stdout : option string;
  cp_stderr : option string;
}.

(** * The widget toolkit *)

(** How PyQt converts a Python argument for [setChecked], [setValue],
    [setText] and [QTableWidgetItem]: only the behaviour on arguments of the
    expected type is fixed here. *)
Class Toolkit : Type := {
  to_bool : PyVal -> result bool;
  to_int : PyVal -> result Z;
  to_text : PyVal -> result string;
  to_item_text : PyVal -> result string;
  to_bool_PBool : forall b, to_bool (PBool b) = Ok b;
  to_int_PInt : forall z, -2 ^ 31 <= z < 2 ^ 31 -> to_int (PInt z) = Ok z;
  to_text_PStr : forall s, to_text (PStr s) = Ok s;
  to_item_text_PStr : forall s, to_item_text (PStr s) = Ok s;
}.

(** [QSpinBox] *)
Record QSpinBox : Type := {
  minimum : Z;
  maximum : Z;
  value : Z;
}.

Definition bound (lo hi v : Z) : Z := Z.max lo (Z.min hi v).

(** A fresh spin box ranges over 0..99 and shows 0. *)
Definition new_QSpinBox : QSpinBox :=
  {| minimum := 0; maximum := 99; value := 0 |}.

Definition setRange (lo hi : Z) (sb : QSpinBox) : QSpinBox :=
  let hi' := Z.max lo hi in
  {| minimum := lo; maximum := hi'; value := bound lo hi' (value sb) |}.

Definition setMinimum (lo : Z) (sb : QSpinBox) : QSpinBox :=
  setRange lo (Z.max lo (maximum sb)) sb.

Definition setMaximum (hi : Z) (sb : QSpinBox) : QSpinBox :=
  setRange (Z.min (minimum sb) hi) hi sb.

Definition setValue (v : Z) (sb : QSpinBox) : QSpinBox :=
  {| minimum := minimum sb; maximum := maximum sb;
     value := bound (minimum sb) (maximum sb) v |}.

(** One row of the applications table: the name item of column 0 and the
    check boxes of columns 1 to 3; a cell that was never set is [None]. *)
Record AppRow : Type := {
  app_item : option string;
  enabled_widget : option bool;
  smart_quotes_widget : option bool;
  autocorrect_widget : option bool;
}.

Record TypoRow : Type := {
  typo_item : option string;
  correction_item : option string;
}.

Definition empty_AppRow : AppRow :=
  {| app_item := None; enabled_widget := None;
     smart_quotes_widget := None; autocorrect_widget := None |}.

Definition empty_TypoRow : TypoRow :=
  {| typo_item := None; correction_item := None |}.

(** [QTableWidget.setRowCount], [insertRow] and [removeRow] *)
Definition setRowCount {A} (empty : A) (n : nat) (rows : list A) : list A :=
  take n rows ++ replicate (n - length rows) empty.

Definition insertRow {A} (empty : A) (row : nat) (rows : list A) : list A :=
  if (row <=? length rows)%nat then take row rows ++ empty :: drop row rows
  else rows.

Definition removeRow {A} (row : nat) (rows : list A) : list A :=
  delete row rows.

Inductive Dialog : Type :=
| Information (title text : string)
| Warning (title text : string).

(** * class MainWindow *)

(** The window: the configuration mapping held by the configuration manager
    (one object, changed in place) and the state of the widgets. *)
Record MainWindow : Type := {
  config : PyVal;
  enabled_checkbox : bool;
  autocorrect_checkbox : bool;
  smart_punctuation_checkbox : bool;
  min_word_spinbox : QSpinBox;
  hotkey_input : string;
  app_table : list AppRow;
  typo_table : list TypoRow;
  status_label : string;
  status_indicator : string;
}.

(** Everything outside the window: the disk, the service manager, and the
    record of the dialogs shown and of the commands run so far. *)
Record World : Type := {
  disk : gmap path node;
  service_manager : RunCall -> RunOutcome;
  dialogs : list Dialog;
  spawned : list RunCall;
}.

Record State : Type := {
  win : MainWindow;
  world : World;
}.

(** A method either returns, or raises with the state as it was then. *)
Inductive outcome (A : Type) : Type :=
| Done (a : A) (st : State)
| Raised (e : exn) (st : State).
Arguments Done {A} a st.
Arguments Raised {A} e st.

Definition M (A : Type) : Type := State -> outcome A.

Definition ret {A} (a : A) : M A := fun st => Done a st.

Definition bind {A B} (m : M A) (k : A -> M B) : M B :=
  fun st =>
    match m st with
    | Done a st' => k a st'
    | Raised e st' => Raised e st'
    end.

Definition raise {A} (e : exn) : M A := fun st => Raised e st.

Notation "x <~ c1 ;; c2" := (bind c1 (fun x => c2))
  (at level 100, c1 at next level, right associativity).
Notation "c1 ;;; c2" := (bind c1 (fun _ => c2))
  (at level 100, right associativity).

Definition lift {A} (r : result A) : M A :=
  match r with
  | Ok a => ret a
  | Raise e => raise e
  end.

(** [try: body except <the exceptions handler accepts> as e: handler e] *)
Definition try_except {A} (body : M A) (handler : exn -> option (M A)) : M A :=
  fun st =>
    match body st with
    | Done a st' => Done a st'
    | Raised e st' =>
        match handler e with
        | Some h => h st'
        | None => Raised e st'
        end
    end.

Fixpoint for_each {A} (l : list A) (body : A -> M unit) : M unit :=
  match l with
  | [] => ret tt
  | x :: l' => body x ;;; for_each l' body
  end.

Definition gets {A} (f : MainWindow -> A) : M A := fun st => Done (f (win st)) st.

Definition update (f : MainWindow -> MainWindow) : M unit :=
  fun st => Done tt {| win := f (win st); world := world st |}.

Definition update_world (f : World -> World) : M unit :=
  fun st => Done tt {| win := win st; world := f (world st) |}.

(** Field updates of the window. *)
Definition set_config (x : PyVal) (w : MainWindow) : MainWindow :=
  {| config := x; enabled_checkbox := enabled_checkbox w;
     autocorrect_checkbox := autocorrect_checkbox w;
     smart_punctuation_checkbox := smart_punctuation_checkbox w;
     min_word_spinbox := min_word_spinbox w; hotkey_input := hotkey_input w;
     app_table := app_table w; typo_table := typo_table w;
     status_label := status_label w; status_indicator := status_indicator w |}.

Definition set_enabled_checkbox (x : bool) (w : MainWindow) : MainWindow :=
  {| config := config w; enabled_checkbox := x;
     autocorrect_checkbox := autocorrect_checkbox w;
     smart_punctuation_checkbox := smart_punctuation_checkbox w;
     min_word_spinbox := min_word_spinbox w; hotkey_input := hotkey_input w;
     app_table := app_table w; typo_table := typo_table w;
     status_label := status_label w; status_indicator := status_indicator w |}.

Definition set_autocorrect_checkbox (x : bool) (w : MainWindow) : MainWindow :=
  {| config := config w; enabled_checkbox := enabled_checkbox w;
     autocorrect_checkbox := x;
     smart_punctuation_checkbox := smart_punctuation_checkbox w;
     min_word_spinbox := min_word_spinbox w; hotkey_input := hotkey_input w;
     app_table := app_table w; typo_table := typo_table w;
     status_label := status_label w; status_indicator := status_indicator w |}.

Definition set_smart_punctuation_checkbox (x : bool) (w : MainWindow)
  : MainWindow :=
  {| config := config w; enabled_checkbox := enabled_checkbox w;
     autocorrect_checkbox := autocorrect_checkbox w;
     smart_punctuation_checkbox := x;
     min_word_spinbox := min_word_spinbox w; hotkey_input := hotkey_input w;
     app_table := app_table w; typo_table := typo_table w;
     status_label := status_label w; status_indicator := status_indicator w |}.

Definition set_min_word_spinbox (x : QSpinBox) (w : MainWindow) : MainWindow :=
  {| config := config w; enabled_checkbox := enabled_checkbox w;
     autocorrect_checkbox := autocorrect_checkbox w;
     smart_punctuation_checkbox := smart_punctuation_checkbox w;
     min_word_spinbox := x; hotkey_input := hotkey_input w;
     app_table := app_table w; typo_table := typo_table w;
     status_label := status_label w; status_indicator := status_indicator w |}.

Definition set_hotkey_input (x : string) (w : MainWindow) : MainWindow :=
  {| config := config w; enabled_checkbox := enabled_checkbox w;
     autocorrect_checkbox := autocorrect_checkbox w;
     smart_punctuation_checkbox := smart_punctuation_checkbox w;
     min_word_spinbox := min_word_spinbox w; hotkey_input := x;
     app_table := app_table w; typo_table := typo_table w;
     status_label := status_label w; status_indicator := status_indicator w |}.

Definition set_app_table (x : list AppRow) (w : MainWindow) : MainWindow :=
  {| config := config w; enabled_checkbox := enabled_checkbox w;
     autocorrect_checkbox := autocorrect_checkbox w;
     smart_punctuation_checkbox := smart_punctuation_checkbox w;
     min_word_spinbox := min_word_spinbox w; hotkey_input := hotkey_input w;
     app_table := x; typo_table := typo_table w;
     status_label := status_label w; status_indicator := status_indicator w |}.

Definition set_typo_table (x : list TypoRow) (w : MainWindow) : MainWindow :=
  {| config := config w; enabled_checkbox := enabled_checkbox w;
     autocorrect_checkbox := autocorrect_checkbox w;
     smart_punctuation_checkbox := smart_punctuation_checkbox w;
     min_word_spinbox := min_word_spinbox w; hotkey_input := hotkey_input w;
     app_table := app_table w; typo_table := x;
     status_label := status_label w; status_indicator := status_indicator w |}.

Definition set_status_label (x : string) (w : MainWindow) : MainWindow :=
  {| config := config w; enabled_checkbox := enabled_checkbox w;
     autocorrect_checkbox := autocorrect_checkbox w;
     smart_punctuation_checkbox := smart_punctuation_checkbox w;
     min_word_spinbox := min_word_spinbox w; hotkey_input := hotkey_input w;
     app_table := app_table w; typo_table := typo_table w;
     status_label := x; status_indicator := status_indicator w |}.

Definition set_status_indicator (x : string) (w : MainWindow) : MainWindow :=
  {| config := config w; enabled_checkbox := enabled_checkbox w;
     autocorrect_checkbox := autocorrect_checkbox w;
     smart_punctuation_checkbox := smart_punctuation_checkbox w;
     min_word_spinbox := min_word_spinbox w; hotkey_input := hotkey_input w;
     app_table := app_table w; typo_table := typo_table w;
     status_label := status_label w; status_indicator := x |}.

Definition set_disk (x : gmap path node) (w : World) : World :=
  {| disk := x; service_manager := service_manager w;
     dialogs := dialogs w; spawned := spawned w |}.

Definition add_dialog (x : Dialog) (w : World) : World :=
  {| disk := disk w; service_manager := service_manager w;
     dialogs := dialogs w ++ [x]; spawned := spawned w |}.

Definition add_spawned (x : RunCall) (w : World) : World :=
  {| disk := disk w; service_manager := service_manager w;
     dialogs := dialogs w; spawned := spawned w ++ [x] |}.

(** Cell updates of the two tables; a row out of range is left alone. *)
Definition set_app_item (x : string) (r : AppRow) : AppRow :=
  {| app_item := Some x; enabled_widget := enabled_widget r;
     smart_quotes_widget := smart_quotes_widget r;
     autocorrect_widget := autocorrect_widget r |}.

Definition set_app_widget (col : nat) (x : bool) (r : AppRow) : AppRow :=
  match col with
  | 1%nat => {| app_item := app_item r; enabled_widget := Some x;
                smart_quotes_widget := smart_quotes_widget r;
                autocorrect_widget := autocorrect_widget r |}
  | 2%nat => {| app_item := app_item r; enabled_widget := enabled_widget r;
                smart_quotes_widget := Some x;
                autocorrect_widget := autocorrect_widget r |}
  | 3%nat => {| app_item := app_item r; enabled_widget := enabled_widget r;
                smart_quotes_widget := smart_quotes_widget r;
                autocorrect_widget := Some x |}
  | _ => r
  end.

Definition set_typo_cell (col : nat) (x : string) (r : TypoRow) : TypoRow :=
  match col with
  | 0%nat => {| typo_item := Some x; correction_item := correction_item r |}
  | 1%nat => {| typo_item := typo_item r; correction_item := Some x |}
  | _ => r
  end.

(** ** Operations of Python on the modelled values *)

(** [v.get(k, dflt)] *)
Definition py_get (v : PyVal) (k : string) (dflt : PyVal) : result PyVal :=
  match v with
  | PDict d => Ok (Dict.get k dflt d)
  | _ => Raise AttributeError
  end.

(** [v[k] = x] *)
Definition py_setitem (v : PyVal) (k : string) (x : PyVal) : result PyVal :=
  match v with
  | PDict d => Ok (PDict (Dict.set k x d))
  | _ => Raise TypeError
  end.

(** [len(v)] *)
Definition py_len (v : PyVal) : result nat :=
  match v with
  | PDict d => Ok (Dict.len d)
  | PStr s => Ok (String.length s)
  | _ => Raise TypeError
  end.

(** [v.items()] *)
Definition py_items (v : PyVal) : result (list (string * PyVal)) :=
  match v with
  | PDict d => Ok d
  | _ => Raise AttributeError
  end.

(** [enumerate(l)] *)
Definition enumerate {A} (l : list A) : list (nat * A) :=
  imap (fun i x => (i, x)) l.

(** [item.text()] and [widget.isChecked()] on a cell that may be unset. *)
Definition cell_text (c : option string) : result string :=
  match c with
  | Some s => Ok s
  | None => Raise AttributeError
  end.

Definition cell_isChecked (c : option bool) : result bool :=
  match c with
  | Some b => Ok b
  | None => Raise AttributeError
  end.

Section MainWindow.

Context `{Platform} `{Toolkit}.

(** [str(e)] for a [CalledProcessError]; [cmd] is shown as Python shows a
    list of plain words. *)
Definition repr_words (cmd : list string) : string :=
  "[" +:+ String.concat ", " (map (fun w => "'" +:+ w +:+ "'") cmd) +:+ "]".

Definition str_CalledProcessError (returncode : Z) (cmd : list string)
  : string :=
  if (returncode <? 0)%Z then
    "Command '" +:+ repr_words cmd +:+ "' died with "
      +:+ signal_text (- returncode) +:+ "."
  else
    "Command '" +:+ repr_words cmd +:+ "' returned non-zero exit status "
      +:+ NilZero.string_of_int (Z.to_int returncode) +:+ ".".

(** [subprocess.run(argv, ...)] *)
Definition subprocess_run (call : RunCall) : M CompletedProcess :=
  fun st =>
    let st' := {| win := win st; world := add_spawned call (world st) |} in
    match service_manager (world st) call with
    | SpawnFailed e => Raised e st'
    | Exited rc out err =>
        let o := if capture_output call then Some out else None in
        let e := if capture_output call then Some err else None in
        if check call && negb (rc =? 0)%Z
        then Raised (CalledProcessError rc (argv call) o e) st'
        else Done {| cp_args := argv call; cp_returncode := rc;
                     cp_stdout := o; cp_stderr := e |} st'
    end.

Definition QMessageBox_information (title text : string) : M unit :=
  update_world (add_dialog (Information title text)).

Definition QMessageBox_warning (title text : string) : M unit :=
  update_world (add_dialog (Warning title text)).

Definition systemctl (verb : string) : list string :=
  ["systemctl"; "--user"; verb; "smarttype"].

(** The call made by [update_status]. *)
Definition status_call : RunCall :=
  {| argv := systemctl "is-active"; check := false;
     capture_output := true; text_mode := true; timeout := None |}.

Definition update_status : M unit :=
  try_except
    (result <~ subprocess_run status_call ;;
     let is_active := (cp_returncode result =? 0)%Z in
     if is_active then
       update (set_status_indicator "color: green; font-size: 20px;") ;;;
       update (set_status_label "Status: Active")
     else
       update (set_status_indicator "color: red; font-size: 20px;") ;;;
       update (set_status_label "Status: Inactive"))
    (fun _ =>
       Some (update (set_status_indicator "color: gray; font-size: 20px;") ;;;
             update (set_status_label "Status: Unknown"))).

(** The call made by [start_service], [stop_service] and
    [restart_service]: [subprocess.run([...], check=True)]. *)
Definition service_call (verb : string) : RunCall :=
  {| argv := systemctl verb; check := true; capture_output := false;
     text_mode := false; timeout := None |}.

(** The common shape of the three service methods. *)
Definition service_method (verb title done : string) : M unit :=
  try_except
    (subprocess_run (service_call verb) ;;;
     QMessageBox_information title done ;;;
     update_status)
    (fun e =>
       match e with
       | CalledProcessError rc cmd _ _ =>
           Some (QMessageBox_warning "Error"
                   ("Failed to " +:+ verb +:+ " service: "
                      +:+ str_CalledProcessError rc cmd))
       | _ => None
       end).

Definition start_service : M unit :=
  service_method "start" "Service Started"
    "SmartType service has been started.".

Definition stop_service : M unit :=
  service_method "stop" "Service Stopped"
    "SmartType service has been stopped.".

Definition restart_service : M unit :=
  service_method "restart" "Service Restarted"
    "SmartType service has been restarted.".

(** The state after a service command has failed with exit status [rc]:
    the command is on record and a warning has been shown. *)
Definition failure_reported (verb : string) (rc : Z) (st : State) : State :=
  {| win := win st;
     world :=
       add_dialog
         (Warning "Error"
            ("Failed to " +:+ verb +:+ " service: "
               +:+ str_CalledProcessError rc (systemctl verb)))
         (add_spawned (service_call verb) (world st)) |}.

(** ** Configuration to widgets *)

Definition load_applications_table : M unit :=
  config <~ gets config ;;
  apps <~ lift (py_get config "applications" (PDict [])) ;;
  n <~ lift (py_len apps) ;;
  update (fun w => set_app_table (setRowCount empty_AppRow n (app_table w)) w) ;;;
  items <~ lift (py_items apps) ;;
  for_each (enumerate items)
    (fun '(row, (app_name, app_config)) =>
       update (fun w => set_app_table
                          (alter (set_app_item app_name) row (app_table w)) w) ;;;
       v <~ lift (py_get app_config "enabled" (PBool true)) ;;
       b <~ lift (to_bool v) ;;
       update (fun w => set_app_table
                          (alter (set_app_widget 1 b) row (app_table w)) w) ;;;
       v <~ lift (py_get app_config "smart_quotes" (PBool true)) ;;
       b <~ lift (to_bool v) ;;
       update (fun w => set_app_table
                          (alter (set_app_widget 2 b) row (app_table w)) w) ;;;
       v <~ lift (py_get app_config "autocorrect" (PBool true)) ;;
       b <~ lift (to_bool v) ;;
       update (fun w => set_app_table
                          (alter (set_app_widget 3 b) row (app_table w)) w)).

Definition load_typos_table : M unit :=
  config <~ gets config ;;
  typos <~ lift (py_get config "custom_typos" (PDict [])) ;;
  n <~ lift (py_len typos) ;;
  update (fun w => set_typo_table
                     (setRowCount empty_TypoRow n (typo_table w)) w) ;;;
  items <~ lift (py_items typos) ;;
  for_each (enumerate items)
    (fun '(row, (typo, correction)) =>
       update (fun w => set_typo_table
                          (alter (set_typo_cell 0 typo) row (typo_table w)) w) ;;;
       s <~ lift (to_item_text correction) ;;
       update (fun w => set_typo_table
                          (alter (set_typo_cell 1 s) row (typo_table w)) w)).

Definition load_settings : M unit :=
  config <~ gets config ;;
  v <~ lift (py_get config "enabled" (PBool true)) ;;
  b <~ lift (to_bool v) ;;
  update (set_enabled_checkbox b) ;;;
  v <~ lift (py_get config "autocorrect" (PBool true)) ;;
  b <~ lift (to_bool v) ;;
  update (set_autocorrect_checkbox b) ;;;
  v <~ lift (py_get config "smart_punctuation" (PBool true)) ;;
  b <~ lift (to_bool v) ;;
  update (set_smart_punctuation_checkbox b) ;;;
  v <~ lift (py_get config "min_word_length" (PInt 2)) ;;
  z <~ lift (to_int v) ;;
  update (fun w => set_min_word_spinbox (setValue z (min_word_spinbox w)) w) ;;;
  v <~ lift (py_get config "hotkey" (PStr "Super+Shift+A")) ;;
  s <~ lift (to_text v) ;;
  update (set_hotkey_input s) ;;;
  load_applications_table ;;;
  load_typos_table.

(** ** Widgets to configuration *)

(** [config[k] = v] on the configuration object of the manager. *)
Definition setitem (k : string) (v : PyVal) : M unit :=
  config <~ gets config ;;
  config' <~ lift (py_setitem config k v) ;;
  update (set_config config').

(** The loop over the rows of the applications table. *)
Fixpoint read_apps (rows : list AppRow) (apps : Dict.t) : result Dict.t :=
  match rows with
  | [] => Ok apps
  | r :: rows' =>
      app_name <- cell_text (app_item r) ;;
      enabled <- cell_isChecked (enabled_widget r) ;;
      smart_quotes <- cell_isChecked (smart_quotes_widget r) ;;
      autocorrect <- cell_isChecked (autocorrect_widget r) ;;
      read_apps rows'
        (Dict.set app_name
           (PDict [("enabled", PBool enabled);
                   ("smart_quotes", PBool smart_quotes);
                   ("autocorrect", PBool autocorrect)])
           apps)
  end.

(** The loop over the rows of the custom typos table. *)
Fixpoint read_typos (rows : list TypoRow) (typos : Dict.t) : result Dict.t :=
  match rows with
  | [] => Ok typos
  | r :: rows' =>
      typo <- cell_text (typo_item r) ;;
      correction <- cell_text (correction_item r) ;;
      read_typos rows' (Dict.set typo (PStr correction) typos)
  end.

(** [self.config_manager.save_config()] *)
Definition config_manager_save_config : M unit :=
  fun st =>
    match save_config (config (win st)) (disk (world st)) with
    | Written fs' =>
        Done tt {| win := win st; world := set_disk fs' (world st) |}
    | Failed e fs' =>
        Raised e {| win := win st; world := set_disk fs' (world st) |}
    end.

Definition save_configuration : M unit :=
  b <~ gets enabled_checkbox ;;
  setitem "enabled" (PBool b) ;;;
  b <~ gets autocorrect_checkbox ;;
  setitem "autocorrect" (PBool b) ;;;
  b <~ gets smart_punctuation_checkbox ;;
  setitem "smart_punctuation" (PBool b) ;;;
  sb <~ gets min_word_spinbox ;;
  setitem "min_word_length" (PInt (value sb)) ;;;
  s <~ gets hotkey_input ;;
  setitem "hotkey" (PStr s) ;;;
  rows <~ gets app_table ;;
  apps <~ lift (read_apps rows []) ;;
  setitem "applications" (PDict apps) ;;;
  rows <~ gets typo_table ;;
  typos <~ lift (read_typos rows []) ;;
  setitem "custom_typos" (PDict typos) ;;;
  config_manager_save_config ;;;
  QMessageBox_information "Configuration Saved"
    "Configuration has been saved successfully." ;;;
  restart_service.

Definition toggle_smarttype : M unit :=
  b <~ gets enabled_checkbox ;;
  update (set_enabled_checkbox (negb b)) ;;;
  save_configuration.

(** ** Editing the tables *)

Definition nonempty (s : string) : bool :=
  match s with
  | EmptyString => false
  | _ => true
  end.

(** [app_name, ok] is what the input dialog returned. *)
Definition add_application (app_name : string) (ok : bool) : M unit :=
  if ok && nonempty app_name then
    row <~ gets (fun w => length (app_table w)) ;;
    update (fun w => set_app_table
                       (insertRow empty_AppRow row (app_table w)) w) ;;;
    update (fun w => set_app_table
                       (alter (set_app_item app_name) row (app_table w)) w) ;;;
    for_each [1; 2; 3]%nat
      (fun col =>
         update (fun w => set_app_table
                            (alter (set_app_widget col true) row
                                   (app_table w)) w))
  else ret tt.

(** [current_row] is the selected row, [-1] when there is none. *)
Definition remove_application (current_row : Z) : M unit :=
  if (0 <=? current_row)%Z then
    update (fun w => set_app_table
                       (removeRow (Z.to_nat current_row) (app_table w)) w)
  else ret tt.

Definition add_typo (typo : string) (ok1 : bool)
    (correction : string) (ok2 : bool) : M unit :=
  if ok1 && nonempty typo then
    if ok2 && nonempty correction then
      row <~ gets (fun w => length (typo_table w)) ;;
      update (fun w => set_typo_table
                         (insertRow empty_TypoRow row (typo_table w)) w) ;;;
      update (fun w => set_typo_table
                         (alter (set_typo_cell 0 typo) row (typo_table w)) w) ;;;
      update (fun w => set_typo_table
                         (alter (set_typo_cell 1 correction) row
                                (typo_table w)) w)
    else ret tt
  else ret tt.

Definition remove_typo (current_row : Z) : M unit :=
  if (0 <=? current_row)%Z then
    update (fun w => set_typo_table
                       (removeRow (Z.to_nat current_row) (typo_table w)) w)
  else ret tt.

Definition refresh_statistics : M unit :=
  QMessageBox_information "Statistics"
    "Statistics updated (feature in development)".

(** ** Construction *)

(** The widgets as [init_ui] leaves them, around a given configuration. *)
Definition init_ui (config : PyVal) : MainWindow :=
  {| config := config;
     enabled_checkbox := false;
     autocorrect_checkbox := false;
     smart_punctuation_checkbox := false;
     min_word_spinbox := setMaximum 10 (setMinimum 1 new_QSpinBox);
     hotkey_input := EmptyString;
     app_table := [];
     typo_table := [];
     status_label := "Status: ";
     status_indicator := "color: green; font-size: 20px;" |}.

(** [MainWindow()]: the configuration is loaded, the widgets are built and
    filled from it. *)
Definition MainWindow_init (w : World) : outcome unit :=
  match load_config (disk w) with
  | Raise e => Raised e {| win := init_ui PNone; world := w |}
  | Ok config => load_settings {| win := init_ui config; world := w |}
  end.

End MainWindow.

(** ** The window as a state machine *)

(** What the user can do to the window: press a button (with the answers
    given to the dialogs that the button opens) or edit a widget in place. *)
Inductive Event : Type :=
| ClickSave
| ClickCancel
| ClickStart
| ClickStop
| ClickRestart
| ClickRefresh
| TrayToggle
| ClickAddApplication (app_name : string) (ok : bool)
| ClickRemoveApplication (current_row : Z)
| ClickAddTypo (typo : string) (ok1 : bool) (correction : string) (ok2 : bool)
| ClickRemoveTypo (current_row : Z)
| CheckEnabled (b : bool)
| CheckAutocorrect (b : bool)
| CheckSmartPunctuation (b : bool)
| SpinMinWord (z : Z)
| TypeHotkey (s : string)
| EditAppName (row : nat) (s : string)
| CheckAppCell (row col : nat) (b : bool)
| EditTypoCell (row col : nat) (s : string).

Section Dispatch.

Context `{Platform} `{Toolkit}.

Definition dispatch (ev : Event) : M unit :=
  match ev with
  | ClickSave => save_configuration
  | ClickCancel => load_settings
  | ClickStart => start_service
  | ClickStop => stop_service
  | ClickRestart => restart_service
  | ClickRefresh => refresh_statistics
  | TrayToggle => toggle_smarttype
  | ClickAddApplication app_name ok => add_application app_name ok
  | ClickRemoveApplication current_row => remove_application current_row
  | ClickAddTypo typo ok1 correction ok2 => add_typo typo ok1 correction ok2
  | ClickRemoveTypo current_row => remove_typo current_row
  | CheckEnabled b => update (set_enabled_checkbox b)
  | CheckAutocorrect b => update (set_autocorrect_checkbox b)
  | CheckSmartPunctuation b => update (set_smart_punctuation_checkbox b)
  | SpinMinWord z =>
      update (fun w => set_min_word_spinbox (setValue z (min_word_spinbox w)) w)
  | TypeHotkey s => update (set_hotkey_input s)
  | EditAppName row s =>
      update (fun w => set_app_table
                         (alter (set_app_item s) row (app_table w)) w)
  | CheckAppCell row col b =>
      update (fun w => set_app_table
                         (alter (set_app_widget col b) row (app_table w)) w)
  | EditTypoCell row col s =>
      update (fun w => set_typo_table
                         (alter (set_typo_cell col s) row (typo_table w)) w)
  end.

(** The states the window can be in: after construction, after an event
    whose handler returned, and after the world around it has changed. *)
Inductive reachable : State -> Prop :=
| reachable_init w st :
    MainWindow_init w = Done tt st -> reachable st
| reachable_event st ev st' :
    reachable st -> dispatch ev st = Done tt st' -> reachable st'
| reachable_world st w :
    reachable st -> reachable {| win := win st; world := w |}.

End Dispatch.

(** * A reference YAML codec *)

(** A concrete [Platform] for evaluating the program on actual file contents.
    It implements the block-style subset of YAML that PyYAML's [dump] emits
    for documents of the Settings shape: mappings nested by two-space
    indentation with keys in sorted order, the scalars [null], [true],
    [false], decimal integers, plain strings and single-quoted strings, and
    the empty mapping [{}].  Text outside this subset is answered with a
    [YAMLError]; strings are quoted whenever they are not made of letters,
    digits, [_ + - .] and inner spaces after a leading letter. *)
Module RefYaml.

Definition chars := list ascii.

Definition code (c : ascii) : N := N_of_ascii c.

Definition is_digit (c : ascii) : bool :=
  (48 <=? code c)%N && (code c <=? 57)%N.

Definition is_letter (c : ascii) : bool :=
  ((65 <=? code c)%N && (code c <=? 90)%N)
  || ((97 <=? code c)%N && (code c <=? 122)%N).

Definition is_space (c : ascii) : bool := (code c =? 32)%N.

Definition one_of (set : string) (c : ascii) : bool :=
  existsb (Ascii.eqb c) (list_ascii_of_string set).

Definition is_plain_char (c : ascii) : bool :=
  is_letter c || is_digit c || one_of "_+-. " c.

Definition chars_eqb (a b : chars) : bool :=
  String.eqb (string_of_list_ascii a) (string_of_list_ascii b).

Definition word_in (words : list string) (s : chars) : bool :=
  existsb (String.eqb (string_of_list_ascii s)) words.

Definition true_words : list string :=
  ["yes"; "Yes"; "YES"; "true"; "True"; "TRUE"; "on"; "On"; "ON"].
Definition false_words : list string :=
  ["no"; "No"; "NO"; "false"; "False"; "FALSE"; "off"; "Off"; "OFF"].
Definition null_words : list string := ["~"; "null"; "Null"; "NULL"].

Definition ends_with_space (s : chars) : bool :=
  match rev s with
  | c :: _ => is_space c
  | [] => false
  end.

(** Strings that are written, and read back, without quotes. *)
Definition plain_ok (s : chars) : bool :=
  match s with
  | c :: _ =>
      is_letter c && forallb is_plain_char s && negb (ends_with_space s)
      && negb (word_in (true_words ++ false_words ++ null_words) s)
  | [] => false
  end.

(** ** Emitting *)

Definition quote : ascii := "'"%char.

Definition single_quoted (s : chars) : chars :=
  quote :: flat_map (fun c => if Ascii.eqb c quote then [quote; quote] else [c]) s
    ++ [quote].

Definition str_text (s : string) : chars :=
  let cs := list_ascii_of_string s in
  if plain_ok cs then cs else single_quoted cs.

Definition scalar_text (v : PyVal) : chars :=
  match v with
  | PNone => list_ascii_of_string "null"
  | PBool true => list_ascii_of_string "true"
  | PBool false => list_ascii_of_string "false"
  | PInt z => list_ascii_of_string (NilZero.string_of_int (Z.to_int z))
  | PStr s => str_text s
  | PDict _ => list_ascii_of_string "{}"
  end.

Definition spaces (n : nat) : chars := repeat " "%char n.

Fixpoint insert_block (b : string * list chars)
    (l : list (string * list chars)) : list (string * list chars) :=
  match l with
  | [] => [b]
  | b' :: l' =>
      if String.leb (fst b) (fst b') then b :: l else b' :: insert_block b l'
  end.

Definition sort_blocks (l : list (string * list chars))
  : list (string * list chars) :=
  fold_right insert_block [] l.

(** The lines of a mapping at indentation [ind], keys sorted. *)
Fixpoint dump_lines (ind : nat) (v : PyVal) {struct v} : list chars :=
  match v with
  | PDict d =>
      let blocks :=
        (fix go (d : list (string * PyVal)) : list (string * list chars) :=
           match d with
           | [] => []
           | (k, x) :: d' =>
               (k, match x with
                   | PDict (_ :: _) =>
                       (spaces ind ++ str_text k ++ [":"%char])
                         :: dump_lines (ind + 2) x
                   | _ =>
                       [spaces ind ++ str_text k ++ [":"%char; " "%char]
                          ++ scalar_text x]
                   end) :: go d'
           end) d in
      flat_map snd (sort_blocks blocks)
  | _ => []
  end.

Definition newline : ascii := ascii_of_nat 10.

Definition unlines (ls : list chars) : chars :=
  flat_map (fun l => l ++ [newline]) ls.

Definition dump (v : PyVal) : string :=
  string_of_list_ascii
    match v with
    | PDict (_ :: _) => unlines (dump_lines 0 v)
    | PDict [] => unlines [scalar_text v]
    | PStr s =>
        if plain_ok (list_ascii_of_string s)
        then unlines [scalar_text v; list_ascii_of_string "..."]
        else unlines [scalar_text v]
    | _ => unlines [scalar_text v; list_ascii_of_string "..."]
    end.

(** ** Loading *)

Definition syntax_error {A} (msg : string) : result A :=
  Raise (YAMLError msg).

Fixpoint split_lines (s : chars) (cur : chars) : list chars :=
  match s with
  | [] => match cur with [] => [] | _ => [rev cur] end
  | c :: s' =>
      if Ascii.eqb c newline then rev cur :: split_lines s' []
      else split_lines s' (c :: cur)
  end.

Fixpoint lstrip (s : chars) : chars :=
  match s with
  | c :: s' => if is_space c then lstrip s' else s
  | [] => []
  end.

Definition rstrip (s : chars) : chars := rev (lstrip (rev s)).

Fixpoint indent_of (s : chars) : nat :=
  match s with
  | c :: s' => if is_space c then S (indent_of s') else O
  | [] => O
  end.

(** The text after an opening quote: the string and what follows the
    closing quote. *)
Fixpoint read_quoted (s : chars) (acc : chars) : result (chars * chars) :=
  match s with
  | [] => syntax_error "found unexpected end of stream in a quoted scalar"
  | c :: s' =>
      if Ascii.eqb c quote then
        match s' with
        | c' :: s'' =>
            if Ascii.eqb c' quote then read_quoted s'' (c' :: acc)
            else Ok (rev acc, s')
        | [] => Ok (rev acc, [])
        end
      else read_quoted s' (c :: acc)
  end.

Fixpoint digits_value (s : chars) (acc : Z) : option Z :=
  match s with
  | [] => Some acc
  | c :: s' =>
      if is_digit c
      then digits_value s' (acc * 10 + (Z.of_N (code c) - 48))
      else None
  end.

Definition unsigned_value (s : chars) : option Z :=
  match s with
  | [] => None
  | [c] => digits_value s 0
  | c :: _ => if Ascii.eqb c "0"%char then None else digits_value s 0
  end.

Definition int_value (s : chars) : option Z :=
  match s with
  | c :: s' =>
      if Ascii.eqb c "-"%char then Z.opp <$> unsigned_value s'
      else if Ascii.eqb c "+"%char then unsigned_value s'
      else unsigned_value s
  | [] => None
  end.

(** Implicit resolution of a plain scalar. *)
Definition resolve (s : chars) : result PyVal :=
  if word_in true_words s then Ok (PBool true)
  else if word_in false_words s then Ok (PBool false)
  else if word_in null_words s then Ok PNone
  else match int_value s with
       | Some z => Ok (PInt z)
       | None =>
           if plain_ok s then Ok (PStr (string_of_list_ascii s))
           else syntax_error "scalar outside the supported subset"
       end.

Definition parse_scalar (s : chars) : result PyVal :=
  match s with
  | [] => Ok PNone
  | c :: s' =>
      if Ascii.eqb c quote then
        r <- read_quoted s' [] ;;
        match lstrip (snd r) with
        | [] => Ok (PStr (string_of_list_ascii (fst r)))
        | _ => syntax_error "expected the end of the line after a quoted scalar"
        end
      else if chars_eqb s (list_ascii_of_string "{}") then Ok (PDict [])
      else resolve s
  end.

(** Splits [key: value] at the first colon followed by a space or by the
    end of the line. *)
Fixpoint find_colon (s : chars) (acc : chars) : option (chars * chars) :=
  match s with
  | [] => None
  | c :: s' =>
      if Ascii.eqb c ":"%char then
        match s' with
        | [] => Some (rev acc, [])
        | c' :: _ =>
            if is_space c' then Some (rev acc, lstrip s')
            else find_colon s' (c :: acc)
        end
      else find_colon s' (c :: acc)
  end.

Inductive line : Type :=
| Blank
| DocumentEnd
| Entry (indent : nat) (key : string) (value : chars)
| Bare (indent : nat) (text : chars).

Definition classify (l : chars) : result line :=
  let ind := indent_of l in
  let body := rstrip (lstrip l) in
  match body with
  | [] => Ok Blank
  | c :: body' =>
      if Ascii.eqb c "#"%char then Ok Blank
      else if chars_eqb body (list_ascii_of_string "...") then Ok DocumentEnd
      else if Ascii.eqb c quote then
        r <- read_quoted body' [] ;;
        match snd r with
        | [] => Ok (Bare ind body)
        | c' :: rest =>
            if Ascii.eqb c' ":"%char then
              match rest with
              | [] => Ok (Entry ind (string_of_list_ascii (fst r)) [])
              | c'' :: _ =>
                  if is_space c''
                  then Ok (Entry ind (string_of_list_ascii (fst r)) (lstrip rest))
                  else syntax_error "expected a mapping value"
              end
            else syntax_error "expected the end of the line after a quoted scalar"
        end
      else
        match find_colon body [] with
        | Some (k, v) =>
            if plain_ok k then Ok (Entry ind (string_of_list_ascii k) v)
            else syntax_error "mapping key outside the supported subset"
        | None => Ok (Bare ind body)
        end
  end.

Fixpoint classify_all (ls : list chars) : result (list line) :=
  match ls with
  | [] => Ok []
  | l :: ls' =>
      x <- classify l ;;
      xs <- classify_all ls' ;;
      Ok (match x with Blank => xs | _ => x :: xs end)
  end.

(** The entries of one block mapping at indentation [ind]; a later
    duplicate of a key replaces the earlier value, as in [safe_load]. *)
Fixpoint parse_entries (fuel : nat) (ind : nat) (ls : list line)
    (acc : list (string * PyVal))
  : result (list (string * PyVal) * list line) :=
  match fuel with
  | O => syntax_error "document too deep"
  | S fuel' =>
      match ls with
      | Entry i k v :: rest =>
          if (i <? ind)%nat then Ok (acc, ls)
          else if (ind <? i)%nat then syntax_error "bad indentation of a mapping entry"
          else
            match v with
            | [] =>
                match rest with
                | Entry i' _ _ :: _ =>
                    if (ind <? i')%nat then
                      sub <- parse_entries fuel' i' rest [] ;;
                      parse_entries fuel' ind (snd sub)
                        (Dict.set k (PDict (fst sub)) acc)
                    else parse_entries fuel' ind rest (Dict.set k PNone acc)
                | _ => parse_entries fuel' ind rest (Dict.set k PNone acc)
                end
            | _ =>
                x <- parse_scalar v ;;
                parse_entries fuel' ind rest (Dict.set k x acc)
            end
      | _ => Ok (acc, ls)
      end
  end.

Definition parse_document (ls : list line) : result PyVal :=
  match ls with
  | [] => Ok PNone
  | [DocumentEnd] => Ok PNone
  | [Bare _ text] => parse_scalar text
  | [Bare _ text; DocumentEnd] => parse_scalar text
  | Entry i _ _ :: _ =>
      r <- parse_entries (S (length ls)) i ls [] ;;
      match snd r with
      | [] => Ok (PDict (fst r))
      | [DocumentEnd] => Ok (PDict (fst r))
      | _ => syntax_error "expected a block mapping entry"
      end
  | _ => syntax_error "document outside the supported subset"
  end.

Definition safe_load (text : string) : result PyVal :=
  ls <- classify_all (split_lines (list_ascii_of_string text) []) ;;
  parse_document ls.

End RefYaml.

(** The names of the signals 1 to 31 on Linux. *)
Definition linux_signals : list string :=
  ["SIGHUP"; "SIGINT"; "SIGQUIT"; "SIGILL"; "SIGTRAP"; "SIGABRT"; "SIGBUS";
   "SIGFPE"; "SIGKILL"; "SIGUSR1"; "SIGSEGV"; "SIGUSR2"; "SIGPIPE";
   "SIGALRM"; "SIGTERM"; "SIGSTKFLT"; "SIGCHLD"; "SIGCONT"; "SIGSTOP";
   "SIGTSTP"; "SIGTTIN"; "SIGTTOU"; "SIGURG"; "SIGXCPU"; "SIGXFSZ";
   "SIGVTALRM"; "SIGPROF"; "SIGWINCH"; "SIGIO"; "SIGPWR"; "SIGSYS"].

Definition linux_signal_text (n : Z) : string :=
  let num := NilZero.string_of_int (Z.to_int n) in
  match linux_signals !! Z.to_nat (n - 1) with
  | Some name => "<Signals." +:+ name +:+ ": " +:+ num +:+ ">"
  | None => "unknown signal " +:+ num
  end.

#[export] Instance ref_platform : Platform := {|
  home := ["home"; "user"];
  safe_load := RefYaml.safe_load;
  dump := RefYaml.dump;
  signal_text := linux_signal_text;
|}.

(** A toolkit that accepts exactly the arguments of the expected type (a
    [bool] also where an [int] is expected, as in Python) and answers
    anything else with [TypeError]. *)
Definition strict_to_bool (v : PyVal) : result bool :=
  match v with
  | PBool b => Ok b
  | _ => Raise TypeError
  end.

Definition strict_to_int (v : PyVal) : result Z :=
  match v with
  | PInt z =>
      if (- 2 ^ 31 <=? z)%Z && (z <? 2 ^ 31)%Z then Ok z
      else Raise OverflowError
  | PBool b => Ok (if b then 1 else 0)
  | _ => Raise TypeError
  end.

Definition strict_to_text (v : PyVal) : result string :=
  match v with
  | PStr s => Ok s
  | _ => Raise TypeError
  end.

#[export, refine] Instance ref_toolkit : Toolkit := {|
  to_bool := strict_to_bool;
  to_int := strict_to_int;
  to_text := strict_to_text;
  to_item_text := strict_to_text;
|}.
Proof.
  - reflexivity.
  - intros z [Hlo Hhi]. unfold strict_to_int.
    destruct (Z.leb_spec (- 2 ^ 31) z); [|lia].
    destruct (Z.ltb_spec z (2 ^ 31)); [reflexivity|lia].
  - reflexivity.
  - reflexivity.
Defined.

(** * Concrete worlds *)

(** The text that has reached the disk after [k] characters of [text]. *)
Definition text_prefix (k : nat) (text : string) : string :=
  string_of_list_ascii (take k (list_ascii_of_string text)).

(** Whether every directory on the way to [pre ++ rest] exists. *)
Fixpoint dirs_from (pre rest : path) (fs : gmap path node) : bool :=
  match rest with
  | [] => true
  | c :: rest' =>
      match fs !! (pre ++ [c]) with
      | Some Dir => dirs_from (pre ++ [c]) rest' fs
      | _ => false
      end
  end.

(** The home directory of the reference platform with an empty
    configuration directory, and with a configuration file in it. *)
Definition empty_home : gmap path node :=
  <[["home"; "user"; ".config"; "smarttype"] := Dir]>
    (<[["home"; "user"; ".config"] := Dir]>
       (<[["home"; "user"] := Dir]> (<[["home"] := Dir]> ∅))).

Definition home_with_config (content : string) : gmap path node :=
  <[["home"; "user"; ".config"; "smarttype"; "config.yaml"] := File content]>
    empty_home.

(** A well-formed configuration text, and one that ends inside a quoted
    scalar. *)
Definition valid_config_text : string :=
  "enabled: true
min_word_length: 3
".

Definition broken_config_text : string := "enabled: 'true".

(** A file with one key only, one with a minimum word length out of range,
    and one with a key outside the Settings schema. *)
Definition only_enabled_text : string :=
  "enabled: false
".

Definition big_min_word_text : string :=
  "min_word_length: 50
".

Definition themed_config_text : string :=
  "enabled: false
theme: dark
".

(** A service manager that answers every command in the same way. *)
Definition manager_answering (o : RunOutcome) : RunCall -> RunOutcome :=
  fun _ => o.

Definition world_of (fs : gmap path node) (o : RunOutcome) : World :=
  {| disk := fs; service_manager := manager_answering o;
     dialogs := []; spawned := [] |}.

(** Whether [needle] occurs in [text]. *)
Fixpoint occurs_in (needle text : string) : bool :=
  String.prefix needle text
  || match text with
     | EmptyString => false
     | String _ text' => occurs_in needle text'
     end.

(** The keys of the Settings schema, those [save_configuration] assigns. *)
Definition known_keys : list string :=
  ["enabled"; "autocorrect"; "smart_punctuation"; "min_word_length";
   "hotkey"; "applications"; "custom_typos"].

Definition is_known_key (k : string) : bool :=
  existsb (String.eqb k) known_keys.

(** The top-level entry [k] of a configuration, when it is a mapping. *)
Definition config_lookup (k : string) (v : PyVal) : option PyVal :=
  match v with
  | PDict d => Dict.lookup k d
  | _ => None
  end.

(** A table row with every cell set, as the user sees it. *)
Definition typo_row (entry : string * string) : TypoRow :=
  {| typo_item := Some (fst entry); correction_item := Some (snd entry) |}.

(** The mapping that the loop of [save_configuration] builds from the rows
    of the typo table, starting from [acc]. *)
Definition typos_of (entries : list (string * string)) (acc : Dict.t)
  : Dict.t :=
  fold_left (fun d e => Dict.set (fst e) (PStr (snd e)) d) entries acc.

Definition dialog_text (d : Dialog) : string :=
  match d with
  | Information _ text => text
  | Warning _ text => text
  end.

(** The state in which a method leaves the window, however it ends. *)
Definition state_after {A} (m : M A) (st : State) : State :=
  match m st with
  | Done _ st' => st'
  | Raised _ st' => st'
  end.

(** The window just constructed in the world [w]. *)
Definition state_after_init (w : World) : State :=
  match MainWindow_init w with
  | Done _ st => st
  | Raised _ st => st
  end.

(** The range the spin box is given by [create_general_tab]. *)
Definition spin_in_range (sb : QSpinBox) : Prop :=
  minimum sb = 1 /\ maximum sb = 10 /\ 1 <= value sb <= 10.

(** The window with the default configuration in which the user has added
    the typo [teh] twice, first corrected to [the], then to [then]. *)
Definition state_with_duplicate_typo : State :=
  state_after (add_typo "teh" true "then" true)
    (state_after (add_typo "teh" true "the" true)
       (state_after_init
          (world_of empty_home (Exited 0 EmptyString EmptyString)))).

(** A window whose service manager fails every command with exit status 5
    and a diagnostic on its standard error. *)
Definition state_with_failing_service : State :=
  {| win := init_ui default_config;
     world := world_of empty_home
                (Exited 5 EmptyString "Unit smarttype.service not found.") |}.

(** The window built from a file that has the key [theme], which is not
    part of the Settings schema. *)
Definition state_with_theme : State :=
  state_after_init
    (world_of (home_with_config themed_config_text)
              (Exited 0 EmptyString EmptyString)).

(** * Further notions *)

(** ** The disk *)

(** The disk as a sequence of effects leaves it. *)
Definition io_disk (r : io_result) : gmap path node :=
  match r with
  | Written fs => fs
  | Failed _ fs => fs
  end.

(** Whether a regular file stands where [mkdir] needs a directory on the
    way to [pre ++ rest]. *)
Fixpoint file_in_the_way (pre rest : path) (fs : gmap path node) : bool :=
  match rest with
  | [] => false
  | c :: rest' =>
      match fs !! (pre ++ [c]) with
      | Some (File _) => true
      | _ => file_in_the_way (pre ++ [c]) rest' fs
      end
  end.

(** A home directory in which [.config] is a regular file. *)
Definition blocked_home : gmap path node :=
  <[["home"; "user"; ".config"] := File "not a directory"]>
    (<[["home"; "user"] := Dir]> (<[["home"] := Dir]> ∅)).

(** ** The rows of the tables *)

Section TableRows.

Context `{Toolkit}.

(** The row that the loop of [load_applications_table] builds for one entry
    of [applications]. *)
Definition app_row_for (app_name : string) (app_config : PyVal)
  : result AppRow :=
  v <- py_get app_config "enabled" (PBool true) ;;
  enabled <- to_bool v ;;
  v <- py_get app_config "smart_quotes" (PBool true) ;;
  smart_quotes <- to_bool v ;;
  v <- py_get app_config "autocorrect" (PBool true) ;;
  autocorrect <- to_bool v ;;
  Ok {| app_item := Some app_name; enabled_widget := Some enabled;
        smart_quotes_widget := Some smart_quotes;
        autocorrect_widget := Some autocorrect |}.

Fixpoint app_rows (items : list (string * PyVal)) : result (list AppRow) :=
  match items with
  | [] => Ok []
  | (app_name, app_config) :: items' =>
      r <- app_row_for app_name app_config ;;
      rows <- app_rows items' ;;
      Ok (r :: rows)
  end.

(** The rows that the loop of [load_typos_table] builds. *)
Fixpoint typo_rows (items : list (string * PyVal)) : result (list TypoRow) :=
  match items with
  | [] => Ok []
  | (typo, correction) :: items' =>
      s <- to_item_text correction ;;
      rows <- typo_rows items' ;;
      Ok ({| typo_item := Some typo; correction_item := Some s |} :: rows)
  end.

(** The bodies of the two loops, as [load_typos_table] and
    [load_applications_table] have them. *)
Definition typo_loop_body : nat * (string * PyVal) -> M unit :=
  fun '(row, (typo, correction)) =>
    update (fun w => set_typo_table
                       (alter (set_typo_cell 0 typo) row (typo_table w)) w) ;;;
    s <~ lift (to_item_text correction) ;;
    update (fun w => set_typo_table
                       (alter (set_typo_cell 1 s) row (typo_table w)) w).

Definition app_loop_body : nat * (string * PyVal) -> M unit :=
  fun '(row, (app_name, app_config)) =>
    update (fun w => set_app_table
                       (alter (set_app_item app_name) row (app_table w)) w) ;;;
    v <~ lift (py_get app_config "enabled" (PBool true)) ;;
    b <~ lift (to_bool v) ;;
    update (fun w => set_app_table
                       (alter (set_app_widget 1 b) row (app_table w)) w) ;;;
    v <~ lift (py_get app_config "smart_quotes" (PBool true)) ;;
    b <~ lift (to_bool v) ;;
    update (fun w => set_app_table
                       (alter (set_app_widget 2 b) row (app_table w)) w) ;;;
    v <~ lift (py_get app_config "autocorrect" (PBool true)) ;;
    b <~ lift (to_bool v) ;;
    update (fun w => set_app_table
                       (alter (set_app_widget 3 b) row (app_table w)) w).

End TableRows.

(** A row of which every cell has been set. *)
Definition app_row_complete (r : AppRow) : bool :=
  match app_item r, enabled_widget r, smart_quotes_widget r,
        autocorrect_widget r with
  | Some _, Some _, Some _, Some _ => true
  | _, _, _, _ => false
  end.

Definition typo_row_complete (r : TypoRow) : bool :=
  match typo_item r, correction_item r with
  | Some _, Some _ => true
  | _, _ => false
  end.

(** An entry of [custom_typos] as the configuration holds it. *)
Definition typo_entry (e : string * string) : string * PyVal :=
  (fst e, PStr (snd e)).

(** An entry of [applications] as the configuration holds it, the value
    that a flag of it shows in the table (a missing flag shows as set),
    whether its flags are booleans where present, and the row of the table
    for it. *)
Definition app_entry (e : string * Dict.t) : string * PyVal :=
  (fst e, PDict (snd e)).

Definition flag_shown (k : string) (a : Dict.t) : bool :=
  match Dict.lookup k a with
  | Some (PBool b) => b
  | _ => true
  end.

Definition flag_ok (k : string) (a : Dict.t) : bool :=
  match Dict.lookup k a with
  | Some (PBool _) | None => true
  | Some _ => false
  end.

Definition flags_ok (e : string * Dict.t) : bool :=
  flag_ok "enabled" (snd e) && flag_ok "smart_quotes" (snd e)
  && flag_ok "autocorrect" (snd e).

Definition shown_app_row (e : string * Dict.t) : AppRow :=
  {| app_item := Some (fst e);
     enabled_widget := Some (flag_shown "enabled" (snd e));
     smart_quotes_widget := Some (flag_shown "smart_quotes" (snd e));
     autocorrect_widget := Some (flag_shown "autocorrect" (snd e)) |}.

(** The three flags that [save_configuration] writes for an application. *)
Definition app_flags (enabled smart_quotes autocorrect : bool) : PyVal :=
  PDict [("enabled", PBool enabled); ("smart_quotes", PBool smart_quotes);
         ("autocorrect", PBool autocorrect)].

(** ** The window *)

Definition is_mapping (v : PyVal) : bool :=
  match v with
  | PDict _ => true
  | _ => false
  end.

(** The window holds a mapping as its configuration and no table has a
    cell that was never set. *)
Definition window_ok (w : MainWindow) : Prop :=
  is_mapping (config w) = true
  /\ Forall (fun r => app_row_complete r = true) (app_table w)
  /\ Forall (fun r => typo_row_complete r = true) (typo_table w).

(** The widgets of the settings, those [load_settings] fills. *)
Definition settings_widgets (w : MainWindow) :=
  (enabled_checkbox w, autocorrect_checkbox w, smart_punctuation_checkbox w,
   min_word_spinbox w, hotkey_input w, app_table w, typo_table w).

(** The mapping after the seven assignments of [save_configuration], in the
    order in which the method makes them. *)
Definition config_from_widgets (w : MainWindow) (apps typos d : Dict.t)
  : Dict.t :=
  Dict.set "custom_typos" (PDict typos)
    (Dict.set "applications" (PDict apps)
       (Dict.set "hotkey" (PStr (hotkey_input w))
          (Dict.set "min_word_length" (PInt (value (min_word_spinbox w)))
             (Dict.set "smart_punctuation"
                (PBool (smart_punctuation_checkbox w))
                (Dict.set "autocorrect" (PBool (autocorrect_checkbox w))
                   (Dict.set "enabled" (PBool (enabled_checkbox w)) d)))))).

(** The dialog that [save_configuration] shows once the file is written. *)
Definition saved_dialog : Dialog :=
  Information "Configuration Saved"
    "Configuration has been saved successfully.".

(** ** The service *)

(** The style of the indicator and the text of the label that
    [update_status] shows for an answer of the service manager. *)
Definition status_shown (o : RunOutcome) : string * string :=
  match o with
  | Exited rc _ _ =>
      if (rc =? 0)%Z then ("color: green; font-size: 20px;", "Status: Active")
      else ("color: red; font-size: 20px;", "Status: Inactive")
  | SpawnFailed _ => ("color: gray; font-size: 20px;", "Status: Unknown")
  end.

(** The state after [update_status]: the query is on record and the header
    shows its answer. *)
Definition status_updated (st : State) : State :=
  let shown := status_shown (service_manager (world st) status_call) in
  {| win := set_status_label (snd shown)
              (set_status_indicator (fst shown) (win st));
     world := add_spawned status_call (world st) |}.

Definition is_CalledProcessError (e : exn) : bool :=
  match e with
  | CalledProcessError _ _ _ _ => true
  | _ => false
  end.

(** Whether a failed call of the service manager gets past the handler of
    the service methods, which catches [CalledProcessError] only. *)
Definition spawn_raises (o : RunOutcome) : bool :=
  match o with
  | SpawnFailed e => negb (is_CalledProcessError e)
  | Exited _ _ _ => false
  end.

(** The state after a service command has succeeded: the command is on
    record, the user has been told, and the status has been queried. *)
Definition service_announced (verb title text : string) (st : State) : State :=
  status_updated
    {| win := win st;
       world := add_dialog (Information title text)
                  (add_spawned (service_call verb) (world st)) |}.

(** ** Windows to evaluate on *)

(** The window built on a home without a configuration file, where the
    service manager accepts every command. *)
Definition default_world : World :=
  world_of empty_home (Exited 0 EmptyString EmptyString).

Definition default_window : State := state_after_init default_world.

(** The same window on a machine without the service manager, and on one
    where [.config] is a regular file. *)
Definition window_without_systemctl : State :=
  {| win := win default_window;
     world := world_of empty_home (SpawnFailed FileNotFoundError) |}.

Definition window_on_blocked_home : State :=
  {| win := win default_window;
     world := world_of blocked_home (Exited 0 EmptyString EmptyString) |}.

(** A window around a mapping that has one typo, and one around a mapping
    that has one application with a single flag. *)
Definition window_with_one_typo : State :=
  {| win := init_ui (PDict [("custom_typos",
                             PDict (map typo_entry [("teh", "the")]))]);
     world := default_world |}.

Definition window_with_one_application : State :=
  {| win := init_ui
              (PDict [("applications",
                       PDict (map app_entry
                                [("vim", [("enabled", PBool false)])]))]);
     world := default_world |}.

(** * Specifications of methods *)

(** [triple P m Q E]: from a state in [P], the method [m] returns in a state
    in [Q], or raises in a state in [E]. *)
Definition triple {A} (P : State -> Prop) (m : M A)
    (Q : A -> State -> Prop) (E : exn -> State -> Prop) : Prop :=
  forall st, P st ->
    match m st with
    | Done a st' => Q a st'
    | Raised e st' => E e st'
    end.

(** [keeps f m]: whatever [m] does, the part [f] of the state is the same
    afterwards. *)
Definition keeps {A B} (f : State -> B) (m : M A) : Prop :=
  forall x, triple (fun st => f st = x) m
                   (fun _ st => f st = x) (fun _ st => f st = x).

(** * Facts about dictionaries *)

Module DictFacts.

Lemma lookup_set_eq (k : string) (v : PyVal) (d : Dict.t) :
  Dict.lookup k (Dict.set k v d) = Some v.
Proof.
  induction d as [|[k' v'] d IH]; simpl.
  - rewrite String.eqb_refl. reflexivity.
  - destruct (String.eqb k k') eqn:E; simpl; rewrite E; auto.
Qed.

Lemma lookup_set_ne (k k' : string) (v : PyVal) (d : Dict.t) :
  k <> k' -> Dict.lookup k (Dict.set k' v d) = Dict.lookup k d.
Proof.
  intros Hne. induction d as [|[k0 v0] d IH]; simpl.
  - apply String.eqb_neq in Hne. rewrite Hne. reflexivity.
  - destruct (String.eqb k' k0) eqn:E; simpl.
    + apply String.eqb_eq in E. subst k0.
      apply String.eqb_neq in Hne. rewrite Hne. reflexivity.
    + rewrite IH. reflexivity.
Qed.

Lemma keys_set_old (k : string) (v : PyVal) (d : Dict.t) :
  k ∈ Dict.keys d -> Dict.keys (Dict.set k v d) = Dict.keys d.
Proof.
  unfold Dict.keys. induction d as [|[k' v'] d IH]; simpl; intros Hin.
  - inversion Hin.
  - destruct (String.eqb k k') eqn:E; simpl; [reflexivity|].
    apply String.eqb_neq in E.
    apply elem_of_cons in Hin as [?|Hin]; [contradiction|].
    rewrite IH by exact Hin. reflexivity.
Qed.

Lemma keys_set_new (k : string) (v : PyVal) (d : Dict.t) :
  k ∉ Dict.keys d -> Dict.keys (Dict.set k v d) = Dict.keys d ++ [k].
Proof.
  unfold Dict.keys. induction d as [|[k' v'] d IH]; simpl; intros Hout.
  - reflexivity.
  - apply not_elem_of_cons in Hout as [Hne Hout].
    apply String.eqb_neq in Hne. rewrite Hne. simpl.
    rewrite IH by exact Hout. reflexivity.
Qed.

Lemma keys_set_NoDup (k : string) (v : PyVal) (d : Dict.t) :
  NoDup (Dict.keys d) -> NoDup (Dict.keys (Dict.set k v d)).
Proof.
  intros Hnd. destruct (decide (k ∈ Dict.keys d)) as [Hin|Hout].
  - rewrite keys_set_old by exact Hin. exact Hnd.
  - rewrite keys_set_new by exact Hout.
    apply NoDup_app. split; [exact Hnd|]. split.
    + intros x Hx Hk. apply list_elem_of_singleton in Hk. subst x.
      contradiction.
    + apply NoDup_singleton.
Qed.

Lemma lookup_Some_keys (k : string) (d : Dict.t) :
  is_Some (Dict.lookup k d) <-> k ∈ Dict.keys d.
Proof.
  induction d as [|[k' v'] d IH]; simpl.
  - split; [intros [? ?]; discriminate | intros Hin; inversion Hin].
  - destruct (String.eqb k k') eqn:E.
    + apply String.eqb_eq in E. subst k'. split; [|eauto].
      intros _. apply list_elem_of_here.
    + apply String.eqb_neq in E. rewrite IH. split.
      * intros Hin. apply list_elem_of_further. exact Hin.
      * intros Hin. apply elem_of_cons in Hin as [?|?]; [contradiction|assumption].
Qed.

End DictFacts.

(** * Facts about the file system *)

Section FileSystemFacts.

Implicit Types (fs : gmap path node) (p pre rest : path).

(** When every directory on the way exists, [mkdir] changes nothing. *)
Lemma mkdir_from_dirs pre rest fs :
  dirs_from pre rest fs = true -> mkdir_from pre rest fs = Ok fs.
Proof.
  revert pre. induction rest as [|c rest IH]; intros pre Hd; simpl in *.
  - reflexivity.
  - destruct (fs !! (pre ++ [c])) as [[?|]|]; try discriminate.
    apply IH. exact Hd.
Qed.

(** The last directory of an existing chain is a directory. *)
Lemma dirs_from_target pre rest fs :
  dirs_from pre rest fs = true -> rest <> [] ->
  fs !! (pre ++ rest) = Some Dir.
Proof.
  revert pre. induction rest as [|c rest IH]; intros pre Hd Hne; simpl in *.
  - contradiction.
  - destruct (fs !! (pre ++ [c])) as [[?|]|] eqn:E; try discriminate.
    destruct rest as [|c' rest'].
    + exact E.
    + rewrite (cons_middle c pre (c' :: rest')), app_assoc.
      apply IH; [exact Hd|discriminate].
Qed.

(** A successful [mkdir] leaves a directory at the end of the path. *)
Lemma mkdir_from_target pre rest fs fs' :
  mkdir_from pre rest fs = Ok fs' -> rest <> [] ->
  fs' !! (pre ++ rest) = Some Dir.
Proof.
  revert pre fs. induction rest as [|c rest IH]; intros pre fs Hm Hne.
  - contradiction.
  - simpl in Hm. destruct rest as [|c' rest'].
    + destruct (fs !! (pre ++ [c])) as [[?|]|] eqn:E; simpl in Hm;
        try discriminate; injection Hm as <-.
      * exact E.
      * apply lookup_insert_eq.
    + rewrite (cons_middle c pre (c' :: rest')), app_assoc.
      destruct (fs !! (pre ++ [c])) as [[?|]|] eqn:E; try discriminate;
        (eapply IH; [exact Hm|discriminate]).
Qed.

Lemma append_EmptyString_r (c : string) : c +:+ EmptyString = c.
Proof.
  induction c as [|a c IH]; [reflexivity|].
  change (String a (c +:+ EmptyString) = String a c). rewrite IH. reflexivity.
Qed.

Lemma append_String_assoc (c : string) (a : ascii) (s : string) :
  (c +:+ String a EmptyString) +:+ s = c +:+ String a s.
Proof.
  induction c as [|b c IH]; [reflexivity|].
  change (String b ((c +:+ String a EmptyString) +:+ s)
          = String b (c +:+ String a s)).
  rewrite IH. reflexivity.
Qed.

(** Writing a text character by character appends it to the file. *)
Lemma exec_write_chars `{Platform} p (cs : list ascii) fs (c : string) :
  fs !! p = Some (File c) ->
  exists fs',
    exec_steps (map (fun a => StepWrite p (String a EmptyString)) cs) fs
      = Written fs'
    /\ fs' !! p = Some (File (c +:+ string_of_list_ascii cs)).
Proof.
  revert fs c. induction cs as [|a cs IH]; intros fs c Hp; simpl.
  - exists fs. split; [reflexivity|].
    rewrite append_EmptyString_r. exact Hp.
  - unfold write_chunk. rewrite Hp.
    destruct (IH (<[p := File (c +:+ String a EmptyString)]> fs)
                 (c +:+ String a EmptyString)) as (fs' & Hrun & Hfile).
    { apply lookup_insert_eq. }
    exists fs'. split; [exact Hrun|].
    rewrite Hfile, append_String_assoc. reflexivity.
Qed.

Lemma take_write_steps `{Platform} p (k : nat) (text : string) :
  take k (write_steps p text) = write_steps p (text_prefix k text).
Proof.
  unfold write_steps, text_prefix.
  rewrite list_ascii_of_string_of_list_ascii.
  change (@map) with (@fmap list _). rewrite fmap_take. reflexivity.
Qed.

End FileSystemFacts.

(** * Facts about [SmartTypeConfig] *)

Section SmartTypeConfigFacts.

Context `{Platform}.

Implicit Types (fs : gmap path node).

Lemma config_dir_not_root : config_dir <> [].
Proof. unfold config_dir. destruct home; discriminate. Qed.

Lemma node_at_config_file fs : node_at fs config_file = fs !! config_file.
Proof. unfold node_at, config_file, config_dir. destruct home; reflexivity. Qed.

Lemma node_at_config_dir fs : node_at fs config_dir = fs !! config_dir.
Proof. unfold node_at, config_dir. destruct home; reflexivity. Qed.

Lemma parent_config_file : parent config_file = config_dir.
Proof. unfold parent, config_file. apply removelast_last. Qed.

Lemma load_config_missing fs :
  fs !! config_file = None -> load_config fs = Ok default_config.
Proof.
  intros Hnone. unfold load_config, path_exists.
  rewrite node_at_config_file, Hnone. reflexivity.
Qed.

Lemma load_config_file fs (content : string) :
  fs !! config_file = Some (File content) ->
  load_config fs = safe_load content.
Proof.
  intros Hfile. unfold load_config, path_exists, open_read.
  rewrite node_at_config_file, Hfile. simpl.
  destruct (safe_load content); reflexivity.
Qed.

(** After the file has been opened for writing, the remaining effects
    cannot fail, and leave the text written so far in the file. *)
Lemma exec_writes_after_open fs (text : string) :
  fs !! config_file = Some (File EmptyString) ->
  exists fs',
    exec_steps (write_steps config_file text) fs = Written fs'
    /\ fs' !! config_file = Some (File text).
Proof.
  intros Hopen. unfold write_steps.
  destruct (exec_write_chars config_file (list_ascii_of_string text) fs
              EmptyString Hopen) as (fs' & Hrun & Hfile).
  exists fs'. split; [exact Hrun|].
  rewrite Hfile. change (EmptyString +:+ ?x) with x.
  rewrite string_of_list_ascii_of_string. reflexivity.
Qed.

(** A save that returns has left exactly the dump in the file. *)
Lemma save_config_written (config : PyVal) fs fs' :
  save_config config fs = Written fs' ->
  fs' !! config_file = Some (File (dump config)).
Proof.
  unfold save_config, save_config_steps. simpl.
  destruct (mkdir_parents config_dir fs) as [fs1|e]; [|discriminate].
  unfold open_write.
  destruct (match node_at fs1 config_file with
            | Some Dir => Raise IsADirectoryError
            | _ => match node_at fs1 (parent config_file) with
                   | Some Dir => Ok (<[config_file := File EmptyString]> fs1)
                   | Some (File _) => Raise NotADirectoryError
                   | None => Raise FileNotFoundError
                   end
            end) as [fs2|e] eqn:Hopen; [|discriminate].
  assert (Hfile : fs2 !! config_file = Some (File EmptyString)).
  { destruct (node_at fs1 config_file) as [[?|]|];
      destruct (node_at fs1 (parent config_file)) as [[?|]|];
      try discriminate; injection Hopen as <-; apply lookup_insert_eq. }
  destruct (exec_writes_after_open fs2 (dump config) Hfile)
    as (fs3 & Hrun & Hres).
  rewrite Hrun. intros [= <-]. exact Hres.
Qed.

(** With a configuration file in place, a save cut short after [n] effects
    has not failed; the file holds its old content before it is opened and
    the part of the dump written so far afterwards. *)
Lemma save_config_interrupted_file (n : nat) (config : PyVal) fs
    (old : string) :
  dirs_from [] config_dir fs = true ->
  fs !! config_file = Some (File old) ->
  exists fs',
    save_config_interrupted n config fs = Written fs'
    /\ fs' !! config_file
       = Some (File (if (n <? 2)%nat then old
                     else text_prefix (n - 2) (dump config))).
Proof.
  intros Hdirs Hold. unfold save_config_interrupted, save_config_steps.
  destruct n as [|[|n]].
  - exists fs. split; [reflexivity|exact Hold].
  - exists fs. simpl. unfold mkdir_parents.
    rewrite mkdir_from_dirs by exact Hdirs. split; [reflexivity|exact Hold].
  - simpl. unfold mkdir_parents. rewrite mkdir_from_dirs by exact Hdirs.
    unfold open_write. rewrite node_at_config_file, Hold.
    rewrite parent_config_file, node_at_config_dir.
    pose proof (dirs_from_target [] config_dir fs Hdirs config_dir_not_root)
      as Hdir.
    change ([] ++ config_dir) with config_dir in Hdir. rewrite Hdir.
    rewrite take_write_steps, Nat.sub_0_r.
    apply exec_writes_after_open. apply lookup_insert_eq.
Qed.

(** With the directories in place, a save runs to its end. *)
Lemma save_config_file (config : PyVal) fs (old : string) :
  dirs_from [] config_dir fs = true ->
  fs !! config_file = Some (File old) ->
  exists fs',
    save_config config fs = Written fs'
    /\ fs' !! config_file = Some (File (dump config)).
Proof.
  intros Hdirs Hold. unfold save_config, save_config_steps. simpl.
  unfold mkdir_parents. rewrite mkdir_from_dirs by exact Hdirs.
  unfold open_write. rewrite node_at_config_file, Hold.
  rewrite parent_config_file, node_at_config_dir.
  pose proof (dirs_from_target [] config_dir fs Hdirs config_dir_not_root)
    as Hdir.
  change ([] ++ config_dir) with config_dir in Hdir. rewrite Hdir.
  apply exec_writes_after_open. apply lookup_insert_eq.
Qed.

End SmartTypeConfigFacts.

(** * Loading and saving the configuration file *)

Section LoadAndSave.

Context `{Platform} `{Toolkit}.

(** C1 (amended): when the configuration file exists and the YAML library
    rejects its content, [load_config] does not fall back to the defaults:
    it raises the error of the library, and the construction of the window
    ends with that error before any widget is filled. *)
Theorem load_config_propagates_parse_error (w : World) (content : string)
    (e : exn) :
  disk w !! config_file = Some (File content) ->
  safe_load content = Raise e ->
  load_config (disk w) = Raise e
  /\ MainWindow_init w = Raised e {| win := init_ui PNone; world := w |}.
Proof.
  intros Hfile Hbad.
  assert (Hload : load_config (disk w) = Raise e).
  { rewrite (load_config_file _ content Hfile). exact Hbad. }
  split; [exact Hload|].
  unfold MainWindow_init. rewrite Hload. reflexivity.
Qed.


(** C3: when the configuration file does not exist, [load_config] returns
    exactly [default_config] (every feature enabled, minimum word length 2,
    hotkey Super+Shift+A, three applications, two sample corrections), and
    no error reaches the caller: the window is built around the defaults
    and the world is left as it was (no dialog, no command, no write). *)
Theorem load_config_missing_file_gives_defaults (w : World) :
  disk w !! config_file = None ->
  load_config (disk w) = Ok default_config
  /\ config_lookup "enabled" default_config = Some (PBool true)
  /\ config_lookup "smart_punctuation" default_config = Some (PBool true)
  /\ config_lookup "autocorrect" default_config = Some (PBool true)
  /\ config_lookup "min_word_length" default_config = Some (PInt 2)
  /\ config_lookup "hotkey" default_config = Some (PStr "Super+Shift+A")
  /\ (exists apps,
        config_lookup "applications" default_config = Some (PDict apps)
        /\ Dict.keys apps = ["firefox"; "qterminal"; "kitty"])
  /\ config_lookup "custom_typos" default_config
     = Some (PDict [("hte", PStr "the"); ("becuase", PStr "because")])
  /\ exists win',
       MainWindow_init w = Done tt {| win := win'; world := w |}
       /\ config win' = default_config.
Proof.
  intros Hnone.
  assert (Hload : load_config (disk w) = Ok default_config)
    by (apply load_config_missing; exact Hnone).
  repeat split; try reflexivity; try exact Hload.
  - eexists. split; reflexivity.
  - unfold MainWindow_init. rewrite Hload.
    repeat (cbv -[to_bool to_int to_text to_item_text];
            rewrite ?to_bool_PBool, ?to_text_PStr, ?to_item_text_PStr;
            try rewrite to_int_PInt by lia).
    eexists. split; reflexivity.
Qed.

(** C4 (amended): [save_config] is not atomic, it rewrites the
    configuration file in place.  With a configuration file already there,
    a save cut short before the file is opened (fewer than two effects)
    leaves the old content; cut short at any later point it leaves only
    the part of the new text written so far, the old content being gone;
    left to run to its end it leaves the complete new text. *)
Theorem save_config_interrupted_content (n : nat) (config : PyVal)
    (fs : gmap path node) (old : string) :
  dirs_from [] config_dir fs = true ->
  fs !! config_file = Some (File old) ->
  (exists fs',
     save_config_interrupted n config fs = Written fs'
     /\ fs' !! config_file
        = Some (File (if (n <? 2)%nat then old
                      else text_prefix (n - 2) (dump config))))
  /\ (exists fs',
        save_config config fs = Written fs'
        /\ fs' !! config_file = Some (File (dump config))).
Proof.
  intros Hdirs Hold. split.
  - apply save_config_interrupted_file; assumption.
  - eapply save_config_file; eassumption.
Qed.

End LoadAndSave.

(** * Reasoning about methods *)

Section Triples.

Context {A B : Type}.

Lemma triple_bind (P : State -> Prop) (m : M A) (k : A -> M B)
    (Q : A -> State -> Prop) (R : B -> State -> Prop) E :
  triple P m Q E -> (forall a, triple (Q a) (k a) R E) ->
  triple P (bind m k) R E.
Proof.
  intros Hm Hk st HP. unfold bind. specialize (Hm st HP).
  destruct (m st) as [a st'|e st']; [|exact Hm].
  apply (Hk a st' Hm).
Qed.

Lemma triple_try_except (P : State -> Prop) (body : M A)
    (handler : exn -> option (M A)) (Q : A -> State -> Prop)
    (E' E : exn -> State -> Prop) :
  triple P body Q E' ->
  (forall e, match handler e with
             | Some h => triple (E' e) h Q E
             | None => forall st, E' e st -> E e st
             end) ->
  triple P (try_except body handler) Q E.
Proof.
  intros Hb Hh st HP. unfold try_except. specialize (Hb st HP).
  destruct (body st) as [a st'|e st']; [exact Hb|].
  specialize (Hh e). destruct (handler e) as [h|]; auto.
  apply (Hh st' Hb).
Qed.

End Triples.

Lemma triple_for_each {A} (I : State -> Prop) (l : list A) (body : A -> M unit)
    (E : exn -> State -> Prop) :
  (forall x, triple I (body x) (fun _ => I) E) ->
  triple I (for_each l body) (fun _ => I) E.
Proof.
  intros Hbody. induction l as [|x l IH]; simpl.
  - intros st HI. exact HI.
  - eapply triple_bind; [apply Hbody|]. intros ?. exact IH.
Qed.

Section Keeps.

Context {S : Type} (f : State -> S).

Lemma keeps_ret {A} (a : A) : keeps f (ret a).
Proof. intros x st Hx. exact Hx. Qed.

Lemma keeps_raise {A} (e : exn) : keeps f (@raise A e).
Proof. intros x st Hx. exact Hx. Qed.

Lemma keeps_lift {A} (r : result A) : keeps f (lift r).
Proof. intros x st Hx. destruct r; exact Hx. Qed.

Lemma keeps_gets {A} (g : MainWindow -> A) : keeps f (gets g).
Proof. intros x st Hx. exact Hx. Qed.

Lemma keeps_bind {A B} (m : M A) (k : A -> M B) :
  keeps f m -> (forall a, keeps f (k a)) -> keeps f (bind m k).
Proof.
  intros Hm Hk x. eapply triple_bind; [apply Hm|]. intros a. apply Hk.
Qed.

Lemma keeps_update (g : MainWindow -> MainWindow) :
  (forall st, f {| win := g (win st); world := world st |} = f st) ->
  keeps f (update g).
Proof. intros Hg x st Hx. simpl. rewrite Hg. exact Hx. Qed.

Lemma keeps_update_world (g : World -> World) :
  (forall st, f {| win := win st; world := g (world st) |} = f st) ->
  keeps f (update_world g).
Proof. intros Hg x st Hx. simpl. rewrite Hg. exact Hx. Qed.

Lemma keeps_for_each {A} (l : list A) (body : A -> M unit) :
  (forall a, keeps f (body a)) -> keeps f (for_each l body).
Proof. intros Hbody x. apply triple_for_each. intros a. apply Hbody. Qed.

Lemma keeps_try_except {A} (body : M A) (handler : exn -> option (M A)) :
  keeps f body ->
  (forall e, match handler e with Some h => keeps f h | None => True end) ->
  keeps f (try_except body handler).
Proof.
  intros Hb Hh x. eapply triple_try_except; [apply Hb|].
  intros e. specialize (Hh e). destruct (handler e); [apply Hh|auto].
Qed.

Lemma keeps_subprocess_run (call : RunCall) :
  (forall st, f {| win := win st; world := add_spawned call (world st) |} = f st) ->
  keeps f (subprocess_run call).
Proof.
  intros Hf x st Hx. unfold subprocess_run.
  destruct (service_manager (world st) call); [|rewrite Hf; exact Hx].
  destruct (check call && negb (returncode =? 0)%Z); rewrite Hf; exact Hx.
Qed.

Lemma keeps_config_manager_save_config `{Platform} :
  (forall st fs, f {| win := win st; world := set_disk fs (world st) |} = f st) ->
  keeps f config_manager_save_config.
Proof.
  intros Hf x st Hx. unfold config_manager_save_config.
  destruct (save_config _ _); rewrite Hf; exact Hx.
Qed.

End Keeps.

(** One step of a frame proof, by the shape of the method. *)
Ltac keeps_step :=
  lazymatch goal with
  | |- keeps _ (bind _ _) => apply keeps_bind; [|intros ?]
  | |- keeps _ (ret _) => apply keeps_ret
  | |- keeps _ (raise _) => apply keeps_raise
  | |- keeps _ (lift _) => apply keeps_lift
  | |- keeps _ (gets _) => apply keeps_gets
  | |- keeps _ (update _) => apply keeps_update; intros; reflexivity
  | |- keeps _ (update_world _) => apply keeps_update_world; intros; reflexivity
  | |- keeps _ (subprocess_run _) =>
      apply keeps_subprocess_run; intros; reflexivity
  | |- keeps _ config_manager_save_config =>
      apply keeps_config_manager_save_config; intros; reflexivity
  | |- keeps _ (for_each _ _) => apply keeps_for_each; intros ?
  | |- keeps _ (try_except _ _) =>
      apply keeps_try_except; [|intros []; simpl; try exact I]
  | |- keeps _ (if ?b then _ else _) => destruct b
  | |- keeps _ (match ?x with _ => _ end) => destruct x
  end.

Ltac unfold_methods :=
  unfold dispatch, toggle_smarttype, save_configuration, load_settings,
    load_applications_table, load_typos_table, start_service, stop_service,
    restart_service, service_method, update_status, refresh_statistics,
    add_application, remove_application, add_typo, remove_typo, setitem,
    QMessageBox_information, QMessageBox_warning.

Ltac solve_keeps := unfold_methods; repeat keeps_step.

(** ** Runs that return *)

Lemma bind_Done {A B} (m : M A) (k : A -> M B) (st st' : State) (b : B) :
  bind m k st = Done b st' ->
  exists a st1, m st = Done a st1 /\ k a st1 = Done b st'.
Proof.
  unfold bind. destruct (m st) as [a st1|e st1]; [|discriminate].
  intros Hk. exists a, st1. split; [reflexivity|exact Hk].
Qed.

Lemma gets_Done {A} (f : MainWindow -> A) (st st' : State) (a : A) :
  gets f st = Done a st' -> a = f (win st) /\ st' = st.
Proof. intros [= <- <-]. split; reflexivity. Qed.

Lemma lift_Done {A} (r : result A) (st st' : State) (a : A) :
  lift r st = Done a st' -> r = Ok a /\ st' = st.
Proof. destruct r; simpl; [|discriminate]. intros [= <- <-]. split; reflexivity. Qed.

Lemma update_Done (f : MainWindow -> MainWindow) (st st' : State) (u : unit) :
  update f st = Done u st' ->
  st' = {| win := f (win st); world := world st |}.
Proof. intros Heq. injection Heq as _ <-. reflexivity. Qed.

Lemma setitem_Done (k : string) (v : PyVal) (st st' : State) (u : unit) :
  setitem k v st = Done u st' ->
  exists d, config (win st) = PDict d
    /\ st' = {| win := set_config (PDict (Dict.set k v d)) (win st);
                world := world st |}.
Proof.
  unfold setitem. intros Hrun.
  apply bind_Done in Hrun as (c & st1 & Hc & Hrun).
  apply gets_Done in Hc as [-> ->].
  apply bind_Done in Hrun as (c' & st2 & Hc' & Hrun).
  apply lift_Done in Hc' as [Hset ->].
  apply update_Done in Hrun as ->.
  destruct (config (win st)) as [| | | |d]; try discriminate.
  injection Hset as <-. exists d. split; reflexivity.
Qed.

Ltac simpl_fields_in H :=
  cbn [win world config enabled_checkbox autocorrect_checkbox
       smart_punctuation_checkbox min_word_spinbox hotkey_input app_table
       typo_table status_label status_indicator set_config] in H.

(** Splits the first statement off a run that returned. *)
Ltac run_step H :=
  let Hhead := fresh "Hhead" in
  apply bind_Done in H as (? & ? & Hhead & H);
  first
    [ apply gets_Done in Hhead as [-> ->]
    | apply lift_Done in Hhead as [Hhead ->]
    | apply update_Done in Hhead as ->
    | apply setitem_Done in Hhead as (? & Hhead & ->);
      simpl_fields_in Hhead; try (injection Hhead as <-) ];
  simpl_fields_in H.

Section MainWindowFacts.
Context `{Platform} `{Toolkit}.

(** After the file is written, the rest of [save_configuration] changes
    neither the configuration nor the disk. *)
Lemma save_tail_keeps :
  keeps (fun st => (config (win st), disk (world st)))
    (QMessageBox_information "Configuration Saved"
       "Configuration has been saved successfully." ;;;
     restart_service).
Proof. solve_keeps. Qed.

(** What a save that returns has done: the seven known keys have been
    assigned from the widgets, in this order, and the file holds the dump of
    the resulting mapping. *)
Lemma save_configuration_Done (st st' : State) :
  save_configuration st = Done tt st' ->
  exists d apps typos,
    config (win st) = PDict d
    /\ read_apps (app_table (win st)) [] = Ok apps
    /\ read_typos (typo_table (win st)) [] = Ok typos
    /\ config (win st')
       = PDict
           (Dict.set "custom_typos" (PDict typos)
           (Dict.set "applications" (PDict apps)
           (Dict.set "hotkey" (PStr (hotkey_input (win st)))
           (Dict.set "min_word_length"
                     (PInt (value (min_word_spinbox (win st))))
           (Dict.set "smart_punctuation"
                     (PBool (smart_punctuation_checkbox (win st)))
           (Dict.set "autocorrect" (PBool (autocorrect_checkbox (win st)))
           (Dict.set "enabled" (PBool (enabled_checkbox (win st))) d)))))))
    /\ disk (world st') !! config_file
       = Some (File (dump (config (win st')))).
Proof.
  unfold save_configuration. intros Hrun.
  do 16 run_step Hrun.
  apply bind_Done in Hrun as ([] & st1 & Hsave & Hrun).
  pose proof (save_tail_keeps _ st1 eq_refl) as Hkeep.
  rewrite Hrun in Hkeep. simpl in Hkeep. injection Hkeep as Hc Hd.
  unfold config_manager_save_config in Hsave. simpl_fields_in Hsave.
  destruct (save_config _ _) as [fs'|e fs'] eqn:Hwritten in Hsave;
    [|discriminate].
  injection Hsave as <-.
  apply save_config_written in Hwritten.
  simpl_fields_in Hc. simpl_fields_in Hwritten. simpl in Hd.
  rewrite <- Hc, <- Hd in Hwritten.
  eexists _, _, _.
  split; [eassumption|]. split; [eassumption|]. split; [eassumption|].
  split; [exact Hc|exact Hwritten].
Qed.



(** ** Dictionaries built by the loops *)

Lemma read_typos_rows (entries : list (string * string)) (acc : Dict.t) :
  read_typos (map typo_row entries) acc = Ok (typos_of entries acc).
Proof.
  revert acc. induction entries as [|[t c] entries IH]; intros acc; simpl.
  - reflexivity.
  - apply IH.
Qed.

Lemma typos_of_NoDup (entries : list (string * string)) (acc : Dict.t) :
  NoDup (Dict.keys acc) -> NoDup (Dict.keys (typos_of entries acc)).
Proof.
  revert acc. induction entries as [|[t c] entries IH]; intros acc Hnd; simpl.
  - exact Hnd.
  - apply IH. apply DictFacts.keys_set_NoDup. exact Hnd.
Qed.

Lemma typos_of_lookup_other (entries : list (string * string)) (acc : Dict.t)
    (k : string) :
  k ∉ map fst entries ->
  Dict.lookup k (typos_of entries acc) = Dict.lookup k acc.
Proof.
  revert acc. induction entries as [|[t c] entries IH]; intros acc Hk; simpl.
  - reflexivity.
  - simpl in Hk. apply not_elem_of_cons in Hk as [Hne Hk].
    rewrite IH by exact Hk. apply DictFacts.lookup_set_ne. exact Hne.
Qed.

Lemma typos_of_app (l1 l2 : list (string * string)) (acc : Dict.t) :
  typos_of (l1 ++ l2) acc = typos_of l2 (typos_of l1 acc).
Proof. unfold typos_of. apply fold_left_app. Qed.

(** The last row entered for a typo decides its correction. *)
Lemma typos_of_last (before after : list (string * string)) (k c : string)
    (acc : Dict.t) :
  k ∉ map fst after ->
  Dict.lookup k (typos_of (before ++ (k, c) :: after) acc) = Some (PStr c).
Proof.
  intros Hk. rewrite typos_of_app. simpl.
  change (Dict.lookup k (typos_of after
            (Dict.set k (PStr c) (typos_of before acc))) = Some (PStr c)).
  rewrite typos_of_lookup_other by exact Hk.
  apply DictFacts.lookup_set_eq.
Qed.

(** C8: when the same typo is entered twice in the custom typos table, the
    configuration that [save_configuration] produces has one entry for it,
    holding the correction entered last: the [custom_typos] mapping has no
    repeated key and maps the typo to the correction of its last row. *)
Theorem duplicate_typo_keeps_last_correction (st st' : State)
    (before between after : list (string * string)) (typo first last : string) :
  typo_table (win st)
    = map typo_row (before ++ (typo, first) :: between ++ (typo, last) :: after) ->
  typo ∉ map fst after ->
  save_configuration st = Done tt st' ->
  exists typos,
    config_lookup "custom_typos" (config (win st')) = Some (PDict typos)
    /\ Dict.lookup typo typos = Some (PStr last)
    /\ NoDup (Dict.keys typos).
Proof.
  intros Htable Hafter Hrun.
  apply save_configuration_Done in Hrun
    as (d & apps & typos & _ & _ & Htypos & Hcfg & _).
  rewrite Htable, read_typos_rows in Htypos. injection Htypos as <-.
  eexists. split; [|split].
  - rewrite Hcfg. simpl. apply DictFacts.lookup_set_eq.
  - rewrite (app_comm_cons), app_assoc.
    apply typos_of_last. exact Hafter.
  - apply typos_of_NoDup. constructor.
Qed.


(** ** Unknown keys *)

Lemma is_known_key_false (k : string) :
  is_known_key k = false ->
  k <> "enabled" /\ k <> "autocorrect" /\ k <> "smart_punctuation"
  /\ k <> "min_word_length" /\ k <> "hotkey" /\ k <> "applications"
  /\ k <> "custom_typos".
Proof.
  unfold is_known_key, known_keys. simpl. intros Hk.
  repeat (apply orb_false_elim in Hk as [?%String.eqb_neq Hk]).
  repeat split; assumption.
Qed.

Lemma setitem_keeps_lookup (k k' : string) (v : PyVal) :
  k <> k' ->
  keeps (fun st => config_lookup k (config (win st))) (setitem k' v).
Proof.
  intros Hne x st Hx. unfold setitem, bind, gets, lift, py_setitem.
  destruct (config (win st)) as [| | | |d] eqn:Hcfg; simpl;
    try (rewrite Hcfg; exact Hx).
  rewrite DictFacts.lookup_set_ne by exact Hne. exact Hx.
Qed.

Lemma save_configuration_keeps_lookup (k : string) :
  is_known_key k = false ->
  keeps (fun st => config_lookup k (config (win st))) save_configuration.
Proof.
  intros (? & ? & ? & ? & ? & ? & ?)%is_known_key_false.
  unfold save_configuration.
  repeat first
    [ apply setitem_keeps_lookup; assumption
    | apply keeps_bind; [|intros ?]
    | apply keeps_gets
    | apply keeps_lift
    | solve_keeps ].
Qed.

(** C10: a top-level key outside the Settings schema that is present in the
    loaded mapping is left as it is by [save_configuration], however the
    method ends, and when the method returns the file holds the dump of the
    mapping that still has it. *)
Theorem save_configuration_preserves_unknown_keys (st : State) (k : string)
    (v : PyVal) :
  is_known_key k = false ->
  config_lookup k (config (win st)) = Some v ->
  match save_configuration st with
  | Done _ st' =>
      config_lookup k (config (win st')) = Some v
      /\ disk (world st') !! config_file
         = Some (File (dump (config (win st'))))
  | Raised _ st' => config_lookup k (config (win st')) = Some v
  end.
Proof.
  intros Hk Hv.
  pose proof (save_configuration_keeps_lookup k Hk (Some v) st Hv) as Hkeep.
  destruct (save_configuration st) as [[] st'|e st'] eqn:Hrun; [|exact Hkeep].
  split; [exact Hkeep|].
  apply save_configuration_Done in Hrun as (? & ? & ? & _ & _ & _ & _ & Hfile).
  exact Hfile.
Qed.

(** ** The status of the service *)

(** C7: whatever the service manager answers to the status query,
    [update_status] returns without raising and the status is one of
    Active, Inactive and Unknown: Active for exit status 0, Inactive for any
    other exit status, Unknown whenever the call itself raises (missing
    binary, permission error, or anything else). *)
Theorem update_status_total (st : State) :
  exists st',
    update_status st = Done tt st'
    /\ status_label (win st')
       = match service_manager (world st) status_call with
         | Exited rc _ _ =>
             if (rc =? 0)%Z then "Status: Active" else "Status: Inactive"
         | SpawnFailed _ => "Status: Unknown"
         end
    /\ (status_label (win st') = "Status: Active"
        \/ status_label (win st') = "Status: Inactive"
        \/ status_label (win st') = "Status: Unknown").
Proof.
  unfold update_status, try_except, bind, subprocess_run.
    destruct (service_manager (world st) status_call) as [rc out err|e]; simpl.
  - destruct (rc =? 0)%Z; eexists; (split; [reflexivity|]); simpl; auto.
  - eexists. split; [reflexivity|]. simpl. auto.
Qed.

(** ** Failing service commands *)

Lemma service_method_failure (verb title done : string) (st : State)
    (rc : Z) (out err : string) :
  service_manager (world st) (service_call verb) = Exited rc out err ->
  rc <> 0 ->
  service_method verb title done st = Done tt (failure_reported verb rc st).
Proof.
  intros Hout Hrc. unfold service_method, try_except, bind, subprocess_run.
  rewrite Hout. simpl.
  destruct (Z.eqb_spec rc 0) as [?|_]; [contradiction|]. reflexivity.
Qed.

(** C9 (amended): each of [start_service], [stop_service] and
    [restart_service] runs [systemctl --user <verb> smarttype] with
    [check=True], with no timeout and without capturing the output; a
    non-zero exit status is not swallowed: the method returns after showing
    a warning whose text names the command and the exit status, and which
    does not depend on what the command printed. *)
Theorem service_failure_is_reported (st : State) (rc : Z) (out err : string) :
  rc <> 0 ->
  (forall verb,
     service_manager (world st) (service_call verb) = Exited rc out err) ->
  (forall verb,
     argv (service_call verb) = ["systemctl"; "--user"; verb; "smarttype"]
     /\ timeout (service_call verb) = None
     /\ capture_output (service_call verb) = false)
  /\ start_service st = Done tt (failure_reported "start" rc st)
  /\ stop_service st = Done tt (failure_reported "stop" rc st)
  /\ restart_service st = Done tt (failure_reported "restart" rc st).
Proof.
  intros Hrc Hout. split; [intros verb; repeat split|].
  repeat split; eapply service_method_failure; eauto.
Qed.


(** ** Filling the widgets *)

Lemma load_tables_keep_general :
  keeps (fun st => (config (win st), enabled_checkbox (win st),
                    autocorrect_checkbox (win st),
                    smart_punctuation_checkbox (win st),
                    min_word_spinbox (win st), hotkey_input (win st),
                    world st))
    (load_applications_table ;;; load_typos_table).
Proof. solve_keeps. Qed.

Lemma load_typos_table_keeps_apps :
  keeps (fun st => app_table (win st)) load_typos_table.
Proof. solve_keeps. Qed.

Lemma load_applications_table_missing (st : State) (d : Dict.t) :
  config (win st) = PDict d ->
  Dict.lookup "applications" d = None ->
  load_applications_table st
  = Done tt {| win := set_app_table [] (win st); world := world st |}.
Proof.
  intros Hcfg Hnone. unfold load_applications_table, bind, gets.
  rewrite Hcfg. unfold py_get, Dict.get. rewrite Hnone. reflexivity.
Qed.

Lemma load_typos_table_missing (st : State) (d : Dict.t) :
  config (win st) = PDict d ->
  Dict.lookup "custom_typos" d = None ->
  load_typos_table st
  = Done tt {| win := set_typo_table [] (win st); world := world st |}.
Proof.
  intros Hcfg Hnone. unfold load_typos_table, bind, gets.
  rewrite Hcfg. unfold py_get, Dict.get. rewrite Hnone. reflexivity.
Qed.

(** What [load_settings] has done when it returns: each general widget
    shows the entry of the mapping, or the default of that widget where the
    entry is missing; the mapping itself and the world are as before. *)
Lemma load_settings_Done (st st' : State) :
  load_settings st = Done tt st' ->
  exists d z,
    config (win st) = PDict d
    /\ config (win st') = PDict d
    /\ world st' = world st
    /\ to_bool (Dict.get "enabled" (PBool true) d)
       = Ok (enabled_checkbox (win st'))
    /\ to_bool (Dict.get "autocorrect" (PBool true) d)
       = Ok (autocorrect_checkbox (win st'))
    /\ to_bool (Dict.get "smart_punctuation" (PBool true) d)
       = Ok (smart_punctuation_checkbox (win st'))
    /\ to_int (Dict.get "min_word_length" (PInt 2) d) = Ok z
    /\ min_word_spinbox (win st') = setValue z (min_word_spinbox (win st))
    /\ to_text (Dict.get "hotkey" (PStr "Super+Shift+A") d)
       = Ok (hotkey_input (win st')).
Proof.
  unfold load_settings. intros Hrun.
  do 2 run_step Hrun.
  destruct (config (win st)) as [| | | |d] eqn:Hcfg; try discriminate.
  simpl in Hhead. injection Hhead as <-.
  do 14 run_step Hrun.
  simpl in *.
  match type of Hrun with
  | _ ?s = _ => pose proof (load_tables_keep_general _ s eq_refl) as Hkeep
  end.
  rewrite Hrun in Hkeep. simpl in Hkeep.
  injection Hkeep as Hc He Ha Hs Hm Hh Hw.
  simplify_eq.
  exists d, x8. rewrite Hc, Hcfg. repeat split; assumption.
Qed.

Lemma setValue_in_range (z : Z) (sb : QSpinBox) :
  spin_in_range sb -> spin_in_range (setValue z sb).
Proof.
  intros (Hmin & Hmax & Hval). unfold spin_in_range, setValue, bound. simpl.
  rewrite Hmin, Hmax. repeat split; lia.
Qed.

Lemma load_applications_table_keeps_config :
  keeps (fun st => config (win st)) load_applications_table.
Proof. solve_keeps. Qed.

(** A table whose entry is missing from the mapping is left empty. *)
Lemma load_settings_tables (st st' : State) (d : Dict.t) :
  config (win st) = PDict d ->
  load_settings st = Done tt st' ->
  (Dict.lookup "applications" d = None -> app_table (win st') = [])
  /\ (Dict.lookup "custom_typos" d = None -> typo_table (win st') = []).
Proof.
  intros Hcfg Hrun. unfold load_settings in Hrun. do 16 run_step Hrun.
  apply bind_Done in Hrun as ([] & st1 & Happs & Htypos).
  split; intros Hnone.
  - erewrite load_applications_table_missing in Happs by (simpl; eauto).
    injection Happs as <-.
    match type of Htypos with
    | _ ?s = _ => pose proof (load_typos_table_keeps_apps _ s eq_refl) as Hkeep
    end.
    rewrite Htypos in Hkeep. exact Hkeep.
  - match type of Happs with
    | _ ?s = _ =>
        pose proof (load_applications_table_keeps_config _ s eq_refl) as Hkeep
    end.
    rewrite Happs in Hkeep. simpl in Hkeep.
    rewrite Hcfg in Hkeep.
    rewrite (load_typos_table_missing st1 d Hkeep Hnone) in Htypos.
    injection Htypos as <-. reflexivity.
Qed.

(** C5 (amended): [load_config] returns the mapping of the file as it is,
    without filling in missing keys.  The defaults are applied per key when
    the window is filled: a missing [enabled], [autocorrect] or
    [smart_punctuation] shows as checked, a missing [min_word_length] as 2,
    a missing [hotkey] as Super+Shift+A, while a missing [applications] or
    [custom_typos] leaves its table empty (not the sample entries of
    [default_config]). *)
Theorem init_defaults_missing_keys (w : World) (content : string)
    (d : Dict.t) (st' : State) :
  disk w !! config_file = Some (File content) ->
  safe_load content = Ok (PDict d) ->
  MainWindow_init w = Done tt st' ->
  load_config (disk w) = Ok (PDict d)
  /\ config (win st') = PDict d
  /\ (Dict.lookup "enabled" d = None -> enabled_checkbox (win st') = true)
  /\ (Dict.lookup "autocorrect" d = None ->
      autocorrect_checkbox (win st') = true)
  /\ (Dict.lookup "smart_punctuation" d = None ->
      smart_punctuation_checkbox (win st') = true)
  /\ (Dict.lookup "min_word_length" d = None ->
      value (min_word_spinbox (win st')) = 2)
  /\ (Dict.lookup "hotkey" d = None ->
      hotkey_input (win st') = "Super+Shift+A")
  /\ (Dict.lookup "applications" d = None -> app_table (win st') = [])
  /\ (Dict.lookup "custom_typos" d = None -> typo_table (win st') = []).
Proof.
  intros Hfile Hyaml Hinit.
  assert (Hload : load_config (disk w) = Ok (PDict d)).
  { rewrite (load_config_file _ content Hfile). exact Hyaml. }
  unfold MainWindow_init in Hinit. rewrite Hload in Hinit.
  split; [exact Hload|].
  pose proof Hinit as Hrun.
  apply load_settings_Done in Hrun
    as (d' & z & Hcfg & Hcfg' & _ & He & Ha & Hs & Hz & Hm & Hh).
  simpl in Hcfg. injection Hcfg as <-.
  split; [exact Hcfg'|].
  unfold Dict.get in He, Ha, Hs, Hz, Hh.
  repeat split; intros Hnone.
  - rewrite Hnone, to_bool_PBool in He. congruence.
  - rewrite Hnone, to_bool_PBool in Ha. congruence.
  - rewrite Hnone, to_bool_PBool in Hs. congruence.
  - rewrite Hnone, to_int_PInt in Hz by lia. injection Hz as <-.
    rewrite Hm. reflexivity.
  - rewrite Hnone, to_text_PStr in Hh. congruence.
  - exact (proj1 (load_settings_tables
                    {| win := init_ui (PDict d); world := w |} st' d
                    eq_refl Hinit) Hnone).
  - exact (proj2 (load_settings_tables
                    {| win := init_ui (PDict d); world := w |} st' d
                    eq_refl Hinit) Hnone).
Qed.


(** ** The range of the minimum word length *)

Lemma init_ui_spin_in_range (config : PyVal) :
  spin_in_range (min_word_spinbox (init_ui config)).
Proof.
  change (spin_in_range {| minimum := 1; maximum := 10; value := 1 |}).
  unfold spin_in_range. simpl. lia.
Qed.

Lemma load_settings_spin_in_range (st st' : State) :
  spin_in_range (min_word_spinbox (win st)) ->
  load_settings st = Done tt st' ->
  spin_in_range (min_word_spinbox (win st')).
Proof.
  intros Hin Hrun.
  apply load_settings_Done in Hrun
    as (d & z & _ & _ & _ & _ & _ & _ & _ & Hm & _).
  rewrite Hm. apply setValue_in_range. exact Hin.
Qed.

(** Every handler but [load_settings] and the spin box itself leaves the
    spin box alone. *)
Lemma dispatch_keeps_spinbox (ev : Event) :
  match ev with
  | ClickCancel | SpinMinWord _ => True
  | _ => keeps (fun st => min_word_spinbox (win st)) (dispatch ev)
  end.
Proof. destruct ev; try exact I; solve_keeps. Qed.

Lemma dispatch_spin_in_range (ev : Event) (st st' : State) :
  spin_in_range (min_word_spinbox (win st)) ->
  dispatch ev st = Done tt st' ->
  spin_in_range (min_word_spinbox (win st')).
Proof.
  intros Hin Hrun.
  pose proof (dispatch_keeps_spinbox ev) as Hkeep.
  destruct ev;
    try (specialize (Hkeep _ st eq_refl); rewrite Hrun in Hkeep;
         rewrite Hkeep; exact Hin).
  - eapply load_settings_spin_in_range; eassumption.
  - simpl in Hrun. apply update_Done in Hrun as ->. simpl.
    apply setValue_in_range. exact Hin.
Qed.

(** The spin box of a reachable window is in its range. *)
Lemma reachable_spin_in_range (st : State) :
  reachable st -> spin_in_range (min_word_spinbox (win st)).
Proof.
  induction 1 as [w st Hinit|st ev st' _ IH Hrun|st w _ IH].
  - unfold MainWindow_init in Hinit.
    destruct (load_config (disk w)) as [config|e]; [|discriminate].
    eapply load_settings_spin_in_range; [|exact Hinit].
    apply init_ui_spin_in_range.
  - eapply dispatch_spin_in_range; eassumption.
  - exact IH.
Qed.

(** C6 (amended): the range of [min_word_length] is enforced by the spin
    box of the window, by clamping: in every state the window can reach the
    spin box shows a value in 1..10, and a configuration written by
    [save_configuration] has exactly that value as [min_word_length].
    ([load_config] itself does not check the range.) *)
Theorem saved_min_word_length_in_range (st st' : State) :
  reachable st ->
  save_configuration st = Done tt st' ->
  spin_in_range (min_word_spinbox (win st))
  /\ exists z,
       config_lookup "min_word_length" (config (win st')) = Some (PInt z)
       /\ 1 <= z <= 10
       /\ z = value (min_word_spinbox (win st))
       /\ disk (world st') !! config_file
          = Some (File (dump (config (win st')))).
Proof.
  intros Hreach Hrun.
  apply reachable_spin_in_range in Hreach.
  split; [exact Hreach|]. destruct Hreach as (_ & _ & Hval).
  apply save_configuration_Done in Hrun
    as (d & apps & typos & _ & _ & _ & Hcfg & Hfile).
  exists (value (min_word_spinbox (win st))).
  split; [|split; [exact Hval|split; [reflexivity|exact Hfile]]].
  rewrite Hcfg. simpl.
  rewrite !DictFacts.lookup_set_ne by discriminate.
  apply DictFacts.lookup_set_eq.
Qed.

End MainWindowFacts.

(** * More on the file system and on [save_config] *)

Section MoreFileSystemFacts.

Implicit Types (fs : gmap path node) (p q pre rest : list string).

(** [mkdir] only adds directories, and only on the way to its target. *)
Lemma mkdir_from_frame pre rest fs fs' p :
  mkdir_from pre rest fs = Ok fs' ->
  fs' !! p = fs !! p
  \/ (fs !! p = None /\ fs' !! p = Some Dir /\ p `prefix_of` pre ++ rest).
Proof.
  revert pre fs. induction rest as [|c rest IH]; intros pre fs Hm; simpl in Hm.
  - injection Hm as <-. left. reflexivity.
  - rewrite (cons_middle c pre rest), app_assoc.
    destruct (fs !! (pre ++ [c])) as [[?|]|] eqn:E; try discriminate.
    + apply IH. exact Hm.
    + destruct (IH _ _ Hm) as [Heq|(Hn & Hd & Hp)].
      * destruct (decide (p = pre ++ [c])) as [->|Hne].
        -- right. rewrite Heq, lookup_insert_eq.
           split; [exact E|]. split; [reflexivity|].
           apply prefix_app_r. reflexivity.
        -- left. rewrite Heq. apply lookup_insert_ne. congruence.
      * right. split; [|split; assumption].
        destruct (decide (p = pre ++ [c])) as [->|Hne].
        -- exact E.
        -- rewrite lookup_insert_ne in Hn by congruence. exact Hn.
Qed.

Lemma mkdir_from_mono pre rest fs fs' p (x : node) :
  mkdir_from pre rest fs = Ok fs' -> fs !! p = Some x -> fs' !! p = Some x.
Proof.
  intros Hm Hp.
  destruct (mkdir_from_frame pre rest fs fs' p Hm) as [->|(Hn & _)];
    congruence.
Qed.

Lemma file_in_the_way_insert pre rest fs q (x : node) :
  (length q <= length pre)%nat ->
  file_in_the_way pre rest (<[q := x]> fs) = file_in_the_way pre rest fs.
Proof.
  revert pre. induction rest as [|c rest IH]; intros pre Hlen; simpl.
  - reflexivity.
  - rewrite lookup_insert_ne.
    2:{ intros ->. rewrite length_app in Hlen. simpl in Hlen. lia. }
    rewrite IH by (rewrite length_app; simpl; lia). reflexivity.
Qed.

Lemma dirs_from_mono pre rest fs fs' :
  (forall q, fs !! q = Some Dir -> fs' !! q = Some Dir) ->
  dirs_from pre rest fs = true -> dirs_from pre rest fs' = true.
Proof.
  intros Hmono. revert pre. induction rest as [|c rest IH]; intros pre; simpl.
  - reflexivity.
  - destruct (fs !! (pre ++ [c])) as [[?|]|] eqn:E; try discriminate.
    rewrite (Hmono _ E). apply IH.
Qed.

(** With no regular file in the way, [mkdir] returns and every directory on
    the way exists afterwards. *)
Lemma mkdir_from_clear pre rest fs :
  file_in_the_way pre rest fs = false ->
  exists fs', mkdir_from pre rest fs = Ok fs' /\ dirs_from pre rest fs' = true.
Proof.
  revert pre fs. induction rest as [|c rest IH]; intros pre fs Hclear; simpl in *.
  - exists fs. split; reflexivity.
  - destruct (fs !! (pre ++ [c])) as [[?|]|] eqn:E; try discriminate.
    + destruct (IH _ _ Hclear) as (fs' & Hm & Hd).
      exists fs'. split; [exact Hm|].
      rewrite (mkdir_from_mono _ _ _ _ _ _ Hm E). exact Hd.
    + destruct (IH (pre ++ [c]) (<[pre ++ [c] := Dir]> fs)) as (fs' & Hm & Hd).
      { rewrite file_in_the_way_insert by lia. exact Hclear. }
      exists fs'. split; [exact Hm|].
      rewrite (mkdir_from_mono _ _ _ _ (pre ++ [c]) Dir Hm)
        by apply lookup_insert_eq.
      exact Hd.
Qed.

(** With a regular file in the way, [mkdir] raises. *)
Lemma mkdir_from_blocked pre rest fs :
  file_in_the_way pre rest fs = true ->
  mkdir_from pre rest fs = Raise FileExistsError
  \/ mkdir_from pre rest fs = Raise NotADirectoryError.
Proof.
  revert pre fs. induction rest as [|c rest IH]; intros pre fs Hb; simpl in *.
  - discriminate.
  - destruct (fs !! (pre ++ [c])) as [[?|]|] eqn:E.
    + destruct rest; [left|right]; reflexivity.
    + apply IH. exact Hb.
    + apply IH. rewrite file_in_the_way_insert by lia. exact Hb.
Qed.

Lemma open_write_Ok p fs fs' :
  open_write p fs = Ok fs' -> fs' = <[p := File EmptyString]> fs.
Proof.
  unfold open_write.
  destruct (node_at fs p) as [[?|]|]; try discriminate;
    destruct (node_at fs (parent p)) as [[?|]|]; try discriminate;
    intros [= <-]; reflexivity.
Qed.

(** Writing to a file leaves every other path alone, also when it fails. *)
Lemma exec_writes_frame `{Platform} p (cs : list ascii) fs q :
  q <> p ->
  io_disk (exec_steps (map (fun a => StepWrite p (String a EmptyString)) cs) fs)
    !! q = fs !! q.
Proof.
  intros Hne. revert fs. induction cs as [|a cs IH]; intros fs; simpl.
  - reflexivity.
  - unfold write_chunk. destruct (fs !! p) as [[c|]|]; try reflexivity.
    rewrite IH. apply lookup_insert_ne. congruence.
Qed.

End MoreFileSystemFacts.

Section MoreSmartTypeConfigFacts.

Context `{Platform}.
Implicit Types (fs : gmap path node).

Lemma config_file_not_on_the_way : ~ config_file `prefix_of` config_dir.
Proof. unfold config_file. apply prefix_snoc_not. Qed.

(** [save_config] changes nothing but the configuration file and the
    directories that lead to it. *)
Lemma save_config_frame (config : PyVal) fs (p : list string) :
  p <> config_file ->
  io_disk (save_config config fs) !! p = fs !! p
  \/ (fs !! p = None /\ io_disk (save_config config fs) !! p = Some Dir
      /\ p `prefix_of` config_dir).
Proof.
  intros Hne. unfold save_config, save_config_steps. simpl.
  unfold mkdir_parents.
  destruct (mkdir_from [] config_dir fs) as [fs1|e] eqn:Hm;
    [|left; reflexivity].
  pose proof (mkdir_from_frame [] config_dir fs fs1 p Hm) as Hframe.
  destruct (open_write config_file fs1) as [fs2|e] eqn:Ho; [|exact Hframe].
  apply open_write_Ok in Ho as ->.
  unfold write_steps. rewrite exec_writes_frame by exact Hne.
  rewrite lookup_insert_ne by congruence. exact Hframe.
Qed.

Lemma save_config_clear (config : PyVal) fs :
  file_in_the_way [] config_dir fs = false ->
  fs !! config_file <> Some Dir ->
  exists fs',
    save_config config fs = Written fs'
    /\ dirs_from [] config_dir fs' = true
    /\ fs' !! config_file = Some (File (dump config)).
Proof.
  intros Hclear Hfile.
  destruct (mkdir_from_clear [] config_dir fs Hclear) as (fs1 & Hm & Hd).
  assert (Hfile1 : fs1 !! config_file = fs !! config_file).
  { destruct (mkdir_from_frame [] config_dir fs fs1 config_file Hm)
      as [Heq|(_ & _ & Hp)]; [exact Heq|].
    destruct (config_file_not_on_the_way Hp). }
  pose proof (dirs_from_target [] config_dir fs1 Hd config_dir_not_root)
    as Hdir.
  change ([] ++ config_dir) with config_dir in Hdir.
  assert (Hopen : open_write config_file fs1
                  = Ok (<[config_file := File EmptyString]> fs1)).
  { unfold open_write.
    rewrite node_at_config_file, parent_config_file, node_at_config_dir.
    rewrite Hfile1, Hdir.
    destruct (fs !! config_file) as [[?|]|]; [reflexivity|contradiction|reflexivity]. }
  destruct (exec_writes_after_open (<[config_file := File EmptyString]> fs1)
              (dump config)) as (fs3 & Hrun & Hres).
  { apply lookup_insert_eq. }
  exists fs3. split; [|split; [|exact Hres]].
  - unfold save_config, save_config_steps. simpl. unfold mkdir_parents.
    rewrite Hm, Hopen. exact Hrun.
  - apply (dirs_from_mono [] config_dir fs1); [|exact Hd].
    intros q Hq.
    assert (Hqne : q <> config_file) by (intros ->; congruence).
    pose proof (exec_writes_frame config_file
                  (list_ascii_of_string (dump config))
                  (<[config_file := File EmptyString]> fs1) q Hqne) as Hfr.
    unfold write_steps in Hrun. rewrite Hrun in Hfr. simpl in Hfr.
    rewrite Hfr, lookup_insert_ne by congruence. exact Hq.
Qed.

Lemma save_config_blocked (config : PyVal) fs :
  file_in_the_way [] config_dir fs = true ->
  save_config config fs = Failed FileExistsError fs
  \/ save_config config fs = Failed NotADirectoryError fs.
Proof.
  intros Hb. unfold save_config, save_config_steps. simpl. unfold mkdir_parents.
  destruct (mkdir_from_blocked [] config_dir fs Hb) as [-> | ->];
    [left|right]; reflexivity.
Qed.

End MoreSmartTypeConfigFacts.

(** * The loops that fill the tables *)

Section TableLoops.
Context `{Platform} `{Toolkit}.

Lemma typo_loop (items : list (string * PyVal)) :
  forall (pre rest : list TypoRow) (st : State),
    typo_table (win st) = pre ++ rest ->
    length rest = length items ->
    match typo_rows items with
    | Ok rows =>
        for_each (imap (fun i x => (length pre + i, x)%nat) items)
          typo_loop_body st
        = Done tt {| win := set_typo_table (pre ++ rows) (win st);
                     world := world st |}
    | Raise e =>
        exists st',
          for_each (imap (fun i x => (length pre + i, x)%nat) items)
            typo_loop_body st
          = Raised e st'
    end.
Proof.
  induction items as [|[typo correction] items IH]; intros pre rest st Ht Hlen.
  - destruct rest; [|discriminate]. simpl.
    destruct st as [[cfg ec ac sc sb hk atab ttab sl si] wd]. simpl in Ht. subst ttab.
    rewrite !app_nil_r. reflexivity.
  - destruct rest as [|r rest]; [discriminate|].
    injection Hlen as Hlen.
    rewrite imap_cons. simpl for_each. simpl typo_rows.
    destruct st as [[cfg ec ac sc sb hk atab ttab sl si] wd]. simpl in Ht. subst ttab.
    unfold bind at 1. unfold typo_loop_body at 1. unfold bind, update, lift.
    cbn [win world typo_table set_typo_table].
    rewrite !alter_app_r. cbn [alter list_alter].
    destruct (to_item_text correction) as [s|e]; simpl.
    2:{ eexists. reflexivity. }
    rewrite !alter_app_r. cbn [alter list_alter set_typo_cell
                                 typo_item correction_item].
    specialize (IH (pre ++ [{| typo_item := Some typo;
                               correction_item := Some s |}]) rest).
    rewrite (imap_ext _ (fun i x => (length (pre ++ [{| typo_item := Some typo;
                               correction_item := Some s |}]) + i, x)%nat)).
    2:{ intros i x _. simpl. rewrite length_app. simpl. f_equal. lia. }
    match goal with
    | |- context [for_each _ _ ?s] => specialize (IH s)
    end.
    cbn [win world typo_table] in IH.
    rewrite <- app_assoc in IH. specialize (IH eq_refl Hlen).
    destruct (typo_rows items) as [rows|e]; simpl.
    + refine (eq_trans IH _). cbn. rewrite <- app_assoc. reflexivity.
    + exact IH.
Qed.

Lemma app_loop (items : list (string * PyVal)) :
  forall (pre rest : list AppRow) (st : State),
    app_table (win st) = pre ++ rest ->
    length rest = length items ->
    match app_rows items with
    | Ok rows =>
        for_each (imap (fun i x => (length pre + i, x)%nat) items)
          app_loop_body st
        = Done tt {| win := set_app_table (pre ++ rows) (win st);
                     world := world st |}
    | Raise e =>
        exists st',
          for_each (imap (fun i x => (length pre + i, x)%nat) items)
            app_loop_body st
          = Raised e st'
    end.
Proof.
  induction items as [|[app_name app_config] items IH];
    intros pre rest st Ht Hlen.
  - destruct rest; [|discriminate]. simpl.
    destruct st as [[cfg ec ac sc sb hk atab ttab sl si] wd]. simpl in Ht. subst atab.
    rewrite !app_nil_r. reflexivity.
  - destruct rest as [|r rest]; [discriminate|].
    injection Hlen as Hlen.
    rewrite imap_cons. simpl for_each. simpl app_rows.
    destruct st as [[cfg ec ac sc sb hk atab ttab sl si] wd]. simpl in Ht. subst atab.
    unfold bind at 1. unfold app_loop_body at 1. unfold bind, update, lift.
    unfold app_row_for.
    cbn [win world app_table set_app_table].
    rewrite !alter_app_r. cbn [alter list_alter].
    destruct (py_get app_config "enabled" (PBool true)) as [v1|e]; simpl.
    2:{ eexists. reflexivity. }
    destruct (to_bool v1) as [b1|e]; simpl.
    2:{ eexists. reflexivity. }
    destruct (py_get app_config "smart_quotes" (PBool true)) as [v2|e]; simpl.
    2:{ eexists. reflexivity. }
    destruct (to_bool v2) as [b2|e]; simpl.
    2:{ eexists. reflexivity. }
    destruct (py_get app_config "autocorrect" (PBool true)) as [v3|e]; simpl.
    2:{ eexists. reflexivity. }
    destruct (to_bool v3) as [b3|e]; simpl.
    2:{ eexists. reflexivity. }
    rewrite !alter_app_r. cbn [alter list_alter set_app_item set_app_widget
      app_item enabled_widget smart_quotes_widget autocorrect_widget].
    set (row := {| app_item := Some app_name; enabled_widget := Some b1;
                   smart_quotes_widget := Some b2;
                   autocorrect_widget := Some b3 |}).
    specialize (IH (pre ++ [row]) rest).
    rewrite (imap_ext _ (fun i x => (length (pre ++ [row]) + i, x)%nat)).
    2:{ intros i x _. simpl. rewrite length_app. simpl. f_equal. lia. }
    match goal with
    | |- context [for_each _ _ ?s] => specialize (IH s)
    end.
    cbn [win world app_table] in IH.
    rewrite <- app_assoc in IH. specialize (IH eq_refl Hlen).
    destruct (app_rows items) as [rows|e]; simpl.
    + refine (eq_trans IH _). cbn. rewrite <- app_assoc. reflexivity.
    + exact IH.
Qed.

Lemma setRowCount_length {A} (empty : A) (n : nat) (rows : list A) :
  length (setRowCount empty n rows) = n.
Proof.
  unfold setRowCount. rewrite length_app, length_take, length_replicate. lia.
Qed.

(** What [load_typos_table] does when [custom_typos] is a mapping [t]. *)
Lemma load_typos_table_eq (st : State) (d t : Dict.t) :
  config (win st) = PDict d ->
  Dict.get "custom_typos" (PDict []) d = PDict t ->
  match typo_rows t with
  | Ok rows =>
      load_typos_table st
      = Done tt {| win := set_typo_table rows (win st); world := world st |}
  | Raise e => exists st', load_typos_table st = Raised e st'
  end.
Proof.
  intros Hcfg Hget.
  unfold load_typos_table, bind, gets, lift, update. rewrite Hcfg. simpl.
  rewrite Hget. simpl.
  pose proof (typo_loop t []
    (setRowCount empty_TypoRow (Dict.len t) (typo_table (win st)))
    {| win := set_typo_table
                (setRowCount empty_TypoRow (Dict.len t) (typo_table (win st)))
                (win st);
       world := world st |} eq_refl (setRowCount_length _ _ _)) as Hloop.
  change (for_each (enumerate t) _) with
    (for_each (imap (fun i x => (length (@nil TypoRow) + i, x)%nat) t)
       typo_loop_body).
  destruct (typo_rows t) as [rows|e]; [|exact Hloop].
  rewrite Hloop. destruct st as [[cfg ec ac sc sb hk atab ttab sl si] wd]. reflexivity.
Qed.

Lemma load_applications_table_eq (st : State) (d a : Dict.t) :
  config (win st) = PDict d ->
  Dict.get "applications" (PDict []) d = PDict a ->
  match app_rows a with
  | Ok rows =>
      load_applications_table st
      = Done tt {| win := set_app_table rows (win st); world := world st |}
  | Raise e => exists st', load_applications_table st = Raised e st'
  end.
Proof.
  intros Hcfg Hget.
  unfold load_applications_table, bind, gets, lift, update. rewrite Hcfg. simpl.
  rewrite Hget. simpl.
  pose proof (app_loop a []
    (setRowCount empty_AppRow (Dict.len a) (app_table (win st)))
    {| win := set_app_table
                (setRowCount empty_AppRow (Dict.len a) (app_table (win st)))
                (win st);
       world := world st |} eq_refl (setRowCount_length _ _ _)) as Hloop.
  change (for_each (enumerate a) _) with
    (for_each (imap (fun i x => (length (@nil AppRow) + i, x)%nat) a)
       app_loop_body).
  destruct (app_rows a) as [rows|e]; [|exact Hloop].
  rewrite Hloop. destruct st as [[cfg ec ac sc sb hk atab ttab sl si] wd]. reflexivity.
Qed.

(** A table load that returns has shown a mapping. *)
Lemma load_typos_table_Done (st st' : State) :
  load_typos_table st = Done tt st' ->
  exists d t rows,
    config (win st) = PDict d
    /\ Dict.get "custom_typos" (PDict []) d = PDict t
    /\ typo_rows t = Ok rows
    /\ st' = {| win := set_typo_table rows (win st); world := world st |}.
Proof.
  intros Hrun.
  destruct (config (win st)) as [| | | |d] eqn:Hcfg;
    try (unfold load_typos_table, bind, gets, lift in Hrun;
         rewrite Hcfg in Hrun; discriminate).
  destruct (Dict.get "custom_typos" (PDict []) d) as [| | | |t] eqn:Hget;
    try (unfold load_typos_table, bind, gets, lift in Hrun;
         rewrite Hcfg in Hrun; simpl in Hrun; rewrite Hget in Hrun;
         discriminate).
  pose proof (load_typos_table_eq st d t Hcfg Hget) as Heq.
  destruct (typo_rows t) as [rows|e] eqn:Hrows.
  - rewrite Heq in Hrun. injection Hrun as <-.
    exists d, t, rows. split; [first [reflexivity|assumption]|].
    split; [first [reflexivity|assumption]|].
    split; first [reflexivity|assumption].
  - destruct Heq as (? & Heq). congruence.
Qed.

Lemma load_applications_table_Done (st st' : State) :
  load_applications_table st = Done tt st' ->
  exists d a rows,
    config (win st) = PDict d
    /\ Dict.get "applications" (PDict []) d = PDict a
    /\ app_rows a = Ok rows
    /\ st' = {| win := set_app_table rows (win st); world := world st |}.
Proof.
  intros Hrun.
  destruct (config (win st)) as [| | | |d] eqn:Hcfg;
    try (unfold load_applications_table, bind, gets, lift in Hrun;
         rewrite Hcfg in Hrun; discriminate).
  destruct (Dict.get "applications" (PDict []) d) as [| | | |a] eqn:Hget;
    try (unfold load_applications_table, bind, gets, lift in Hrun;
         rewrite Hcfg in Hrun; simpl in Hrun; rewrite Hget in Hrun;
         discriminate).
  pose proof (load_applications_table_eq st d a Hcfg Hget) as Heq.
  destruct (app_rows a) as [rows|e] eqn:Hrows.
  - rewrite Heq in Hrun. injection Hrun as <-.
    exists d, a, rows. split; [first [reflexivity|assumption]|].
    split; [first [reflexivity|assumption]|].
    split; first [reflexivity|assumption].
  - destruct Heq as (? & Heq). congruence.
Qed.

End TableLoops.

(** * Runs of [load_settings] *)

Lemma bind_gets {A B} (f : MainWindow -> A) (k : A -> M B) (st : State) :
  bind (gets f) k st = k (f (win st)) st.
Proof. reflexivity. Qed.

Lemma bind_lift_Ok {A B} (r : result A) (a : A) (k : A -> M B) (st : State) :
  r = Ok a -> bind (lift r) k st = k a st.
Proof. intros ->. reflexivity. Qed.

Lemma bind_update {B} (f : MainWindow -> MainWindow) (k : unit -> M B)
    (st : State) :
  bind (update f) k st = k tt {| win := f (win st); world := world st |}.
Proof. reflexivity. Qed.

Lemma bind_assoc_run {A B C} (m : M A) (k : A -> M B) (k' : B -> M C)
    (st : State) :
  bind (bind m k) k' st = bind m (fun a => bind (k a) k') st.
Proof. unfold bind. destruct (m st); reflexivity. Qed.

Section LoadSettingsRuns.
Context `{Platform} `{Toolkit}.

Lemma load_settings_run (st : State) (d : Dict.t) (e a s : bool) (z : Z)
    (h : string) (ad td : Dict.t) (ar : list AppRow) (tr : list TypoRow) :
  config (win st) = PDict d ->
  to_bool (Dict.get "enabled" (PBool true) d) = Ok e ->
  to_bool (Dict.get "autocorrect" (PBool true) d) = Ok a ->
  to_bool (Dict.get "smart_punctuation" (PBool true) d) = Ok s ->
  to_int (Dict.get "min_word_length" (PInt 2) d) = Ok z ->
  to_text (Dict.get "hotkey" (PStr "Super+Shift+A") d) = Ok h ->
  Dict.get "applications" (PDict []) d = PDict ad ->
  app_rows ad = Ok ar ->
  Dict.get "custom_typos" (PDict []) d = PDict td ->
  typo_rows td = Ok tr ->
  load_settings st
  = Done tt
      {| win :=
           {| config := PDict d;
              enabled_checkbox := e;
              autocorrect_checkbox := a;
              smart_punctuation_checkbox := s;
              min_word_spinbox := setValue z (min_word_spinbox (win st));
              hotkey_input := h;
              app_table := ar;
              typo_table := tr;
              status_label := status_label (win st);
              status_indicator := status_indicator (win st) |};
         world := world st |}.
Proof.
  intros Hcfg He Ha Hs Hz Hh Had Har Htd Htr.
  unfold load_settings.
  rewrite bind_gets, Hcfg. cbn [py_get].
  rewrite (bind_lift_Ok _ _ _ _ eq_refl), (bind_lift_Ok _ _ _ _ He), bind_update.
  rewrite (bind_lift_Ok _ _ _ _ eq_refl), (bind_lift_Ok _ _ _ _ Ha), bind_update.
  rewrite (bind_lift_Ok _ _ _ _ eq_refl), (bind_lift_Ok _ _ _ _ Hs), bind_update.
  rewrite (bind_lift_Ok _ _ _ _ eq_refl), (bind_lift_Ok _ _ _ _ Hz), bind_update.
  rewrite (bind_lift_Ok _ _ _ _ eq_refl), (bind_lift_Ok _ _ _ _ Hh), bind_update.
  unfold bind.
  match goal with
  | |- context [load_applications_table ?s] =>
      pose proof (load_applications_table_eq s d ad) as Happs
  end.
  rewrite Har in Happs. rewrite Happs; [|simpl; exact Hcfg|exact Had].
  match goal with
  | |- context [load_typos_table ?s] =>
      pose proof (load_typos_table_eq s d td) as Htypos
  end.
  rewrite Htr in Htypos. rewrite Htypos; [|simpl; exact Hcfg|exact Htd].
  destruct st as [[cfg ec ac sc sb hk atab ttab sl si] wd]. simpl in Hcfg. subst. reflexivity.
Qed.

Lemma load_settings_inv (st st' : State) :
  load_settings st = Done tt st' ->
  exists (d : Dict.t) (e a s : bool) (z : Z) (h : string) (ad td : Dict.t)
         (ar : list AppRow) (tr : list TypoRow),
    config (win st) = PDict d
    /\ to_bool (Dict.get "enabled" (PBool true) d) = Ok e
    /\ to_bool (Dict.get "autocorrect" (PBool true) d) = Ok a
    /\ to_bool (Dict.get "smart_punctuation" (PBool true) d) = Ok s
    /\ to_int (Dict.get "min_word_length" (PInt 2) d) = Ok z
    /\ to_text (Dict.get "hotkey" (PStr "Super+Shift+A") d) = Ok h
    /\ Dict.get "applications" (PDict []) d = PDict ad
    /\ app_rows ad = Ok ar
    /\ Dict.get "custom_typos" (PDict []) d = PDict td
    /\ typo_rows td = Ok tr.
Proof.
  unfold load_settings. intros Hrun.
  do 2 run_step Hrun.
  destruct (config (win st)) as [| | | |d] eqn:Hcfg; try discriminate.
  simpl in Hhead. injection Hhead as <-.
  do 14 run_step Hrun.
  simpl in *. simplify_eq.
  apply bind_Done in Hrun as ([] & st1 & Happs & Htypos).
  apply load_applications_table_Done in Happs
    as (d1 & ad & ar & Hc1 & Had & Har & ->).
  apply load_typos_table_Done in Htypos
    as (d2 & td & tr & Hc2 & Htd & Htr & _).
  simpl in Hc1, Hc2. rewrite Hcfg in Hc1, Hc2. simplify_eq.
  eexists _, _, _, _, _, _, _, _, _, _.
  repeat (split; [first [reflexivity|eassumption]|]). eassumption.
Qed.

End LoadSettingsRuns.

(** * Runs of [save_configuration] and of the service methods *)

Section SaveAndServiceRuns.
Context `{Platform} `{Toolkit}.

Lemma update_status_eq (st : State) :
  update_status st = Done tt (status_updated st).
Proof.
  unfold update_status, status_updated, status_shown, try_except, bind,
    subprocess_run.
  destruct (service_manager (world st) status_call) as [rc out err|e]; simpl.
  - destruct (rc =? 0)%Z; reflexivity.
  - reflexivity.
Qed.

Lemma service_method_success (verb title done : string) (st : State)
    (out err : string) :
  service_manager (world st) (service_call verb) = Exited 0 out err ->
  service_method verb title done st
  = Done tt (service_announced verb title done st).
Proof.
  intros Hout. unfold service_method, try_except, bind, subprocess_run.
  rewrite Hout. simpl. rewrite update_status_eq. reflexivity.
Qed.

Lemma service_method_spawn_failure (verb title done : string) (st : State)
    (e : exn) :
  service_manager (world st) (service_call verb) = SpawnFailed e ->
  is_CalledProcessError e = false ->
  service_method verb title done st
  = Raised e {| win := win st;
                world := add_spawned (service_call verb) (world st) |}.
Proof.
  intros Hout He. unfold service_method, try_except, bind, subprocess_run.
  rewrite Hout. destruct e; try discriminate; reflexivity.
Qed.

(** What [save_configuration] does once the tables have been read. *)
Lemma save_configuration_eq (st : State) (d apps typos : Dict.t) :
  config (win st) = PDict d ->
  read_apps (app_table (win st)) [] = Ok apps ->
  read_typos (typo_table (win st)) [] = Ok typos ->
  save_configuration st
  = let config' := PDict (config_from_widgets (win st) apps typos d) in
    match save_config config' (disk (world st)) with
    | Written fs' =>
        restart_service
          {| win := set_config config' (win st);
             world := add_dialog saved_dialog (set_disk fs' (world st)) |}
    | Failed e fs' =>
        Raised e {| win := set_config config' (win st);
                    world := set_disk fs' (world st) |}
    end.
Proof.
  intros Hcfg Happs Htypos. unfold save_configuration, setitem.
  destruct st as [[cfg ec ac sc sb hk atab ttab sl si] wd]. simpl in Hcfg, Happs, Htypos. subst.
  repeat (rewrite bind_gets || rewrite bind_update || rewrite bind_assoc_run
          || (rewrite (bind_lift_Ok _ _ _ _ eq_refl))
          || (rewrite (bind_lift_Ok _ _ _ _ Happs))
          || (rewrite (bind_lift_Ok _ _ _ _ Htypos))
          || cbn [win world config py_setitem set_config
                  enabled_checkbox autocorrect_checkbox
                  smart_punctuation_checkbox
                  min_word_spinbox hotkey_input
                  app_table typo_table]).
  unfold bind at 1. unfold config_manager_save_config.
  cbn [win world config disk].
  unfold config_from_widgets. cbn [win world config py_setitem set_config
                  enabled_checkbox autocorrect_checkbox
                  smart_punctuation_checkbox
                  min_word_spinbox hotkey_input
                  app_table typo_table].
  destruct (save_config _ _); reflexivity.
Qed.

End SaveAndServiceRuns.

(** * An invariant of the window *)

Section WindowInvariant.
Context `{Platform} `{Toolkit}.

Lemma read_apps_complete (rows : list AppRow) (acc : Dict.t) :
  Forall (fun r => app_row_complete r = true) rows ->
  exists apps, read_apps rows acc = Ok apps.
Proof.
  intros Hrows. revert acc.
  induction Hrows as [|r rows Hr _ IH]; intros acc; simpl.
  - eauto.
  - destruct r as [[n|] [e|] [s|] [a|]]; try discriminate. simpl. apply IH.
Qed.

Lemma read_typos_complete (rows : list TypoRow) (acc : Dict.t) :
  Forall (fun r => typo_row_complete r = true) rows ->
  exists typos, read_typos rows acc = Ok typos.
Proof.
  intros Hrows. revert acc.
  induction Hrows as [|r rows Hr _ IH]; intros acc; simpl.
  - eauto.
  - destruct r as [[t|] [c|]]; try discriminate. simpl. apply IH.
Qed.

Lemma app_rows_complete (items : list (string * PyVal)) (rows : list AppRow) :
  app_rows items = Ok rows -> Forall (fun r => app_row_complete r = true) rows.
Proof.
  revert rows. induction items as [|[n c] items IH]; intros rows; simpl.
  - intros [= <-]. constructor.
  - unfold app_row_for.
    destruct (py_get c "enabled" (PBool true)) as [v1|]; [|discriminate]. simpl.
    destruct (to_bool v1); [|discriminate]. simpl.
    destruct (py_get c "smart_quotes" (PBool true)) as [v2|]; [|discriminate].
    simpl. destruct (to_bool v2); [|discriminate]. simpl.
    destruct (py_get c "autocorrect" (PBool true)) as [v3|]; [|discriminate].
    simpl. destruct (to_bool v3); [|discriminate]. simpl.
    destruct (app_rows items) as [rows'|]; [|discriminate]. simpl.
    intros [= <-]. constructor; [reflexivity|]. apply IH. reflexivity.
Qed.

Lemma typo_rows_complete (items : list (string * PyVal))
    (rows : list TypoRow) :
  typo_rows items = Ok rows ->
  Forall (fun r => typo_row_complete r = true) rows.
Proof.
  revert rows. induction items as [|[t c] items IH]; intros rows; simpl.
  - intros [= <-]. constructor.
  - destruct (to_item_text c); [|discriminate]. simpl.
    destruct (typo_rows items) as [rows'|]; [|discriminate]. simpl.
    intros [= <-]. constructor; [reflexivity|]. apply IH. reflexivity.
Qed.

Lemma load_settings_window_ok (st st' : State) :
  load_settings st = Done tt st' -> window_ok (win st').
Proof.
  intros Hrun. pose proof Hrun as Hinv.
  apply load_settings_inv in Hinv
    as (d & e & a & s & z & h & ad & td & ar & tr & Hcfg & He & Ha & Hs & Hz
        & Hh & Had & Har & Htd & Htr).
  rewrite (load_settings_run st d e a s z h ad td ar tr) in Hrun by assumption.
  injection Hrun as <-. split; [reflexivity|]. simpl. split.
  - eapply app_rows_complete; eassumption.
  - eapply typo_rows_complete; eassumption.
Qed.

(** The handlers that leave the configuration and both tables alone. *)
Lemma dispatch_keeps_tables (ev : Event) :
  match ev with
  | ClickSave | ClickCancel | TrayToggle | ClickAddApplication _ _
  | ClickRemoveApplication _ | ClickAddTypo _ _ _ _ | ClickRemoveTypo _
  | EditAppName _ _ | CheckAppCell _ _ _ | EditTypoCell _ _ _ => True
  | _ => keeps (fun st => (config (win st), app_table (win st),
                           typo_table (win st))) (dispatch ev)
  end.
Proof. destruct ev; try exact I; solve_keeps. Qed.

Lemma save_configuration_keeps_tables :
  keeps (fun st => (app_table (win st), typo_table (win st)))
    save_configuration.
Proof. solve_keeps. Qed.

Lemma save_configuration_window_ok (st st' : State) :
  window_ok (win st) -> save_configuration st = Done tt st' ->
  window_ok (win st').
Proof.
  intros (_ & Ha & Ht) Hrun.
  pose proof (save_configuration_keeps_tables _ st eq_refl) as Hkeep.
  rewrite Hrun in Hkeep. injection Hkeep as Hka Hkt.
  apply save_configuration_Done in Hrun
    as (d & apps & typos & _ & _ & _ & Hcfg & _).
  split; [rewrite Hcfg; reflexivity|]. rewrite Hka, Hkt. split; assumption.
Qed.

Lemma set_app_widget_complete (col : nat) (b : bool) (r : AppRow) :
  app_row_complete r = true -> app_row_complete (set_app_widget col b r) = true.
Proof.
  destruct r as [[n|] [e|] [s|] [a|]]; try discriminate. intros _.
  destruct col as [|[|[|[|col]]]]; reflexivity.
Qed.

Lemma set_typo_cell_complete (col : nat) (s : string) (r : TypoRow) :
  typo_row_complete r = true -> typo_row_complete (set_typo_cell col s r) = true.
Proof.
  destruct r as [[t|] [c|]]; try discriminate. intros _.
  destruct col as [|[|col]]; reflexivity.
Qed.

Lemma set_app_item_complete (s : string) (r : AppRow) :
  app_row_complete r = true -> app_row_complete (set_app_item s r) = true.
Proof. destruct r as [[n|] [e|] [s'|] [a|]]; try discriminate. reflexivity. Qed.

(** What [add_application] and [add_typo] do to the tables. *)
Lemma add_application_eq (app_name : string) (ok : bool) (st : State) :
  add_application app_name ok st
  = Done tt
      (if ok && nonempty app_name then
         {| win := set_app_table
                     (app_table (win st)
                        ++ [{| app_item := Some app_name;
                               enabled_widget := Some true;
                               smart_quotes_widget := Some true;
                               autocorrect_widget := Some true |}])
                     (win st);
            world := world st |}
       else st).
Proof.
  unfold add_application. destruct (ok && nonempty app_name); [|reflexivity].
  destruct st as [[cfg ec ac sc sb hk atab ttab sl si] wd].
  unfold for_each. unfold bind, gets, update, insertRow. simpl.
  rewrite Nat.leb_refl, take_ge, drop_ge by lia. simpl.
  rewrite <- (Nat.add_0_r (length atab)).
  rewrite !alter_app_r. simpl. reflexivity.
Qed.

Lemma add_typo_eq (typo : string) (ok1 : bool) (correction : string)
    (ok2 : bool) (st : State) :
  add_typo typo ok1 correction ok2 st
  = Done tt
      (if ok1 && nonempty typo && (ok2 && nonempty correction) then
         {| win := set_typo_table
                     (typo_table (win st) ++ [typo_row (typo, correction)])
                     (win st);
            world := world st |}
       else st).
Proof.
  unfold add_typo. destruct (ok1 && nonempty typo); [|reflexivity].
  destruct (ok2 && nonempty correction); [|reflexivity].
  destruct st as [[cfg ec ac sc sb hk atab ttab sl si] wd].
  unfold bind, gets, update, insertRow. simpl.
  rewrite Nat.leb_refl, take_ge, drop_ge by lia. simpl.
  rewrite <- (Nat.add_0_r (length ttab)).
  rewrite !alter_app_r. simpl. reflexivity.
Qed.

Lemma dispatch_window_ok (ev : Event) (st st' : State) :
  window_ok (win st) -> dispatch ev st = Done tt st' -> window_ok (win st').
Proof.
  intros Hok Hrun.
  pose proof (dispatch_keeps_tables ev) as Hkeep.
  destruct ev;
    try (specialize (Hkeep _ st eq_refl); rewrite Hrun in Hkeep;
         injection Hkeep as Hc Ha Ht; unfold window_ok;
         rewrite Hc, Ha, Ht; exact Hok);
    clear Hkeep; simpl in Hrun.
  - eapply save_configuration_window_ok; eassumption.
  - eapply load_settings_window_ok; eassumption.
  - unfold toggle_smarttype in Hrun.
    rewrite bind_gets, bind_update in Hrun.
    eapply save_configuration_window_ok; [|exact Hrun]. exact Hok.
  - rewrite add_application_eq in Hrun. injection Hrun as <-.
    destruct (ok && nonempty app_name); [|exact Hok].
    destruct Hok as (Hc & Ha & Ht). split; [exact Hc|]. split; [|exact Ht].
    simpl. apply Forall_app. split; [exact Ha|]. repeat constructor.
  - unfold remove_application in Hrun.
    destruct (0 <=? current_row)%Z; injection Hrun as <-; [|exact Hok].
    destruct Hok as (Hc & Ha & Ht). split; [exact Hc|]. split; [|exact Ht].
    simpl. unfold removeRow. apply Forall_delete. exact Ha.
  - rewrite add_typo_eq in Hrun. injection Hrun as <-.
    destruct (ok1 && nonempty typo && (ok2 && nonempty correction));
      [|exact Hok].
    destruct Hok as (Hc & Ha & Ht). split; [exact Hc|]. split; [exact Ha|].
    simpl. apply Forall_app. split; [exact Ht|]. repeat constructor.
  - unfold remove_typo in Hrun.
    destruct (0 <=? current_row)%Z; injection Hrun as <-; [|exact Hok].
    destruct Hok as (Hc & Ha & Ht). split; [exact Hc|]. split; [exact Ha|].
    simpl. unfold removeRow. apply Forall_delete. exact Ht.
  - injection Hrun as <-.
    destruct Hok as (Hc & Ha & Ht). split; [exact Hc|]. split; [|exact Ht].
    simpl. apply Forall_alter; [exact Ha|].
    intros r _. apply set_app_item_complete.
  - injection Hrun as <-.
    destruct Hok as (Hc & Ha & Ht). split; [exact Hc|]. split; [|exact Ht].
    simpl. apply Forall_alter; [exact Ha|].
    intros r _. apply set_app_widget_complete.
  - injection Hrun as <-.
    destruct Hok as (Hc & Ha & Ht). split; [exact Hc|]. split; [exact Ha|].
    simpl. apply Forall_alter; [exact Ht|].
    intros r _. apply set_typo_cell_complete.
Qed.

(** In every state the window can reach, the configuration is a mapping and
    the tables have no unset cell. *)
Lemma reachable_window_ok (st : State) : reachable st -> window_ok (win st).
Proof.
  induction 1 as [w st Hinit|st ev st' _ IH Hrun|st w _ IH].
  - unfold MainWindow_init in Hinit.
    destruct (load_config (disk w)) as [config|e]; [|discriminate].
    eapply load_settings_window_ok. exact Hinit.
  - eapply dispatch_window_ok; eassumption.
  - exact IH.
Qed.

End WindowInvariant.

(** * The configuration written from the widgets *)

Module MoreDictFacts.

Lemma set_fresh (k : string) (v : PyVal) (d : Dict.t) :
  k ∉ Dict.keys d -> Dict.set k v d = d ++ [(k, v)].
Proof.
  unfold Dict.keys. induction d as [|[k' v'] d IH]; simpl; intros Hout.
  - reflexivity.
  - apply not_elem_of_cons in Hout as [Hne Hout].
    apply String.eqb_neq in Hne. rewrite Hne, IH by exact Hout. reflexivity.
Qed.

Lemma set_same (k : string) (v : PyVal) (d : Dict.t) :
  Dict.lookup k d = Some v -> Dict.set k v d = d.
Proof.
  induction d as [|[k' v'] d IH]; simpl.
  - discriminate.
  - destruct (String.eqb k k') eqn:E.
    + intros [= ->]. reflexivity.
    + intros Hl. rewrite IH by exact Hl. reflexivity.
Qed.

Lemma keys_set_elem (k k' : string) (v : PyVal) (d : Dict.t) :
  k' ∈ Dict.keys (Dict.set k v d) <-> k' = k \/ k' ∈ Dict.keys d.
Proof.
  destruct (decide (k ∈ Dict.keys d)) as [Hin|Hout].
  - rewrite DictFacts.keys_set_old by exact Hin. split; [auto|].
    intros [->|?]; assumption.
  - rewrite DictFacts.keys_set_new by exact Hout.
    rewrite elem_of_app, list_elem_of_singleton. tauto.
Qed.

End MoreDictFacts.

Ltac lookup_widgets_config :=
  unfold Dict.get, config_from_widgets;
  rewrite ?DictFacts.lookup_set_ne by discriminate;
  rewrite DictFacts.lookup_set_eq.

Lemma lookup_config_from_widgets (w : MainWindow) (apps typos d : Dict.t) :
  let d' := config_from_widgets w apps typos d in
  Dict.lookup "enabled" d' = Some (PBool (enabled_checkbox w))
  /\ Dict.lookup "autocorrect" d' = Some (PBool (autocorrect_checkbox w))
  /\ Dict.lookup "smart_punctuation" d'
     = Some (PBool (smart_punctuation_checkbox w))
  /\ Dict.lookup "min_word_length" d'
     = Some (PInt (value (min_word_spinbox w)))
  /\ Dict.lookup "hotkey" d' = Some (PStr (hotkey_input w))
  /\ Dict.lookup "applications" d' = Some (PDict apps)
  /\ Dict.lookup "custom_typos" d' = Some (PDict typos).
Proof.
  simpl. repeat split; lookup_widgets_config; reflexivity.
Qed.

(** Assigning the widgets a second time changes nothing. *)
Lemma config_from_widgets_again (w : MainWindow) (apps typos d : Dict.t) :
  config_from_widgets w apps typos (config_from_widgets w apps typos d)
  = config_from_widgets w apps typos d.
Proof.
  destruct (lookup_config_from_widgets w apps typos d)
    as (He & Ha & Hs & Hm & Hh & Hap & Hty).
  set (d' := config_from_widgets w apps typos d) in *.
  unfold config_from_widgets at 1.
  rewrite (MoreDictFacts.set_same "enabled") by exact He.
  rewrite (MoreDictFacts.set_same "autocorrect") by exact Ha.
  rewrite (MoreDictFacts.set_same "smart_punctuation") by exact Hs.
  rewrite (MoreDictFacts.set_same "min_word_length") by exact Hm.
  rewrite (MoreDictFacts.set_same "hotkey") by exact Hh.
  rewrite (MoreDictFacts.set_same "applications") by exact Hap.
  rewrite (MoreDictFacts.set_same "custom_typos") by exact Hty.
  reflexivity.
Qed.

Section TablesReadBack.
Context `{Platform} `{Toolkit}.

(** ** Tables read back *)

Lemma read_apps_fresh (rows : list AppRow) (acc apps : Dict.t) :
  read_apps rows acc = Ok apps ->
  NoDup (map app_item rows) ->
  (forall r n, r ∈ rows -> app_item r = Some n -> n ∉ Dict.keys acc) ->
  exists items, apps = acc ++ items /\ app_rows items = Ok rows.
Proof.
  revert acc. induction rows as [|r rows IH]; intros acc Hread Hnd Hfresh.
  - injection Hread as <-. exists []. rewrite app_nil_r. split; reflexivity.
  - destruct r as [[n|] [e|] [s|] [a|]]; try discriminate.
    simpl in Hread, Hnd. apply NoDup_cons in Hnd as [Hn Hnd].
    rewrite MoreDictFacts.set_fresh in Hread.
    2:{ eapply Hfresh; [apply list_elem_of_here|reflexivity]. }
    destruct (IH _ Hread Hnd) as (items & -> & Hrows).
    { intros r' n' Hr' Hn'. unfold Dict.keys. rewrite map_app.
      intros [Hin|Hin%list_elem_of_singleton]%elem_of_app.
      - eapply Hfresh; [apply list_elem_of_further; exact Hr'|exact Hn'|].
        exact Hin.
      - simpl in Hin. subst n'. apply Hn. rewrite <- Hn'.
        apply (list_elem_of_fmap_2 app_item). exact Hr'. }
    eexists. split; [rewrite <- app_assoc; reflexivity|].
    simpl. unfold app_row_for. cbn [py_get Dict.get Dict.lookup String.eqb
      Ascii.eqb Bool.eqb rbind].
    rewrite !to_bool_PBool. cbn [rbind]. rewrite Hrows. reflexivity.
Qed.

Lemma read_typos_fresh (rows : list TypoRow) (acc typos : Dict.t) :
  read_typos rows acc = Ok typos ->
  NoDup (map typo_item rows) ->
  (forall r n, r ∈ rows -> typo_item r = Some n -> n ∉ Dict.keys acc) ->
  exists items, typos = acc ++ items /\ typo_rows items = Ok rows.
Proof.
  revert acc. induction rows as [|r rows IH]; intros acc Hread Hnd Hfresh.
  - injection Hread as <-. exists []. rewrite app_nil_r. split; reflexivity.
  - destruct r as [[n|] [c|]]; try discriminate.
    simpl in Hread, Hnd. apply NoDup_cons in Hnd as [Hn Hnd].
    rewrite MoreDictFacts.set_fresh in Hread.
    2:{ eapply Hfresh; [apply list_elem_of_here|reflexivity]. }
    destruct (IH _ Hread Hnd) as (items & -> & Hrows).
    { intros r' n' Hr' Hn'. unfold Dict.keys. rewrite map_app.
      intros [Hin|Hin%list_elem_of_singleton]%elem_of_app.
      - eapply Hfresh; [apply list_elem_of_further; exact Hr'|exact Hn'|].
        exact Hin.
      - simpl in Hin. subst n'. apply Hn. rewrite <- Hn'.
        apply (list_elem_of_fmap_2 typo_item). exact Hr'. }
    eexists. split; [rewrite <- app_assoc; reflexivity|].
    simpl. rewrite to_item_text_PStr. cbn [rbind]. rewrite Hrows. reflexivity.
Qed.

Lemma save_configuration_keeps_widgets :
  keeps (fun st => (settings_widgets (win st), service_manager (world st)))
    save_configuration.
Proof. unfold settings_widgets. solve_keeps. Qed.

Lemma setValue_value (sb : QSpinBox) :
  spin_in_range sb -> setValue (value sb) sb = sb.
Proof.
  intros (Hmin & Hmax & Hval). destruct sb as [lo hi v]. simpl in *. subst.
  unfold setValue, bound. simpl. f_equal. lia.
Qed.

End TablesReadBack.

(** * Saving in a state the window can reach *)

Section SaveInReachableStates.
Context `{Platform} `{Toolkit}.

Lemma save_config_Written_dirs (config : PyVal) (fs fs' : gmap path node) :
  save_config config fs = Written fs' ->
  dirs_from [] config_dir fs' = true.
Proof.
  intros Hw.
  destruct (file_in_the_way [] config_dir fs) eqn:Hway.
  { destruct (save_config_blocked config fs Hway) as [Hf|Hf];
      rewrite Hf in Hw; discriminate. }
  assert (Hcases : fs !! config_file = Some Dir
                   \/ fs !! config_file <> Some Dir).
  { destruct (fs !! config_file) as [[?|]|]; auto; right; discriminate. }
  destruct Hcases as [Hdir|Hndir].
  - exfalso. destruct (mkdir_from_clear [] config_dir fs Hway) as (fs1 & Hm & _).
    unfold save_config, save_config_steps in Hw. simpl in Hw.
    unfold mkdir_parents in Hw. rewrite Hm in Hw.
    assert (Hfile1 : fs1 !! config_file = Some Dir).
    { eapply mkdir_from_mono; eassumption. }
    unfold open_write in Hw. rewrite node_at_config_file, Hfile1 in Hw.
    discriminate.
  - destruct (save_config_clear config fs Hway Hndir) as (fs2 & Hw2 & Hd & _).
    rewrite Hw in Hw2. injection Hw2 as <-. exact Hd.
Qed.

(** What a service method does, by the answer of the service manager. *)
Lemma service_method_returns (verb title done : string) (st : State) :
  spawn_raises (service_manager (world st) (service_call verb)) = false ->
  exists st', service_method verb title done st = Done tt st'.
Proof.
  intros Ho. unfold service_method, try_except, bind, subprocess_run.
  destruct (service_manager (world st) (service_call verb)) as [rc out err|e].
  - simpl. destruct (rc =? 0)%Z; simpl.
    + rewrite update_status_eq. eauto.
    + eauto.
  - destruct e; try discriminate. simpl. eauto.
Qed.

Lemma service_method_raises (verb title done : string) (st : State) :
  spawn_raises (service_manager (world st) (service_call verb)) = true ->
  exists e st', service_method verb title done st = Raised e st'.
Proof.
  intros Ho. unfold service_method, try_except, bind, subprocess_run.
  destruct (service_manager (world st) (service_call verb)) as [rc out err|e];
    [discriminate|].
  destruct e; try discriminate; simpl; eauto.
Qed.

Lemma restart_service_keeps :
  keeps (fun st => (config (win st), settings_widgets (win st),
                    disk (world st), service_manager (world st)))
    restart_service.
Proof. unfold settings_widgets. solve_keeps. Qed.

Lemma set_disk_same (w : World) : set_disk (disk w) w = w.
Proof. destruct w; reflexivity. Qed.

(** ** Saving in a state the window can reach *)

Lemma reachable_save_configuration_eq (st : State) :
  reachable st ->
  exists d apps typos,
    config (win st) = PDict d
    /\ save_configuration st
       = let config' := PDict (config_from_widgets (win st) apps typos d) in
         match save_config config' (disk (world st)) with
         | Written fs' =>
             restart_service
               {| win := set_config config' (win st);
                  world := add_dialog saved_dialog (set_disk fs' (world st)) |}
         | Failed e fs' =>
             Raised e {| win := set_config config' (win st);
                         world := set_disk fs' (world st) |}
         end.
Proof.
  intros (Hmap & Ha & Ht)%reachable_window_ok.
  destruct (config (win st)) as [| | | |d] eqn:Hcfg; try discriminate.
  destruct (read_apps_complete _ [] Ha) as (apps & Happs).
  destruct (read_typos_complete _ [] Ht) as (typos & Htypos).
  exists d, apps, typos. split; [reflexivity|].
  apply save_configuration_eq; assumption.
Qed.

End SaveInReachableStates.

(** * Further properties of the panel *)

Section FurtherProperties.
Context `{Platform} `{Toolkit}.

(** ** Saving to a fresh or a blocked home *)


(** X2: whether it returns or raises, [save_config] changes no path other
    than the configuration file, except that a path that did not exist may
    have become a directory, and then it is the configuration directory or
    one of its ancestors.  Nothing else is created, overwritten or removed. *)
Theorem save_config_touches_only_its_paths (config : PyVal)
    (fs : gmap path node) (p : list string) :
  p <> config_file ->
  io_disk (save_config config fs) !! p = fs !! p
  \/ (fs !! p = None /\ io_disk (save_config config fs) !! p = Some Dir
      /\ p `prefix_of` config_dir).
Proof. apply save_config_frame. Qed.

(** X3: in a state the window can reach, when a regular file stands where
    a directory is needed on the way to the configuration directory,
    [save_configuration] raises [FileExistsError] or [NotADirectoryError]
    out of [mkdir]; no dialog is shown, no command is run and the disk is as
    before, but the configuration held in memory has already been assigned
    from the widgets. *)
Theorem save_configuration_blocked_by_file (st : State) :
  reachable st ->
  file_in_the_way [] config_dir (disk (world st)) = true ->
  exists e st',
    save_configuration st = Raised e st'
    /\ (e = FileExistsError \/ e = NotADirectoryError)
    /\ world st' = world st
    /\ config_lookup "enabled" (config (win st'))
       = Some (PBool (enabled_checkbox (win st))).
Proof.
  intros (d & apps & typos & Hcfg & Heq)%reachable_save_configuration_eq Hway.
  rewrite Heq. cbv zeta.
  destruct (save_config_blocked
              (PDict (config_from_widgets (win st) apps typos d))
              (disk (world st)) Hway) as [-> | ->];
    eexists _, _; (split; [reflexivity|]); (split; [auto|]);
    (split; [apply set_disk_same|]); simpl;
    apply lookup_config_from_widgets.
Qed.

(** ** A file that is not a mapping *)

(** X4: when the configuration file parses to something that is not a
    mapping (an empty file gives [None]), the construction of the window
    fails with [AttributeError] at the first [config.get] of
    [load_settings]. *)
Theorem init_fails_on_non_mapping (w : World) (content : string) (v : PyVal) :
  disk w !! config_file = Some (File content) ->
  safe_load content = Ok v ->
  is_mapping v = false ->
  MainWindow_init w = Raised AttributeError {| win := init_ui v; world := w |}.
Proof.
  intros Hfile Hyaml Hv. unfold MainWindow_init.
  rewrite (load_config_file _ content Hfile), Hyaml.
  destruct v; try discriminate; reflexivity.
Qed.

(** ** The tables show the mapping *)

Lemma typo_rows_entries (entries : list (string * string)) :
  typo_rows (map typo_entry entries) = Ok (map typo_row entries).
Proof.
  induction entries as [|[t c] entries IH]; simpl.
  - reflexivity.
  - rewrite to_item_text_PStr. simpl. rewrite IH. reflexivity.
Qed.

(** X6: when [custom_typos] is a mapping from strings to strings,
    [load_typos_table] returns and the table has exactly one row per entry,
    in the order of the mapping, whatever rows the table held before;
    nothing else changes. *)
Theorem load_typos_table_shows_entries (st : State) (d : Dict.t)
    (entries : list (string * string)) :
  config (win st) = PDict d ->
  Dict.lookup "custom_typos" d = Some (PDict (map typo_entry entries)) ->
  load_typos_table st
  = Done tt {| win := set_typo_table (map typo_row entries) (win st);
               world := world st |}.
Proof.
  intros Hcfg Hl.
  pose proof (load_typos_table_eq st d (map typo_entry entries) Hcfg) as Heq.
  rewrite typo_rows_entries in Heq. apply Heq.
  unfold Dict.get. rewrite Hl. reflexivity.
Qed.

Lemma flag_ok_shown (k : string) (a : Dict.t) :
  flag_ok k a = true ->
  to_bool (Dict.get k (PBool true) a) = Ok (flag_shown k a).
Proof.
  unfold flag_ok, flag_shown, Dict.get.
  destruct (Dict.lookup k a) as [[]|]; try discriminate; intros _;
    apply to_bool_PBool.
Qed.

Lemma app_rows_entries (apps : list (string * Dict.t)) :
  forallb flags_ok apps = true ->
  app_rows (map app_entry apps) = Ok (map shown_app_row apps).
Proof.
  induction apps as [|[n a] apps IH]; simpl.
  - reflexivity.
  - intros [Hok Hrest]%andb_prop. unfold flags_ok in Hok. simpl in Hok.
    apply andb_prop in Hok as [[He Hs]%andb_prop Ha].
    unfold app_row_for. cbn [py_get rbind].
    rewrite (flag_ok_shown _ _ He). cbn [rbind].
    rewrite (flag_ok_shown _ _ Hs). cbn [rbind].
    rewrite (flag_ok_shown _ _ Ha). cbn [rbind].
    rewrite (IH Hrest). reflexivity.
Qed.

(** X7: when [applications] is a mapping whose entries are mappings with
    boolean flags, [load_applications_table] returns and the table has one
    row per application, in the order of the mapping; a flag that an entry
    does not have shows as checked. *)
Theorem load_applications_table_shows_entries (st : State) (d : Dict.t)
    (apps : list (string * Dict.t)) :
  config (win st) = PDict d ->
  Dict.lookup "applications" d = Some (PDict (map app_entry apps)) ->
  forallb flags_ok apps = true ->
  load_applications_table st
  = Done tt {| win := set_app_table (map shown_app_row apps) (win st);
               world := world st |}.
Proof.
  intros Hcfg Hl Hok.
  pose proof (load_applications_table_eq st d (map app_entry apps) Hcfg)
    as Heq.
  rewrite (app_rows_entries _ Hok) in Heq. apply Heq.
  unfold Dict.get. rewrite Hl. reflexivity.
Qed.

(** ** Cancel *)

(** X8: when no two rows of a table carry the same name, pressing Cancel
    ([load_settings]) right after a Save that returned changes nothing: the
    widgets read back from the saved configuration are the ones that were
    saved. *)
Theorem cancel_after_save_changes_nothing (st st' : State) :
  spin_in_range (min_word_spinbox (win st)) ->
  NoDup (map app_item (app_table (win st))) ->
  NoDup (map typo_item (typo_table (win st))) ->
  save_configuration st = Done tt st' ->
  load_settings st' = Done tt st'.
Proof.
  intros Hspin Hnda Hndt Hrun.
  pose proof (save_configuration_keeps_widgets _ st eq_refl) as Hkeep.
  rewrite Hrun in Hkeep. injection Hkeep as He Ha Hs Hm Hh Hat Htt _.
  apply save_configuration_Done in Hrun
    as (d & apps & typos & Hcfg & Happs & Htypos & Hcfg' & _).
  destruct (read_apps_fresh _ _ _ Happs Hnda) as (ia & -> & Hia).
  { intros ? ? _ _ Hin. inversion Hin. }
  destruct (read_typos_fresh _ _ _ Htypos Hndt) as (it & -> & Hit).
  { intros ? ? _ _ Hin. inversion Hin. }
  simpl in Hcfg'.
  change (config (win st') = PDict (config_from_widgets (win st) ia it d))
    in Hcfg'.
  destruct (lookup_config_from_widgets (win st) ia it d)
    as (Le & La & Ls & Lm & Lh & Lap & Lty).
  rewrite (load_settings_run st' _
             (enabled_checkbox (win st)) (autocorrect_checkbox (win st))
             (smart_punctuation_checkbox (win st))
             (value (min_word_spinbox (win st))) (hotkey_input (win st))
             ia it (app_table (win st)) (typo_table (win st)) Hcfg').
  2-10: try unfold Dict.get.
  2: rewrite Le; apply to_bool_PBool.
  2: rewrite La; apply to_bool_PBool.
  2: rewrite Ls; apply to_bool_PBool.
  2: rewrite Lm; apply to_int_PInt; destruct Hspin as (_ & _ & ?); lia.
  2: rewrite Lh; apply to_text_PStr.
  2: rewrite Lap; reflexivity.
  2: exact Hia.
  2: rewrite Lty; reflexivity.
  2: exact Hit.
  rewrite <- Hcfg', Hm, (setValue_value _ Hspin).
  rewrite <- He, <- Ha, <- Hs, <- Hm, <- Hh, <- Hat, <- Htt.
  destruct st' as [[cfg ec ac sc sb hk atab ttab sl si] wd]. reflexivity.
Qed.

(** X9: what [load_settings] shows depends only on the configuration and
    on the range of the spin box, not on what the widgets held: from any
    state with the same configuration and range it returns as well, with
    the same settings widgets and the same configuration. *)
Theorem cancel_discards_edits (st1 st1' st2 : State) :
  config (win st2) = config (win st1) ->
  minimum (min_word_spinbox (win st2)) = minimum (min_word_spinbox (win st1)) ->
  maximum (min_word_spinbox (win st2)) = maximum (min_word_spinbox (win st1)) ->
  load_settings st1 = Done tt st1' ->
  exists st2',
    load_settings st2 = Done tt st2'
    /\ settings_widgets (win st2') = settings_widgets (win st1')
    /\ config (win st2') = config (win st1').
Proof.
  intros Hc Hmin Hmax Hrun. pose proof Hrun as Hinv.
  apply load_settings_inv in Hinv
    as (d & e & a & s & z & h & ad & td & ar & tr & Hcfg & He & Ha & Hs & Hz
        & Hh & Had & Har & Htd & Htr).
  rewrite (load_settings_run st1 d e a s z h ad td ar tr) in Hrun by assumption.
  injection Hrun as <-.
  rewrite <- Hc in Hcfg.
  eexists. split.
  - apply (load_settings_run st2 d e a s z h ad td ar tr); assumption.
  - split; [|reflexivity]. unfold settings_widgets. simpl.
    unfold setValue. rewrite Hmin, Hmax. reflexivity.
Qed.

(** ** Save with and without a service manager *)


(** X11: in a state the window can reach, when the service manager cannot
    be run (the call raises something other than [CalledProcessError], as
    [FileNotFoundError] for a missing binary), [save_configuration] raises
    that exception, after it has written the file and told the user that
    the configuration has been saved. *)
Theorem save_configuration_without_service_manager (st : State) (e : exn) :
  reachable st ->
  file_in_the_way [] config_dir (disk (world st)) = false ->
  disk (world st) !! config_file <> Some Dir ->
  service_manager (world st) (service_call "restart") = SpawnFailed e ->
  is_CalledProcessError e = false ->
  exists st',
    save_configuration st = Raised e st'
    /\ disk (world st') !! config_file = Some (File (dump (config (win st'))))
    /\ dialogs (world st') = dialogs (world st) ++ [saved_dialog]
    /\ spawned (world st') = spawned (world st) ++ [service_call "restart"].
Proof.
  intros (d & apps & typos & Hcfg & Heq)%reachable_save_configuration_eq
    Hway Hfile Hout He.
  rewrite Heq. cbv zeta.
  destruct (save_config_clear
              (PDict (config_from_widgets (win st) apps typos d))
              (disk (world st)) Hway Hfile) as (fs' & -> & _ & Hwritten).
  unfold restart_service.
  erewrite service_method_spawn_failure by (simpl; eassumption).
  eexists. split; [reflexivity|]. simpl. split; [exact Hwritten|].
  split; reflexivity.
Qed.

(** ** The service methods *)

(** X16: when the service manager answers the command with exit status 0,
    each of [start_service], [stop_service] and [restart_service] shows its
    information dialog and then queries the status, which the header shows. *)
Theorem service_success_is_announced (st : State) (out err : string) :
  (forall verb,
     service_manager (world st) (service_call verb) = Exited 0 out err) ->
  start_service st
  = Done tt (service_announced "start" "Service Started"
               "SmartType service has been started." st)
  /\ stop_service st
     = Done tt (service_announced "stop" "Service Stopped"
                  "SmartType service has been stopped." st)
  /\ restart_service st
     = Done tt (service_announced "restart" "Service Restarted"
                  "SmartType service has been restarted." st).
Proof.
  intros Hout. repeat split; eapply service_method_success; apply Hout.
Qed.

(** X17: the service methods catch [CalledProcessError] only: when the
    command cannot be run at all, the exception leaves [start_service],
    [stop_service] and [restart_service], no dialog is shown and the status
    is not queried. *)
Theorem service_spawn_failure_propagates (st : State) (e : exn) :
  is_CalledProcessError e = false ->
  (forall verb, service_manager (world st) (service_call verb) = SpawnFailed e) ->
  start_service st
  = Raised e {| win := win st;
                world := add_spawned (service_call "start") (world st) |}
  /\ stop_service st
     = Raised e {| win := win st;
                   world := add_spawned (service_call "stop") (world st) |}
  /\ restart_service st
     = Raised e {| win := win st;
                   world := add_spawned (service_call "restart") (world st) |}.
Proof.
  intros He Hout.
  repeat split; apply service_method_spawn_failure; auto.
Qed.

(** ** The tray toggle *)

(** X18: when [toggle_smarttype] returns, the Enabled box is flipped, the
    configuration has the new value, the other widgets have been saved with
    it (the hotkey and the minimum word length as they stand), and the file
    holds the dump of the configuration. *)
Theorem toggle_smarttype_flips_and_saves (st st' : State) :
  toggle_smarttype st = Done tt st' ->
  enabled_checkbox (win st') = negb (enabled_checkbox (win st))
  /\ config_lookup "enabled" (config (win st'))
     = Some (PBool (negb (enabled_checkbox (win st))))
  /\ config_lookup "hotkey" (config (win st'))
     = Some (PStr (hotkey_input (win st)))
  /\ config_lookup "min_word_length" (config (win st'))
     = Some (PInt (value (min_word_spinbox (win st))))
  /\ disk (world st') !! config_file = Some (File (dump (config (win st')))).
Proof.
  unfold toggle_smarttype. rewrite bind_gets, bind_update. intros Hrun.
  match type of Hrun with
  | _ ?s = _ =>
      pose proof (save_configuration_keeps_widgets _ s eq_refl) as Hkeep
  end.
  rewrite Hrun in Hkeep. injection Hkeep as He _ _ _ _ _ _ _.
  apply save_configuration_Done in Hrun
    as (d & apps & typos & Hcfg & Happs & Htypos & Hcfg' & Hfile).
  split; [exact He|].
  match type of Happs with
  | read_apps (app_table (win ?s)) _ = _ =>
      destruct (lookup_config_from_widgets (win s) apps typos d)
        as (Le & _ & _ & Lm & Lh & _ & _)
  end.
  rewrite Hcfg'. repeat split; [exact Le|exact Lh|exact Lm|].
  rewrite <- Hcfg'. exact Hfile.
Qed.

(** ** Saving twice *)

(** X15: after a [save_configuration] that returned, a second one, run on
    the same window and the same disk with a service manager that can be
    run, returns as well and leaves the same configuration and the same
    file. *)
Theorem save_configuration_twice (st st1 st1' : State) :
  save_configuration st = Done tt st1 ->
  win st1' = win st1 ->
  disk (world st1') = disk (world st1) ->
  spawn_raises (service_manager (world st1') (service_call "restart"))
  = false ->
  exists st2,
    save_configuration st1' = Done tt st2
    /\ config (win st2) = config (win st1)
    /\ disk (world st2) !! config_file = disk (world st1) !! config_file.
Proof.
  intros Hrun Hwin Hdisk Hraise.
  pose proof (save_configuration_keeps_widgets _ st eq_refl) as Hkeep.
  rewrite Hrun in Hkeep. injection Hkeep as He Ha Hs Hm Hh Hat Htt _.
  pose proof Hrun as Hdone.
  apply save_configuration_Done in Hdone
    as (d & apps & typos & Hcfg & Happs & Htypos & Hcfg1 & Hfile1).
  (* the first run *)
  rewrite (save_configuration_eq st d apps typos Hcfg Happs Htypos) in Hrun.
  cbv zeta in Hrun.
  destruct (save_config _ (disk (world st))) as [fs1|e fs1] eqn:Hsave;
    [|discriminate].
  match type of Hrun with
  | _ ?s = _ => pose proof (restart_service_keeps _ s eq_refl) as Hk1
  end.
  rewrite Hrun in Hk1. simpl in Hk1. injection Hk1 as _ _ _ _ _ _ _ _ Hdisk1 _.
  apply save_config_Written_dirs in Hsave.
  (* the second run *)
  assert (Hd1 : config (win st1)
                = PDict (config_from_widgets (win st) apps typos d))
    by exact Hcfg1.
  rewrite (save_configuration_eq st1' _ apps typos)
    by (rewrite Hwin; first [exact Hd1|rewrite Hat|rewrite Htt]; assumption).
  cbv zeta. rewrite Hwin, Hdisk.
  assert (Hsame : config_from_widgets (win st1) apps typos
                    (config_from_widgets (win st) apps typos d)
                  = config_from_widgets (win st) apps typos d).
  { rewrite <- (config_from_widgets_again (win st) apps typos d) at 2.
    unfold config_from_widgets at 1 3. rewrite He, Ha, Hs, Hm, Hh.
    reflexivity. }
  rewrite Hsame.
  rewrite Hd1 in Hfile1.
  destruct (save_config_file
              (PDict (config_from_widgets (win st) apps typos d))
              (disk (world st1)) _ ltac:(rewrite Hdisk1; exact Hsave) Hfile1)
    as (fs2 & -> & Hfile2).
  unfold restart_service.
  edestruct (service_method_returns "restart") as (st2 & Hr2);
    [|rewrite Hr2].
  { simpl. exact Hraise. }
  exists st2. split; [reflexivity|].
  match type of Hr2 with
  | _ ?s = _ => pose proof (restart_service_keeps _ s eq_refl) as Hk2
  end.
  unfold restart_service in Hk2. rewrite Hr2 in Hk2. simpl in Hk2.
  injection Hk2 as Hc2 _ _ _ _ _ _ _ Hdisk2 _.
  split; [rewrite Hc2, Hd1; reflexivity|].
  rewrite Hdisk2, Hfile2, Hfile1. reflexivity.
Qed.

(** ** Adding and removing rows *)

(** X19: [add_application] with an accepted, non-empty name appends one
    row with that name and the three boxes checked and changes nothing else
    (the configuration is not touched); with a cancelled dialog or an empty
    name it changes nothing. *)
Theorem add_application_appends_row (app_name : string) (ok : bool)
    (st : State) :
  add_application app_name ok st
  = Done tt
      (if ok && nonempty app_name then
         {| win := set_app_table
                     (app_table (win st)
                        ++ [{| app_item := Some app_name;
                               enabled_widget := Some true;
                               smart_quotes_widget := Some true;
                               autocorrect_widget := Some true |}])
                     (win st);
            world := world st |}
       else st).
Proof. apply add_application_eq. Qed.

(** X20: [add_typo] appends one row when both dialogs are accepted with
    non-empty text, and changes nothing when either is cancelled or empty. *)
Theorem add_typo_appends_row (typo : string) (ok1 : bool)
    (correction : string) (ok2 : bool) (st : State) :
  add_typo typo ok1 correction ok2 st
  = Done tt
      (if ok1 && nonempty typo && (ok2 && nonempty correction) then
         {| win := set_typo_table
                     (typo_table (win st) ++ [typo_row (typo, correction)])
                     (win st);
            world := world st |}
       else st).
Proof. apply add_typo_eq. Qed.

Lemma delete_at_length {A} (l : list A) : delete (length l) l = l.
Proof. induction l as [|x l IH]; simpl; [reflexivity|]. rewrite IH. reflexivity. Qed.

(** X21: removing the last row right after [add_application] or
    [add_typo] gives back the state from before, whether or not a row was
    added. *)
Theorem remove_undoes_add (st : State) (app_name typo correction : string) :
  (add_application app_name true ;;;
   remove_application (Z.of_nat (length (app_table (win st))))) st
  = Done tt st
  /\ (add_typo typo true correction true ;;;
      remove_typo (Z.of_nat (length (typo_table (win st))))) st
     = Done tt st.
Proof.
  split.
  - unfold bind. rewrite add_application_eq.
    unfold remove_application, update, removeRow.
    destruct (Z.leb_spec 0 (Z.of_nat (length (app_table (win st))))); [|lia].
    rewrite Nat2Z.id.
    destruct st as [[cfg ec ac sc sb hk atab ttab sl si] wd]. simpl.
    destruct (nonempty app_name); simpl.
    + rewrite delete_middle, app_nil_r. reflexivity.
    + rewrite delete_at_length. reflexivity.
  - unfold bind. rewrite add_typo_eq.
    unfold remove_typo, update, removeRow.
    destruct (Z.leb_spec 0 (Z.of_nat (length (typo_table (win st))))); [|lia].
    rewrite Nat2Z.id.
    destruct st as [[cfg ec ac sc sb hk atab ttab sl si] wd]. simpl.
    destruct (nonempty typo && nonempty correction); simpl.
    + rewrite delete_middle, app_nil_r. reflexivity.
    + rewrite delete_at_length. reflexivity.
Qed.

(** ** What a save puts into the two mappings *)

Lemma typos_of_keys (entries : list (string * string)) (acc : Dict.t)
    (k : string) :
  k ∈ Dict.keys (typos_of entries acc)
  <-> k ∈ Dict.keys acc \/ k ∈ map fst entries.
Proof.
  revert acc. induction entries as [|[t c] entries IH]; intros acc; simpl.
  - split; [auto|]. intros [?|Hin]; [assumption|inversion Hin].
  - change (k ∈ Dict.keys (typos_of entries (Dict.set t (PStr c) acc))
            <-> k ∈ Dict.keys acc \/ k ∈ t :: map fst entries).
    rewrite IH, MoreDictFacts.keys_set_elem, elem_of_cons. tauto.
Qed.

(** X13: [save_configuration] builds [custom_typos] from the table alone:
    the keys of the saved mapping are exactly the typos of the rows, so an
    entry of the loaded file whose row has been removed is gone. *)
Theorem saved_typos_are_table_rows (st st' : State)
    (entries : list (string * string)) :
  typo_table (win st) = map typo_row entries ->
  save_configuration st = Done tt st' ->
  exists typos,
    config_lookup "custom_typos" (config (win st')) = Some (PDict typos)
    /\ forall k, k ∈ Dict.keys typos <-> k ∈ map fst entries.
Proof.
  intros Htable Hrun.
  apply save_configuration_Done in Hrun
    as (d & apps & typos & _ & _ & Htypos & Hcfg & _).
  rewrite Htable, read_typos_rows in Htypos. injection Htypos as <-.
  eexists. split.
  - rewrite Hcfg. simpl. apply DictFacts.lookup_set_eq.
  - intros k. rewrite typos_of_keys. split; [|auto].
    intros [Hin|?]; [inversion Hin|assumption].
Qed.

Lemma read_apps_flags (rows : list AppRow) (acc apps : Dict.t) :
  read_apps rows acc = Ok apps ->
  (forall name v, Dict.lookup name acc = Some v ->
     exists e s a, v = app_flags e s a) ->
  forall name v, Dict.lookup name apps = Some v ->
    exists e s a, v = app_flags e s a.
Proof.
  revert acc. induction rows as [|r rows IH]; intros acc Hread Hacc.
  - injection Hread as <-. exact Hacc.
  - destruct r as [[n|] [e|] [s|] [a|]]; try discriminate.
    simpl in Hread. apply (IH _ Hread).
    intros name v. destruct (String.eqb_spec name n) as [->|Hne].
    + rewrite DictFacts.lookup_set_eq. intros [= <-]. eauto.
    + rewrite DictFacts.lookup_set_ne by exact Hne. apply Hacc.
Qed.

(** X14: every entry of the [applications] mapping that
    [save_configuration] writes is a mapping with exactly the three boolean
    keys [enabled], [smart_quotes] and [autocorrect], in this order; any
    other key that an application had in the loaded file is dropped. *)
Theorem saved_applications_have_three_flags (st st' : State) :
  save_configuration st = Done tt st' ->
  exists apps,
    config_lookup "applications" (config (win st')) = Some (PDict apps)
    /\ forall name v, Dict.lookup name apps = Some v ->
         exists enabled smart_quotes autocorrect,
           v = app_flags enabled smart_quotes autocorrect.
Proof.
  intros Hrun.
  apply save_configuration_Done in Hrun
    as (d & apps & typos & _ & Happs & _ & Hcfg & _).
  exists apps. split.
  - rewrite Hcfg. simpl.
    rewrite DictFacts.lookup_set_ne by discriminate.
    apply DictFacts.lookup_set_eq.
  - apply (read_apps_flags _ _ _ Happs). intros ? ? [=].
Qed.

(** ** Construction and the settings written *)

Lemma load_settings_keeps_world :
  keeps (fun st => (world st, status_label (win st), status_indicator (win st)))
    load_settings.
Proof. solve_keeps. Qed.

(** X5: the construction of the window writes nothing to the disk, shows
    no dialog and runs no command, whether it returns or raises; in
    particular the status of the service is not queried, and the header
    still shows the initial label and a green indicator. *)
Theorem init_runs_no_command (w : World) :
  match MainWindow_init w with
  | Done _ st' =>
      world st' = w /\ status_label (win st') = "Status: "
      /\ status_indicator (win st') = "color: green; font-size: 20px;"
  | Raised _ st' => world st' = w
  end.
Proof.
  unfold MainWindow_init.
  destruct (load_config (disk w)) as [config|e]; [|reflexivity].
  pose proof (load_settings_keeps_world _
                {| win := init_ui config; world := w |} eq_refl) as Hkeep.
  destruct (load_settings _) as [[] st'|e st'];
    injection Hkeep as Hw Hl Hi; auto.
Qed.

(** X12: after a [save_configuration] that returned, each of the five
    general settings in the configuration is the value of its widget, the
    settings widgets are as before, and the file holds the dump of the
    configuration. *)
Theorem saved_settings_match_widgets (st st' : State) :
  save_configuration st = Done tt st' ->
  config_lookup "enabled" (config (win st'))
  = Some (PBool (enabled_checkbox (win st')))
  /\ config_lookup "autocorrect" (config (win st'))
     = Some (PBool (autocorrect_checkbox (win st')))
  /\ config_lookup "smart_punctuation" (config (win st'))
     = Some (PBool (smart_punctuation_checkbox (win st')))
  /\ config_lookup "min_word_length" (config (win st'))
     = Some (PInt (value (min_word_spinbox (win st'))))
  /\ config_lookup "hotkey" (config (win st'))
     = Some (PStr (hotkey_input (win st')))
  /\ settings_widgets (win st') = settings_widgets (win st)
  /\ disk (world st') !! config_file = Some (File (dump (config (win st')))).
Proof.
  intros Hrun.
  pose proof (save_configuration_keeps_widgets _ st eq_refl) as Hkeep.
  rewrite Hrun in Hkeep.
  assert (Hw : settings_widgets (win st') = settings_widgets (win st))
    by (injection Hkeep as He Ha Hs Hm Hh Hat Htt _; unfold settings_widgets;
        congruence).
  injection Hkeep as He Ha Hs Hm Hh _ _ _.
  apply save_configuration_Done in Hrun
    as (d & apps & typos & _ & _ & _ & Hcfg & Hfile).
  destruct (lookup_config_from_widgets (win st) apps typos d)
    as (Le & La & Ls & Lm & Lh & _ & _).
  rewrite He, Ha, Hs, Hm, Hh.
  split; [rewrite Hcfg; exact Le|]. split; [rewrite Hcfg; exact La|].
  split; [rewrite Hcfg; exact Ls|]. split; [rewrite Hcfg; exact Lm|].
  split; [rewrite Hcfg; exact Lh|]. split; [exact Hw|exact Hfile].
Qed.

End FurtherProperties.

(** * The claims on concrete worlds *)

(** C1, the claim as stated fails: the file exists, its content is not
    valid YAML, and [load_config] raises instead of returning the defaults. *)
Lemma load_config_invalid_yaml_raises :
  path_exists (home_with_config broken_config_text) config_file = true
  /\ safe_load broken_config_text
     = Raise (YAMLError "found unexpected end of stream in a quoted scalar")
  /\ load_config (home_with_config broken_config_text)
     = Raise (YAMLError "found unexpected end of stream in a quoted scalar")
  /\ load_config (home_with_config broken_config_text) <> Ok default_config.
Proof.
  assert (Hload : load_config (home_with_config broken_config_text)
     = Raise (YAMLError "found unexpected end of stream in a quoted scalar"))
    by (vm_compute; reflexivity).
  split; [vm_compute; reflexivity|]. split; [vm_compute; reflexivity|].
  split; [exact Hload|]. rewrite Hload. discriminate.
Qed.

Lemma load_config_propagates_parse_error_witness :
  disk (world_of (home_with_config broken_config_text)
                 (Exited 0 EmptyString EmptyString)) !! config_file
    = Some (File broken_config_text)
  /\ safe_load broken_config_text
     = Raise (YAMLError "found unexpected end of stream in a quoted scalar")
  /\ load_config (home_with_config broken_config_text)
     = Raise (YAMLError "found unexpected end of stream in a quoted scalar").
Proof.
  split; [vm_compute; reflexivity|]. split; [vm_compute; reflexivity|].
  apply (load_config_propagates_parse_error
           (world_of (home_with_config broken_config_text)
                     (Exited 0 EmptyString EmptyString))
           broken_config_text
           (YAMLError "found unexpected end of stream in a quoted scalar"));
    vm_compute; reflexivity.
Defined.


Lemma load_config_missing_file_gives_defaults_witness :
  disk (world_of empty_home (Exited 0 EmptyString EmptyString)) !! config_file
    = None
  /\ load_config empty_home = Ok default_config.
Proof.
  split; [vm_compute; reflexivity|].
  apply (load_config_missing_file_gives_defaults
           (world_of empty_home (Exited 0 EmptyString EmptyString))).
  vm_compute; reflexivity.
Defined.

(** C4, the claim as stated fails: the configuration path holds a valid
    file, the save is cut short right after the file has been opened, and
    the path holds a file of length zero in place of the valid one. *)
Lemma save_config_interrupted_leaves_empty_file :
  safe_load valid_config_text
    = Ok (PDict [("enabled", PBool true); ("min_word_length", PInt 3)])
  /\ home_with_config valid_config_text !! config_file
     = Some (File valid_config_text)
  /\ exists fs',
       save_config_interrupted 2 default_config
         (home_with_config valid_config_text) = Written fs'
       /\ fs' !! config_file = Some (File EmptyString).
Proof.
  split; [vm_compute; reflexivity|]. split; [vm_compute; reflexivity|].
  destruct (save_config_interrupted_file 2 default_config
              (home_with_config valid_config_text) valid_config_text)
    as (fs' & Hrun & Hfile); [vm_compute; reflexivity ..|].
  exists fs'. split; [exact Hrun|]. rewrite Hfile. reflexivity.
Qed.

Lemma save_config_interrupted_content_witness :
  dirs_from [] config_dir (home_with_config valid_config_text) = true
  /\ home_with_config valid_config_text !! config_file
     = Some (File valid_config_text)
  /\ exists fs',
       save_config_interrupted 14 default_config
         (home_with_config valid_config_text) = Written fs'
       /\ fs' !! config_file = Some (File "applications").
Proof.
  split; [vm_compute; reflexivity|]. split; [vm_compute; reflexivity|].
  destruct (save_config_interrupted_content 14 default_config
              (home_with_config valid_config_text) valid_config_text)
    as [(fs' & Hrun & Hfile) _]; [vm_compute; reflexivity ..|].
  exists fs'. split; [exact Hrun|]. rewrite Hfile. vm_compute. reflexivity.
Defined.

(** C5, the claim as stated fails: for the file holding [enabled: false]
    only, [load_config] returns a mapping with that single key, and in the
    window built from it the two tables are empty instead of holding the
    default applications and corrections. *)
Lemma load_only_enabled_has_no_defaults :
  load_config (home_with_config only_enabled_text)
    = Ok (PDict [("enabled", PBool false)])
  /\ config_lookup "min_word_length" (PDict [("enabled", PBool false)]) = None
  /\ MainWindow_init (world_of (home_with_config only_enabled_text)
                               (Exited 0 EmptyString EmptyString))
     = Done tt (state_after_init
                  (world_of (home_with_config only_enabled_text)
                            (Exited 0 EmptyString EmptyString)))
  /\ app_table (win (state_after_init
                       (world_of (home_with_config only_enabled_text)
                                 (Exited 0 EmptyString EmptyString)))) = []
  /\ typo_table (win (state_after_init
                        (world_of (home_with_config only_enabled_text)
                                  (Exited 0 EmptyString EmptyString)))) = []
  /\ (exists apps,
        config_lookup "applications" default_config = Some (PDict apps)
        /\ length apps = 3%nat).
Proof.
  split; [vm_compute; reflexivity|]. split; [reflexivity|].
  split; [vm_compute; reflexivity|]. split; [vm_compute; reflexivity|].
  split; [vm_compute; reflexivity|].
  eexists. split; reflexivity.
Qed.

Lemma init_defaults_missing_keys_witness :
  disk (world_of (home_with_config only_enabled_text)
                 (Exited 0 EmptyString EmptyString)) !! config_file
    = Some (File only_enabled_text)
  /\ safe_load only_enabled_text = Ok (PDict [("enabled", PBool false)])
  /\ MainWindow_init (world_of (home_with_config only_enabled_text)
                               (Exited 0 EmptyString EmptyString))
     = Done tt (state_after_init
                  (world_of (home_with_config only_enabled_text)
                            (Exited 0 EmptyString EmptyString)))
  /\ hotkey_input
       (win (state_after_init
               (world_of (home_with_config only_enabled_text)
                         (Exited 0 EmptyString EmptyString))))
     = "Super+Shift+A".
Proof.
  assert (H1 : disk (world_of (home_with_config only_enabled_text)
                 (Exited 0 EmptyString EmptyString)) !! config_file
    = Some (File only_enabled_text)) by (vm_compute; reflexivity).
  assert (H2 : safe_load only_enabled_text
               = Ok (PDict [("enabled", PBool false)]))
    by (vm_compute; reflexivity).
  assert (H3 : MainWindow_init (world_of (home_with_config only_enabled_text)
                               (Exited 0 EmptyString EmptyString))
     = Done tt (state_after_init
                  (world_of (home_with_config only_enabled_text)
                            (Exited 0 EmptyString EmptyString))))
    by (vm_compute; reflexivity).
  split; [exact H1|]. split; [exact H2|]. split; [exact H3|].
  destruct (init_defaults_missing_keys _ _ _ _ H1 H2 H3)
    as (_ & _ & _ & _ & _ & _ & Hhotkey & _).
  apply Hhotkey. reflexivity.
Defined.

(** C6, the claim as stated fails: a file with [min_word_length: 50] is
    loaded with the value 50, outside 1..10, passed through unchanged. *)
Lemma load_config_passes_min_word_length_through :
  load_config (home_with_config big_min_word_text)
    = Ok (PDict [("min_word_length", PInt 50)])
  /\ config_lookup "min_word_length" (PDict [("min_word_length", PInt 50)])
     = Some (PInt 50)
  /\ ~ (1 <= 50 <= 10).
Proof.
  split; [vm_compute; reflexivity|]. split; [reflexivity|lia].
Qed.

Lemma saved_min_word_length_in_range_witness :
  reachable (state_after (dispatch (SpinMinWord 50))
               (state_after_init
                  (world_of (home_with_config big_min_word_text)
                            (Exited 0 EmptyString EmptyString))))
  /\ save_configuration
       (state_after (dispatch (SpinMinWord 50))
          (state_after_init
             (world_of (home_with_config big_min_word_text)
                       (Exited 0 EmptyString EmptyString))))
     = Done tt
         (state_after save_configuration
            (state_after (dispatch (SpinMinWord 50))
               (state_after_init
                  (world_of (home_with_config big_min_word_text)
                            (Exited 0 EmptyString EmptyString)))))
  /\ value (min_word_spinbox
              (win (state_after (dispatch (SpinMinWord 50))
                      (state_after_init
                         (world_of (home_with_config big_min_word_text)
                                   (Exited 0 EmptyString EmptyString))))))
     = 10.
Proof.
  assert (H1 : reachable (state_after (dispatch (SpinMinWord 50))
               (state_after_init
                  (world_of (home_with_config big_min_word_text)
                            (Exited 0 EmptyString EmptyString))))).
  { eapply reachable_event with (ev := SpinMinWord 50).
    - eapply reachable_init with
        (w := world_of (home_with_config big_min_word_text)
                       (Exited 0 EmptyString EmptyString)).
      vm_compute. reflexivity.
    - vm_compute. reflexivity. }
  assert (H2 : save_configuration
       (state_after (dispatch (SpinMinWord 50))
          (state_after_init
             (world_of (home_with_config big_min_word_text)
                       (Exited 0 EmptyString EmptyString))))
     = Done tt
         (state_after save_configuration
            (state_after (dispatch (SpinMinWord 50))
               (state_after_init
                  (world_of (home_with_config big_min_word_text)
                            (Exited 0 EmptyString EmptyString))))))
    by (vm_compute; reflexivity).
  split; [exact H1|]. split; [exact H2|].
  destruct (saved_min_word_length_in_range _ _ H1 H2) as [_ _].
  vm_compute. reflexivity.
Defined.

(** C7 on a machine without the service manager: the call raises
    [FileNotFoundError] and the status reads Unknown. *)
Lemma update_status_without_systemctl :
  update_status
    {| win := init_ui default_config;
       world := world_of empty_home (SpawnFailed FileNotFoundError) |}
  = Done tt
      (state_after update_status
         {| win := init_ui default_config;
            world := world_of empty_home (SpawnFailed FileNotFoundError) |})
  /\ status_label
       (win (state_after update_status
               {| win := init_ui default_config;
                  world := world_of empty_home
                             (SpawnFailed FileNotFoundError) |}))
     = "Status: Unknown".
Proof. split; vm_compute; reflexivity. Qed.

Lemma duplicate_typo_keeps_last_correction_witness :
  typo_table (win state_with_duplicate_typo)
    = map typo_row ([("hte", "the"); ("becuase", "because")]
                      ++ ("teh", "the") :: [] ++ ("teh", "then") :: [])
  /\ ("teh" ∉ map fst ([] : list (string * string)))
  /\ save_configuration state_with_duplicate_typo
     = Done tt (state_after save_configuration state_with_duplicate_typo)
  /\ exists typos,
       config_lookup "custom_typos"
         (config (win (state_after save_configuration
                         state_with_duplicate_typo)))
         = Some (PDict typos)
       /\ Dict.lookup "teh" typos = Some (PStr "then")
       /\ NoDup (Dict.keys typos).
Proof.
  assert (H1 : typo_table (win state_with_duplicate_typo)
    = map typo_row ([("hte", "the"); ("becuase", "because")]
                      ++ ("teh", "the") :: [] ++ ("teh", "then") :: []))
    by (vm_compute; reflexivity).
  assert (H2 : "teh" ∉ map fst ([] : list (string * string)))
    by apply not_elem_of_nil.
  assert (H3 : save_configuration state_with_duplicate_typo
     = Done tt (state_after save_configuration state_with_duplicate_typo))
    by (vm_compute; reflexivity).
  split; [exact H1|]. split; [exact H2|]. split; [exact H3|].
  exact (duplicate_typo_keeps_last_correction _ _ _ _ _ _ _ _ H1 H2 H3).
Defined.

(** C9, the claim as stated fails: the command is run without a timeout and
    without capturing its output, and the warning shown for exit status 5
    does not carry the diagnostic the command printed. *)
Lemma start_service_has_no_timeout_nor_diagnostic :
  timeout (service_call "start") = None
  /\ capture_output (service_call "start") = false
  /\ dialogs (world (state_after start_service state_with_failing_service))
     = [Warning "Error"
          "Failed to start service: Command '['systemctl', '--user', 'start', 'smarttype']' returned non-zero exit status 5."]
  /\ forallb (fun d => negb (occurs_in "Unit smarttype.service not found."
                                       (dialog_text d)))
       (dialogs (world (state_after start_service
                          state_with_failing_service)))
     = true.
Proof.
  split; [reflexivity|]. split; [reflexivity|].
  split; vm_compute; reflexivity.
Qed.

Lemma service_failure_is_reported_witness :
  5 <> 0
  /\ (forall verb,
        service_manager (world state_with_failing_service) (service_call verb)
        = Exited 5 EmptyString "Unit smarttype.service not found.")
  /\ restart_service state_with_failing_service
     = Done tt (failure_reported "restart" 5 state_with_failing_service).
Proof.
  assert (H1 : 5 <> 0) by discriminate.
  assert (H2 : forall verb,
        service_manager (world state_with_failing_service) (service_call verb)
        = Exited 5 EmptyString "Unit smarttype.service not found.")
    by (intros verb; reflexivity).
  split; [exact H1|]. split; [exact H2|].
  destruct (service_failure_is_reported state_with_failing_service 5
              EmptyString "Unit smarttype.service not found." H1 H2)
    as (_ & _ & _ & Hrestart).
  exact Hrestart.
Defined.

Lemma save_configuration_preserves_unknown_keys_witness :
  is_known_key "theme" = false
  /\ config_lookup "theme" (config (win state_with_theme))
     = Some (PStr "dark")
  /\ config_lookup "theme"
       (config (win (state_after save_configuration state_with_theme)))
     = Some (PStr "dark")
  /\ save_configuration state_with_theme
     = Done tt (state_after save_configuration state_with_theme).
Proof.
  assert (H1 : is_known_key "theme" = false) by reflexivity.
  assert (H2 : config_lookup "theme" (config (win state_with_theme))
               = Some (PStr "dark")) by (vm_compute; reflexivity).
  assert (H3 : save_configuration state_with_theme
     = Done tt (state_after save_configuration state_with_theme))
    by (vm_compute; reflexivity).
  split; [exact H1|]. split; [exact H2|]. split; [|exact H3].
  pose proof (save_configuration_preserves_unknown_keys
                state_with_theme "theme" (PStr "dark") H1 H2) as Hkeep.
  rewrite H3 in Hkeep. exact (proj1 Hkeep).
Defined.

(** * The further properties on concrete worlds *)

Lemma default_window_init :
  MainWindow_init default_world = Done tt default_window.
Proof. vm_compute. reflexivity. Qed.

Lemma default_window_reachable : reachable default_window.
Proof. exact (reachable_init default_world _ default_window_init). Qed.

Lemma default_window_save :
  save_configuration default_window
  = Done tt (state_after save_configuration default_window).
Proof. vm_compute. reflexivity. Qed.


Lemma save_config_touches_only_its_paths_witness :
  ["etc"; "hosts"] <> config_file
  /\ (io_disk (save_config default_config blocked_home) !! ["etc"; "hosts"]
      = blocked_home !! ["etc"; "hosts"]
      \/ (blocked_home !! ["etc"; "hosts"] = None
          /\ io_disk (save_config default_config blocked_home)
               !! ["etc"; "hosts"] = Some Dir
          /\ ["etc"; "hosts"] `prefix_of` config_dir)).
Proof.
  assert (H1 : ["etc"; "hosts"] <> config_file) by (vm_compute; discriminate).
  split; [exact H1|].
  exact (save_config_touches_only_its_paths default_config blocked_home
           ["etc"; "hosts"] H1).
Defined.

Lemma save_configuration_blocked_by_file_witness :
  reachable window_on_blocked_home
  /\ file_in_the_way [] config_dir (disk (world window_on_blocked_home)) = true
  /\ exists e st',
       save_configuration window_on_blocked_home = Raised e st'
       /\ (e = FileExistsError \/ e = NotADirectoryError)
       /\ world st' = world window_on_blocked_home
       /\ config_lookup "enabled" (config (win st'))
          = Some (PBool (enabled_checkbox (win window_on_blocked_home))).
Proof.
  assert (H1 : reachable window_on_blocked_home)
    by exact (reachable_world default_window _ default_window_reachable).
  assert (H2 : file_in_the_way [] config_dir
                 (disk (world window_on_blocked_home)) = true)
    by (vm_compute; reflexivity).
  split; [exact H1|]. split; [exact H2|].
  exact (save_configuration_blocked_by_file window_on_blocked_home H1 H2).
Defined.

Lemma init_fails_on_non_mapping_witness :
  disk (world_of (home_with_config EmptyString)
                 (Exited 0 EmptyString EmptyString)) !! config_file
  = Some (File EmptyString)
  /\ safe_load EmptyString = Ok PNone
  /\ is_mapping PNone = false
  /\ MainWindow_init (world_of (home_with_config EmptyString)
                               (Exited 0 EmptyString EmptyString))
     = Raised AttributeError
         {| win := init_ui PNone;
            world := world_of (home_with_config EmptyString)
                              (Exited 0 EmptyString EmptyString) |}.
Proof.
  assert (H1 : disk (world_of (home_with_config EmptyString)
                       (Exited 0 EmptyString EmptyString)) !! config_file
               = Some (File EmptyString)) by (vm_compute; reflexivity).
  assert (H2 : safe_load EmptyString = Ok PNone) by (vm_compute; reflexivity).
  assert (H3 : is_mapping PNone = false) by reflexivity.
  split; [exact H1|]. split; [exact H2|]. split; [exact H3|].
  exact (init_fails_on_non_mapping _ EmptyString PNone H1 H2 H3).
Defined.

Lemma load_typos_table_shows_entries_witness :
  config (win window_with_one_typo)
  = PDict [("custom_typos", PDict (map typo_entry [("teh", "the")]))]
  /\ Dict.lookup "custom_typos"
       [("custom_typos", PDict (map typo_entry [("teh", "the")]))]
     = Some (PDict (map typo_entry [("teh", "the")]))
  /\ load_typos_table window_with_one_typo
     = Done tt {| win := set_typo_table (map typo_row [("teh", "the")])
                           (win window_with_one_typo);
                  world := world window_with_one_typo |}.
Proof.
  assert (H1 : config (win window_with_one_typo)
               = PDict [("custom_typos",
                         PDict (map typo_entry [("teh", "the")]))])
    by reflexivity.
  assert (H2 : Dict.lookup "custom_typos"
                 [("custom_typos", PDict (map typo_entry [("teh", "the")]))]
               = Some (PDict (map typo_entry [("teh", "the")])))
    by reflexivity.
  split; [exact H1|]. split; [exact H2|].
  exact (load_typos_table_shows_entries window_with_one_typo _
           [("teh", "the")] H1 H2).
Defined.

Lemma load_applications_table_shows_entries_witness :
  config (win window_with_one_application)
  = PDict [("applications",
            PDict (map app_entry [("vim", [("enabled", PBool false)])]))]
  /\ Dict.lookup "applications"
       [("applications",
         PDict (map app_entry [("vim", [("enabled", PBool false)])]))]
     = Some (PDict (map app_entry [("vim", [("enabled", PBool false)])]))
  /\ forallb flags_ok [("vim", [("enabled", PBool false)])] = true
  /\ app_table
       (win (state_after load_applications_table
               window_with_one_application))
     = [{| app_item := Some "vim"; enabled_widget := Some false;
           smart_quotes_widget := Some true;
           autocorrect_widget := Some true |}].
Proof.
  assert (H1 : config (win window_with_one_application)
               = PDict [("applications",
                         PDict (map app_entry
                                  [("vim", [("enabled", PBool false)])]))])
    by reflexivity.
  assert (H2 : Dict.lookup "applications"
                 [("applications",
                   PDict (map app_entry
                            [("vim", [("enabled", PBool false)])]))]
               = Some (PDict (map app_entry
                                [("vim", [("enabled", PBool false)])])))
    by reflexivity.
  assert (H3 : forallb flags_ok [("vim", [("enabled", PBool false)])] = true)
    by reflexivity.
  split; [exact H1|]. split; [exact H2|]. split; [exact H3|].
  unfold state_after.
  rewrite (load_applications_table_shows_entries
             window_with_one_application _
             [("vim", [("enabled", PBool false)])] H1 H2 H3).
  reflexivity.
Defined.

Lemma cancel_after_save_changes_nothing_witness :
  spin_in_range (min_word_spinbox (win default_window))
  /\ NoDup (map app_item (app_table (win default_window)))
  /\ NoDup (map typo_item (typo_table (win default_window)))
  /\ save_configuration default_window
     = Done tt (state_after save_configuration default_window)
  /\ load_settings (state_after save_configuration default_window)
     = Done tt (state_after save_configuration default_window).
Proof.
  assert (H1 : spin_in_range (min_word_spinbox (win default_window)))
    by exact (reachable_spin_in_range _ default_window_reachable).
  assert (H2 : NoDup (map app_item (app_table (win default_window))))
    by (refine (bool_decide_unpack _ _); vm_compute; reflexivity).
  assert (H3 : NoDup (map typo_item (typo_table (win default_window))))
    by (refine (bool_decide_unpack _ _); vm_compute; reflexivity).
  split; [exact H1|]. split; [exact H2|]. split; [exact H3|].
  split; [exact default_window_save|].
  exact (cancel_after_save_changes_nothing default_window _ H1 H2 H3
           default_window_save).
Defined.

Lemma cancel_discards_edits_witness :
  config (win (state_after (add_typo "teh" true "the" true) default_window))
  = config (win {| win := init_ui default_config; world := default_world |})
  /\ minimum (min_word_spinbox
                (win (state_after (add_typo "teh" true "the" true)
                        default_window)))
     = minimum (min_word_spinbox (init_ui default_config))
  /\ maximum (min_word_spinbox
                (win (state_after (add_typo "teh" true "the" true)
                        default_window)))
     = maximum (min_word_spinbox (init_ui default_config))
  /\ load_settings {| win := init_ui default_config; world := default_world |}
     = Done tt default_window
  /\ exists st2',
       load_settings (state_after (add_typo "teh" true "the" true)
                        default_window)
       = Done tt st2'
       /\ settings_widgets (win st2') = settings_widgets (win default_window)
       /\ config (win st2') = config (win default_window).
Proof.
  assert (H1 : config (win (state_after (add_typo "teh" true "the" true)
                              default_window))
               = config (win {| win := init_ui default_config;
                                world := default_world |}))
    by (vm_compute; reflexivity).
  assert (H2 : minimum (min_word_spinbox
                 (win (state_after (add_typo "teh" true "the" true)
                         default_window)))
               = minimum (min_word_spinbox (init_ui default_config)))
    by (vm_compute; reflexivity).
  assert (H3 : maximum (min_word_spinbox
                 (win (state_after (add_typo "teh" true "the" true)
                         default_window)))
               = maximum (min_word_spinbox (init_ui default_config)))
    by (vm_compute; reflexivity).
  assert (H4 : load_settings {| win := init_ui default_config;
                                world := default_world |}
               = Done tt default_window) by (vm_compute; reflexivity).
  split; [exact H1|]. split; [exact H2|]. split; [exact H3|].
  split; [exact H4|].
  exact (cancel_discards_edits
           {| win := init_ui default_config; world := default_world |}
           default_window _ H1 H2 H3 H4).
Defined.


Lemma save_configuration_without_service_manager_witness :
  reachable window_without_systemctl
  /\ file_in_the_way [] config_dir (disk (world window_without_systemctl))
     = false
  /\ disk (world window_without_systemctl) !! config_file <> Some Dir
  /\ service_manager (world window_without_systemctl) (service_call "restart")
     = SpawnFailed FileNotFoundError
  /\ is_CalledProcessError FileNotFoundError = false
  /\ exists st',
       save_configuration window_without_systemctl
       = Raised FileNotFoundError st'
       /\ disk (world st') !! config_file
          = Some (File (dump (config (win st'))))
       /\ dialogs (world st')
          = dialogs (world window_without_systemctl) ++ [saved_dialog]
       /\ spawned (world st')
          = spawned (world window_without_systemctl)
              ++ [service_call "restart"].
Proof.
  assert (H1 : reachable window_without_systemctl)
    by exact (reachable_world default_window _ default_window_reachable).
  assert (H2 : file_in_the_way [] config_dir
                 (disk (world window_without_systemctl)) = false)
    by (vm_compute; reflexivity).
  assert (H3 : disk (world window_without_systemctl) !! config_file
               <> Some Dir) by (vm_compute; discriminate).
  assert (H4 : service_manager (world window_without_systemctl)
                 (service_call "restart") = SpawnFailed FileNotFoundError)
    by reflexivity.
  assert (H5 : is_CalledProcessError FileNotFoundError = false)
    by reflexivity.
  split; [exact H1|]. split; [exact H2|]. split; [exact H3|].
  split; [exact H4|]. split; [exact H5|].
  exact (save_configuration_without_service_manager window_without_systemctl
           FileNotFoundError H1 H2 H3 H4 H5).
Defined.

Lemma saved_settings_match_widgets_witness :
  save_configuration default_window
  = Done tt (state_after save_configuration default_window)
  /\ config_lookup "min_word_length"
       (config (win (state_after save_configuration default_window)))
     = Some (PInt (value (min_word_spinbox
                            (win (state_after save_configuration
                                    default_window))))).
Proof.
  split; [exact default_window_save|].
  exact (proj1 (proj2 (proj2 (proj2
           (saved_settings_match_widgets default_window _
              default_window_save))))).
Defined.

Lemma saved_typos_are_table_rows_witness :
  typo_table (win default_window)
  = map typo_row [("hte", "the"); ("becuase", "because")]
  /\ save_configuration default_window
     = Done tt (state_after save_configuration default_window)
  /\ exists typos,
       config_lookup "custom_typos"
         (config (win (state_after save_configuration default_window)))
       = Some (PDict typos)
       /\ forall k,
            k ∈ Dict.keys typos
            <-> k ∈ map fst [("hte", "the"); ("becuase", "because")].
Proof.
  assert (H1 : typo_table (win default_window)
               = map typo_row [("hte", "the"); ("becuase", "because")])
    by (vm_compute; reflexivity).
  split; [exact H1|]. split; [exact default_window_save|].
  exact (saved_typos_are_table_rows default_window _ _ H1
           default_window_save).
Defined.

Lemma saved_applications_have_three_flags_witness :
  save_configuration default_window
  = Done tt (state_after save_configuration default_window)
  /\ exists apps,
       config_lookup "applications"
         (config (win (state_after save_configuration default_window)))
       = Some (PDict apps)
       /\ forall name v, Dict.lookup name apps = Some v ->
            exists enabled smart_quotes autocorrect,
              v = app_flags enabled smart_quotes autocorrect.
Proof.
  split; [exact default_window_save|].
  exact (saved_applications_have_three_flags default_window _
           default_window_save).
Defined.

Lemma save_configuration_twice_witness :
  save_configuration default_window
  = Done tt (state_after save_configuration default_window)
  /\ spawn_raises
       (service_manager (world (state_after save_configuration default_window))
          (service_call "restart"))
     = false
  /\ exists st2,
       save_configuration (state_after save_configuration default_window)
       = Done tt st2
       /\ config (win st2)
          = config (win (state_after save_configuration default_window))
       /\ disk (world st2) !! config_file
          = disk (world (state_after save_configuration default_window))
              !! config_file.
Proof.
  assert (H4 : spawn_raises
                 (service_manager
                    (world (state_after save_configuration default_window))
                    (service_call "restart")) = false)
    by (vm_compute; reflexivity).
  split; [exact default_window_save|]. split; [exact H4|].
  exact (save_configuration_twice default_window _
           (state_after save_configuration default_window)
           default_window_save eq_refl eq_refl H4).
Defined.

Lemma service_success_is_announced_witness :
  (forall verb,
     service_manager (world default_window) (service_call verb)
     = Exited 0 EmptyString EmptyString)
  /\ start_service default_window
     = Done tt (service_announced "start" "Service Started"
                  "SmartType service has been started." default_window)
  /\ status_label
       (win (service_announced "start" "Service Started"
               "SmartType service has been started." default_window))
     = "Status: Active".
Proof.
  assert (H1 : forall verb,
             service_manager (world default_window) (service_call verb)
             = Exited 0 EmptyString EmptyString)
    by (intros verb; reflexivity).
  split; [exact H1|].
  split; [exact (proj1 (service_success_is_announced default_window
                          EmptyString EmptyString H1))|].
  vm_compute. reflexivity.
Defined.

Lemma service_spawn_failure_propagates_witness :
  is_CalledProcessError FileNotFoundError = false
  /\ (forall verb,
        service_manager (world window_without_systemctl) (service_call verb)
        = SpawnFailed FileNotFoundError)
  /\ start_service window_without_systemctl
     = Raised FileNotFoundError
         {| win := win window_without_systemctl;
            world := add_spawned (service_call "start")
                       (world window_without_systemctl) |}.
Proof.
  assert (H1 : is_CalledProcessError FileNotFoundError = false)
    by reflexivity.
  assert (H2 : forall verb,
             service_manager (world window_without_systemctl)
               (service_call verb) = SpawnFailed FileNotFoundError)
    by (intros verb; reflexivity).
  split; [exact H1|]. split; [exact H2|].
  exact (proj1 (service_spawn_failure_propagates window_without_systemctl
                  FileNotFoundError H1 H2)).
Defined.

Lemma toggle_smarttype_flips_and_saves_witness :
  toggle_smarttype default_window
  = Done tt (state_after toggle_smarttype default_window)
  /\ enabled_checkbox (win default_window) = true
  /\ enabled_checkbox (win (state_after toggle_smarttype default_window))
     = negb (enabled_checkbox (win default_window)).
Proof.
  assert (H1 : toggle_smarttype default_window
               = Done tt (state_after toggle_smarttype default_window))
    by (vm_compute; reflexivity).
  split; [exact H1|]. split; [vm_compute; reflexivity|].
  exact (proj1 (toggle_smarttype_flips_and_saves default_window _ H1)).
Defined.
